(** * Pong multiplayer: host-authoritative synchronisation layer

    A shallow embedding of the game engine of the repository
    (Ball.ts, Paddle.ts, PowerUpManager.ts, Game.ts, SyncService.ts and
    GameManager.ts) together with the properties its specification states
    about it, and of the game loop, the particle service and the audio
    service around it (GameLoop.ts, ParticleService.ts, AudioService.ts)
    with properties of their own.

    Conventions of the embedding.
    - A JavaScript [number] that carries a measure (positions, speeds,
      durations) is a rational [Q]; the arithmetic is exact, rounding of
      IEEE doubles is not modelled.  Division by zero yields [0] in [Q]
      where JavaScript yields [Infinity] or [NaN].
    - A [number] that is only ever counted (scores, hit counters, the
      countdown, millisecond timestamps of [Date.now]) is an integer [Z].
    - [Math.sqrt], [Math.pow], [Math.cos], [Math.sin] and [Math.PI] are the
      platform's; they are the fields of the class [JsMath] and nothing is
      assumed about them unless a statement says so.
    - [Math.random] and [Date.now] read the environment [Env]: a stream of
      draws with a cursor, and a clock.
    - Objects are records, methods are functions from the object (and the
      environment, when they read it) to the new object.  Calls of the
      engine into the audio and particle services have no effect on the
      game and are left out of the engine; the two services are modelled
      on their own. *)

From Stdlib Require Import QArith Qminmax Qabs Qround ZArith Lia Lqa Bool List.
From Stdlib Require Strings.String.
Import ListNotations.
Import String.StringSyntax.
Delimit Scope string_scope with string.

Set Implicit Arguments.
Open Scope Q_scope.

(** ** Numbers *)

Definition Qleb (a b : Q) : bool := Qle_bool a b.
Definition Qltb (a b : Q) : bool := negb (Qle_bool b a).
Definition Qgeb (a b : Q) : bool := Qle_bool b a.
Definition Qgtb (a b : Q) : bool := negb (Qle_bool a b).
Definition Qeqb (a b : Q) : bool := Qeq_bool a b.

(** [Math.sign] on the values the engine gives it. *)
Definition Qsign (a : Q) : Q :=
  if Qgtb a 0 then 1 else if Qltb a 0 then -1 else 0.

(** [Math.max (lo, Math.min (v, hi))], the clamp the paddle code repeats. *)
Definition clamp (lo v hi : Q) : Q := Qmax lo (Qmin v hi).

(** ** The platform: [Math] and the environment *)

Class JsMath : Type := {
  Msqrt : Q -> Q;
  Mpow : Q -> Q -> Q;
  Mcos : Q -> Q;
  Msin : Q -> Q;
  MPI : Q
}.

(** [draws] is the sequence of values [Math.random] will return, [cursor]
    the number of draws already taken, [clock] what [Date.now] returns. *)
Record Env : Type := mkEnv {
  draws : nat -> Q;
  cursor : nat;
  clock : Z
}.

Definition random (e : Env) : Q * Env :=
  (draws e (cursor e), mkEnv (draws e) (S (cursor e)) (clock e)).

(** [Math.random] returns a value in [0, 1). *)
Definition fair (e : Env) : Prop := forall n, 0 <= draws e n /\ draws e n < 1.

(** ** Types shared on the wire (types/index.ts) *)

Record Vector2D : Type := mkVec { x : Q; y : Q }.

Inductive GameStatus : Type :=
| WAITING_FOR_OPPONENT | COUNTDOWN | PLAYING | PAUSED | GAME_OVER.

Inductive PlayerRole : Type := HOST | CLIENT.

Inductive ConnectionStatus : Type :=
| DISCONNECTED | CONNECTING | CONNECTED | CONN_ERROR.

Inductive GameControlAction : Type := START | PAUSE | RESUME | RESTART.

Inductive PowerUpType : Type :=
| SPEED_UP | ENLARGE_PADDLE | SHRINK_OPPONENT | CURVE_BALL | MULTI_BALL
| TURBO_MODE.

Inductive Side : Type := player | opponent.

Definition GameStatus_eqb (a b : GameStatus) : bool :=
  match a, b with
  | WAITING_FOR_OPPONENT, WAITING_FOR_OPPONENT
  | COUNTDOWN, COUNTDOWN | PLAYING, PLAYING | PAUSED, PAUSED
  | GAME_OVER, GAME_OVER => true
  | _, _ => false
  end.

Definition PlayerRole_eqb (a b : PlayerRole) : bool :=
  match a, b with HOST, HOST | CLIENT, CLIENT => true | _, _ => false end.

Definition PowerUpType_eqb (a b : PowerUpType) : bool :=
  match a, b with
  | SPEED_UP, SPEED_UP | ENLARGE_PADDLE, ENLARGE_PADDLE
  | SHRINK_OPPONENT, SHRINK_OPPONENT | CURVE_BALL, CURVE_BALL
  | MULTI_BALL, MULTI_BALL | TURBO_MODE, TURBO_MODE => true
  | _, _ => false
  end.

Definition Side_eqb (a b : Side) : bool :=
  match a, b with player, player | opponent, opponent => true | _, _ => false end.

(** An optional field of an interface ([f?: T]) is an [option]; [None] is
    the absent field ([undefined]). *)
Record BallState : Type := mkBallState {
  bs_position : Vector2D;
  bs_velocity : Vector2D;
  bs_radius : Q;
  bs_speedScaleFactor : option Q;
  bs_hitCounter : option Z;
  bs_curveIntensity : option Q;
  bs_curveDirection : option Q
}.

Record PaddleState : Type := mkPaddleState {
  ps_position : Vector2D;
  ps_width : Q;
  ps_height : Q;
  ps_isMovingUp : bool;
  ps_isMovingDown : bool;
  ps_isRebounding : option bool;
  ps_reboundTime : option Q
}.

Record GameConfig : Type := mkGameConfig {
  ballSpeed : Q;
  paddleHeight : Q;
  paddleWidth : Q;
  winningScore : Z;
  enablePowerUps : bool;
  powerUpFrequency : Q;
  enableTurboMode : bool;
  enablePaddleShrinking : bool;
  enableCurveBall : bool
}.

Record PowerUp : Type := mkPowerUp {
  pu_type : PowerUpType;
  pu_position : Vector2D;
  pu_radius : Q;
  pu_active : bool;
  pu_duration : Q;
  pu_activatedTime : option Z;
  pu_affectsPlayer : option Side
}.

(** [winner?: "player" | "opponent" | null]: the outer [option] is the
    presence of the field, the inner one is [null]. *)
Record GameState : Type := mkGameState {
  gs_status : GameStatus;
  gs_ball : BallState;
  gs_playerPaddle : PaddleState;
  gs_opponentPaddle : PaddleState;
  gs_playerScore : Z;
  gs_opponentScore : Z;
  gs_timestamp : Z;
  gs_countdown : option Z;
  gs_winner : option (option Side);
  gs_config : GameConfig;
  gs_powerUps : option (list PowerUp);
  gs_activePowerUps : option (list PowerUp);
  gs_additionalBalls : option (list BallState);
  gs_turboModeActive : option bool;
  gs_turboModeTimeRemaining : option Q;
  gs_gameSpeedMultiplier : option Q
}.

(** ** Ball.ts *)

Module Ball.

(** The fields of the class.  [maxSpeedScale] and [hitSpeedIncrement] are
    initialised once and never assigned: they are constants below. *)
Record t : Type := mk {
  position : Vector2D;
  velocity : Vector2D;
  radius : Q;
  baseSpeed : Q;
  speedScaleFactor : Q;
  curveIntensity : Q;
  curveDirection : Q;
  hitCounter : Z;
  maxSpeed : Q
}.

Definition maxSpeedScale : Q := 2.2.
Definition hitSpeedIncrement : Q := 0.08.

Definition set_position (v : Vector2D) (b : t) : t :=
  mk v (velocity b) (radius b) (baseSpeed b) (speedScaleFactor b)
    (curveIntensity b) (curveDirection b) (hitCounter b) (maxSpeed b).
Definition set_velocity (v : Vector2D) (b : t) : t :=
  mk (position b) v (radius b) (baseSpeed b) (speedScaleFactor b)
    (curveIntensity b) (curveDirection b) (hitCounter b) (maxSpeed b).
Definition set_radius (v : Q) (b : t) : t :=
  mk (position b) (velocity b) v (baseSpeed b) (speedScaleFactor b)
    (curveIntensity b) (curveDirection b) (hitCounter b) (maxSpeed b).
Definition set_speedScaleFactor (v : Q) (b : t) : t :=
  mk (position b) (velocity b) (radius b) (baseSpeed b) v (curveIntensity b)
    (curveDirection b) (hitCounter b) (maxSpeed b).
Definition set_curveIntensity (v : Q) (b : t) : t :=
  mk (position b) (velocity b) (radius b) (baseSpeed b) (speedScaleFactor b) v
    (curveDirection b) (hitCounter b) (maxSpeed b).
Definition set_curveDirection (v : Q) (b : t) : t :=
  mk (position b) (velocity b) (radius b) (baseSpeed b) (speedScaleFactor b)
    (curveIntensity b) v (hitCounter b) (maxSpeed b).
Definition set_hitCounter (v : Z) (b : t) : t :=
  mk (position b) (velocity b) (radius b) (baseSpeed b) (speedScaleFactor b)
    (curveIntensity b) (curveDirection b) v (maxSpeed b).
Definition set_maxSpeed (v : Q) (b : t) : t :=
  mk (position b) (velocity b) (radius b) (baseSpeed b) (speedScaleFactor b)
    (curveIntensity b) (curveDirection b) (hitCounter b) v.

(** [constructor] *)
Definition new (position : Vector2D) (radius : Q) (velocity : Vector2D)
    (baseSpeed : Q) : t :=
  mk position velocity radius baseSpeed 1 0 1 0%Z baseSpeed.

Definition update (deltaTime : Q) (b : t) : t :=
  set_position
    (mkVec (x (position b) + x (velocity b) * deltaTime)
           (y (position b) + y (velocity b) * deltaTime)) b.

Inductive ScoringSide : Type := side_left | side_right.

Definition checkScoringBoundary (boundaryLeft boundaryRight : Q) (b : t)
  : option ScoringSide :=
  if Qleb (x (position b) - radius b) boundaryLeft then Some side_left
  else if Qgeb (x (position b) + radius b) boundaryRight then Some side_right
  else None.

Definition checkBoundaryCollision (boundaryTop boundaryBottom : Q) (b : t)
  : t * bool :=
  let nextY := y (position b) + y (velocity b) in
  if Qleb (nextY - radius b) boundaryTop then
    let b1 := set_velocity (mkVec (x (velocity b)) (Qabs (y (velocity b)))) b in
    (set_position (mkVec (x (position b1)) (boundaryTop + radius b1 + 0.1)) b1,
     true)
  else if Qgeb (nextY + radius b) boundaryBottom then
    let b1 :=
      set_velocity (mkVec (x (velocity b)) (- Qabs (y (velocity b)))) b in
    (set_position
       (mkVec (x (position b1)) (boundaryBottom - radius b1 - 0.1)) b1,
     true)
  else (b, false).

Definition setCurve (intensity direction : Q) (b : t) : t :=
  set_curveDirection direction
    (set_curveIntensity (Qmin 1 (Qmax 0 intensity)) b).

Definition getState (b : t) : BallState :=
  mkBallState (position b) (velocity b) (radius b)
    (Some (speedScaleFactor b)) (Some (hitCounter b))
    (Some (curveIntensity b)) (Some (curveDirection b)).

(** Each optional field is assigned only when it is not [undefined]. *)
Definition setState (state : BallState) (b : t) : t :=
  let b := set_position (bs_position state) b in
  let b := set_velocity (bs_velocity state) b in
  let b := set_radius (bs_radius state) b in
  let b := match bs_speedScaleFactor state with
           | Some v => set_speedScaleFactor v b | None => b end in
  let b := match bs_hitCounter state with
           | Some v => set_hitCounter v b | None => b end in
  let b := match bs_curveIntensity state with
           | Some v => set_curveIntensity v b | None => b end in
  match bs_curveDirection state with
  | Some v => set_curveDirection v b | None => b end.

Definition getPosition (b : t) : Vector2D := position b.
Definition getVelocity (b : t) : Vector2D := velocity b.
Definition setVelocity (v : Vector2D) (b : t) : t := set_velocity v b.
Definition getRadius (b : t) : Q := radius b.
Definition getSpeedScaleFactor (b : t) : Q := speedScaleFactor b.
Definition getHitCounter (b : t) : Z := hitCounter b.

Definition setMaxSpeed (speed : Q) (b : t) : t :=
  let b := set_maxSpeed speed b in
  let b :=
    if Qgtb (Qabs (x (velocity b))) (maxSpeed b) then
      set_velocity
        (mkVec (maxSpeed b * Qsign (x (velocity b))) (y (velocity b))) b
    else b in
  if Qgtb (Qabs (y (velocity b))) (maxSpeed b) then
    set_velocity
      (mkVec (x (velocity b)) (maxSpeed b * Qsign (y (velocity b)))) b
  else b.

Section WithMath.
Context {M : JsMath}.

Definition normalizeVelocity (b : t) : t :=
  let effectiveMaxSpeed := baseSpeed b * speedScaleFactor b in
  let currentSpeed :=
    Msqrt (x (velocity b) * x (velocity b) + y (velocity b) * y (velocity b)) in
  if Qgtb currentSpeed 0 then
    let speedFactor := effectiveMaxSpeed / currentSpeed in
    set_velocity
      (mkVec (x (velocity b) * speedFactor) (y (velocity b) * speedFactor)) b
  else b.

Definition resetSpeedScaling (b : t) : t :=
  normalizeVelocity (set_speedScaleFactor 1 (set_hitCounter 0%Z b)).

Definition reset (position velocity : Vector2D) (resetSpeed : bool) (b : t)
  : t :=
  let b := set_velocity velocity (set_position position b) in
  if resetSpeed then resetSpeedScaling b else b.

(** The scale a hit computes from the hit count and the draw of
    [Math.random]. *)
Definition hitScale (hits : Z) (r : Q) : Q :=
  Qmin maxSpeedScale (1 + inject_Z hits * hitSpeedIncrement * (1 + r * 0.2)).

Definition increaseBallSpeed (b : t) (e : Env) : t * Env :=
  let b := set_hitCounter (hitCounter b + 1)%Z b in
  let (r, e) := random e in
  let b := set_speedScaleFactor (hitScale (hitCounter b) r) b in
  (normalizeVelocity b, e).

Definition checkPaddleCollision
    (paddleX paddleY paddleWidth paddleHeight : Q) (isLeftPaddle : bool)
    (b : t) (e : Env) : t * Env * bool :=
  let paddleLeft := if isLeftPaddle then paddleX else paddleX - paddleWidth in
  let paddleRight := if isLeftPaddle then paddleX + paddleWidth else paddleX in
  let paddleTop := paddleY - paddleHeight / 2 in
  let paddleBottom := paddleY + paddleHeight / 2 in
  let closestX := Qmax paddleLeft (Qmin (x (position b)) paddleRight) in
  let closestY := Qmax paddleTop (Qmin (y (position b)) paddleBottom) in
  let distanceX := x (position b) - closestX in
  let distanceY := y (position b) - closestY in
  let distanceSquared := distanceX * distanceX + distanceY * distanceY in
  if Qleb distanceSquared (radius b * radius b) then
    let previousVelocityX := x (velocity b) in
    let b :=
      set_velocity
        (mkVec (if isLeftPaddle then Qabs (x (velocity b))
                else - Qabs (x (velocity b)))
               (y (velocity b))) b in
    let hitPositionRelative := (y (position b) - paddleY) / (paddleHeight / 2) in
    let angleFactor := Mpow hitPositionRelative 3 * 10 in
    let b :=
      set_velocity (mkVec (x (velocity b)) (y (velocity b) + angleFactor)) b in
    let b :=
      if Qgtb (Qabs hitPositionRelative) 0.3 then
        let curveIntensity := Qmin 0.8 (Qabs hitPositionRelative * 0.7) in
        let curveDirection :=
          if Qgtb hitPositionRelative 0 then MPI / 2 else - MPI / 2 in
        setCurve curveIntensity curveDirection b
      else b in
    let currentSpeed :=
      Msqrt (x (velocity b) * x (velocity b)
             + y (velocity b) * y (velocity b)) in
    let maxYRatio := 0.85 in
    let b :=
      if Qgtb (Qabs (y (velocity b) / currentSpeed)) maxYRatio then
        let yDirection := if Qgtb (y (velocity b)) 0 then 1 else -1 in
        let xDirection := if Qgtb (x (velocity b)) 0 then 1 else -1 in
        let newY := currentSpeed * maxYRatio * yDirection in
        let newXMagnitude :=
          Msqrt (currentSpeed * currentSpeed - newY * newY) in
        set_velocity (mkVec (newXMagnitude * xDirection) newY) b
      else b in
    let (b, e) := increaseBallSpeed b e in
    let b :=
      if isLeftPaddle then
        if Qltb previousVelocityX 0 then
          set_position
            (mkVec (paddleRight + radius b + 0.1) (y (position b))) b
        else b
      else
        if Qgtb previousVelocityX 0 then
          set_position
            (mkVec (paddleLeft - radius b - 0.1) (y (position b))) b
        else b in
    (b, e, true)
  else (b, e, false).

(** A rally: [n] paddle hits in a row, no serve in between.  What happens
    to the ball between two hits (flight, wall bounces) leaves
    [hitCounter] and [speedScaleFactor] alone, so the rally is the
    iteration of [increaseBallSpeed]. *)
Fixpoint rally (n : nat) (b : t) (e : Env) : t * Env :=
  match n with
  | O => (b, e)
  | S k => let (b', e') := rally k b e in increaseBallSpeed b' e'
  end.

End WithMath.

End Ball.


(** ** Paddle.ts *)

Module Paddle.

(** The fields the class assigns after construction; those initialised once
    and never assigned are the constants that follow. *)
Record t : Type := mk {
  position : Vector2D;
  width : Q;
  height : Q;
  speed : Q;
  isMovingUp : bool;
  isMovingDown : bool;
  minY : Q;
  maxY : Q;
  isRebounding : bool;
  reboundTime : Q;
  originalHeight : Q;
  targetHeight : Q;
  dashCooldown : Q;
  dashDuration : Q;
  isDashing : bool;
  consecutiveHits : Z;
  isCurrentlyShrunken : bool
}.

Definition set_position (v : Vector2D) (p : t) : t :=
  mk v (width p) (height p) (speed p) (isMovingUp p) (isMovingDown p) (minY p)
    (maxY p) (isRebounding p) (reboundTime p) (originalHeight p)
    (targetHeight p) (dashCooldown p) (dashDuration p) (isDashing p)
    (consecutiveHits p) (isCurrentlyShrunken p).
Definition set_width (v : Q) (p : t) : t :=
  mk (position p) v (height p) (speed p) (isMovingUp p) (isMovingDown p)
    (minY p) (maxY p) (isRebounding p) (reboundTime p) (originalHeight p)
    (targetHeight p) (dashCooldown p) (dashDuration p) (isDashing p)
    (consecutiveHits p) (isCurrentlyShrunken p).
Definition set_height (v : Q) (p : t) : t :=
  mk (position p) (width p) v (speed p) (isMovingUp p) (isMovingDown p)
    (minY p) (maxY p) (isRebounding p) (reboundTime p) (originalHeight p)
    (targetHeight p) (dashCooldown p) (dashDuration p) (isDashing p)
    (consecutiveHits p) (isCurrentlyShrunken p).
Definition set_speed (v : Q) (p : t) : t :=
  mk (position p) (width p) (height p) v (isMovingUp p) (isMovingDown p)
    (minY p) (maxY p) (isRebounding p) (reboundTime p) (originalHeight p)
    (targetHeight p) (dashCooldown p) (dashDuration p) (isDashing p)
    (consecutiveHits p) (isCurrentlyShrunken p).
Definition set_isMovingUp (v : bool) (p : t) : t :=
  mk (position p) (width p) (height p) (speed p) v (isMovingDown p) (minY p)
    (maxY p) (isRebounding p) (reboundTime p) (originalHeight p)
    (targetHeight p) (dashCooldown p) (dashDuration p) (isDashing p)
    (consecutiveHits p) (isCurrentlyShrunken p).
Definition set_isMovingDown (v : bool) (p : t) : t :=
  mk (position p) (width p) (height p) (speed p) (isMovingUp p) v (minY p)
    (maxY p) (isRebounding p) (reboundTime p) (originalHeight p)
    (targetHeight p) (dashCooldown p) (dashDuration p) (isDashing p)
    (consecutiveHits p) (isCurrentlyShrunken p).
Definition set_minY (v : Q) (p : t) : t :=
  mk (position p) (width p) (height p) (speed p) (isMovingUp p)
    (isMovingDown p) v (maxY p) (isRebounding p) (reboundTime p)
    (originalHeight p) (targetHeight p) (dashCooldown p) (dashDuration p)
    (isDashing p) (consecutiveHits p) (isCurrentlyShrunken p).
Definition set_maxY (v : Q) (p : t) : t :=
  mk (position p) (width p) (height p) (speed p) (isMovingUp p)
    (isMovingDown p) (minY p) v (isRebounding p) (reboundTime p)
    (originalHeight p) (targetHeight p) (dashCooldown p) (dashDuration p)
    (isDashing p) (consecutiveHits p) (isCurrentlyShrunken p).
Definition set_isRebounding (v : bool) (p : t) : t :=
  mk (position p) (width p) (height p) (speed p) (isMovingUp p)
    (isMovingDown p) (minY p) (maxY p) v (reboundTime p) (originalHeight p)
    (targetHeight p) (dashCooldown p) (dashDuration p) (isDashing p)
    (consecutiveHits p) (isCurrentlyShrunken p).
Definition set_reboundTime (v : Q) (p : t) : t :=
  mk (position p) (width p) (height p) (speed p) (isMovingUp p)
    (isMovingDown p) (minY p) (maxY p) (isRebounding p) v (originalHeight p)
    (targetHeight p) (dashCooldown p) (dashDuration p) (isDashing p)
    (consecutiveHits p) (isCurrentlyShrunken p).
Definition set_targetHeight (v : Q) (p : t) : t :=
  mk (position p) (width p) (height p) (speed p) (isMovingUp p)
    (isMovingDown p) (minY p) (maxY p) (isRebounding p) (reboundTime p)
    (originalHeight p) v (dashCooldown p) (dashDuration p) (isDashing p)
    (consecutiveHits p) (isCurrentlyShrunken p).
Definition set_dashCooldown (v : Q) (p : t) : t :=
  mk (position p) (width p) (height p) (speed p) (isMovingUp p)
    (isMovingDown p) (minY p) (maxY p) (isRebounding p) (reboundTime p)
    (originalHeight p) (targetHeight p) v (dashDuration p) (isDashing p)
    (consecutiveHits p) (isCurrentlyShrunken p).
Definition set_dashDuration (v : Q) (p : t) : t :=
  mk (position p) (width p) (height p) (speed p) (isMovingUp p)
    (isMovingDown p) (minY p) (maxY p) (isRebounding p) (reboundTime p)
    (originalHeight p) (targetHeight p) (dashCooldown p) v (isDashing p)
    (consecutiveHits p) (isCurrentlyShrunken p).
Definition set_isDashing (v : bool) (p : t) : t :=
  mk (position p) (width p) (height p) (speed p) (isMovingUp p)
    (isMovingDown p) (minY p) (maxY p) (isRebounding p) (reboundTime p)
    (originalHeight p) (targetHeight p) (dashCooldown p) (dashDuration p) v
    (consecutiveHits p) (isCurrentlyShrunken p).
Definition set_consecutiveHits (v : Z) (p : t) : t :=
  mk (position p) (width p) (height p) (speed p) (isMovingUp p)
    (isMovingDown p) (minY p) (maxY p) (isRebounding p) (reboundTime p)
    (originalHeight p) (targetHeight p) (dashCooldown p) (dashDuration p)
    (isDashing p) v (isCurrentlyShrunken p).
Definition set_isCurrentlyShrunken (v : bool) (p : t) : t :=
  mk (position p) (width p) (height p) (speed p) (isMovingUp p)
    (isMovingDown p) (minY p) (maxY p) (isRebounding p) (reboundTime p)
    (originalHeight p) (targetHeight p) (dashCooldown p) (dashDuration p)
    (isDashing p) (consecutiveHits p) v.

Definition reboundDuration : Q := 0.3.
Definition reboundSpeed : Q := 1.5.
Definition boostZoneSize : Q := 0.15.
Definition boostMultiplier : Q := 1.5.
Definition resizeRate : Q := 50.
Definition shrinkFactor : Q := 0.99.
Definition minPaddleHeight : Q := 30.
Definition maxPaddleHeight : Q := 120.
Definition dashSpeed : Q := 2.5.
Definition maxDashDuration : Q := 0.15.
Definition maxDashCooldown : Q := 0.8.

(** [constructor] *)
Definition new (initialPosition : Vector2D) (width height speed minY maxY : Q)
  : t :=
  mk initialPosition width height speed false false minY maxY false 0 height
    height 0 0 false 0%Z false.

(** [this.position.y = Math.max (this.minY + this.height / 2,
    Math.min (newY, this.maxY - this.height / 2))], the assignment every
    branch that moves or resizes the paddle ends with. *)
Definition placeY (newY : Q) (p : t) : t :=
  set_position
    (mkVec (x (position p))
       (clamp (minY p + height p / 2) newY (maxY p - height p / 2))) p.

(** [setPosition]: the abscissa is taken as it is, the ordinate is clamped
    between the boundaries. *)
Definition setPosition (newPosition : Vector2D) (p : t) : t :=
  placeY (y newPosition)
    (set_position (mkVec (x newPosition) (y (position p))) p).

Definition getPosition (p : t) : Vector2D := position p.
Definition getWidth (p : t) : Q := width p.
Definition getHeight (p : t) : Q := height p.
Definition getSpeed (p : t) : Q := speed p.
Definition isInRebound (p : t) : bool := isRebounding p.
Definition isUpPressed (p : t) : bool := isMovingUp p.
Definition isDownPressed (p : t) : bool := isMovingDown p.
Definition isShrunken (p : t) : bool := isCurrentlyShrunken p.

Definition setMovingUp (isMoving : bool) (p : t) : t := set_isMovingUp isMoving p.
Definition setMovingDown (isMoving : bool) (p : t) : t :=
  set_isMovingDown isMoving p.
Definition setWidth (width : Q) (p : t) : t := set_width width p.
Definition setSpeed (speed : Q) (p : t) : t := set_speed speed p.

Definition setBoundaries (minY maxY : Q) (p : t) : t :=
  let p := set_maxY maxY (set_minY minY p) in
  setPosition (position p) p.

Definition setHeight (height : Q) (p : t) : t :=
  let p := set_height height p in
  setPosition (position p) p.

(** The direction the three movement branches derive from the two intent
    flags: [-1] is up, [1] is down. *)
Definition direction (p : t) : Q :=
  if isMovingUp p && negb (isMovingDown p) then -1
  else if isMovingDown p && negb (isMovingUp p) then 1
  else 0.

Definition startRebound (originalDirection : Q) (p : t) : t :=
  let p := set_reboundTime 0 (set_isRebounding true p) in
  if Qltb originalDirection 0 then
    set_isMovingDown true (set_isMovingUp false p)
  else
    set_isMovingDown false (set_isMovingUp true p).

Definition updateMovement (deltaTime : Q) (p : t) : t :=
  let direction := direction p in
  if negb (Qeqb direction 0) then
    let currentSpeed := speed p in
    let topBoostZone := minY p + (maxY p - minY p) * boostZoneSize in
    let currentSpeed :=
      if Qltb (y (position p) - height p / 2) topBoostZone
         && Qltb direction 0
      then currentSpeed * boostMultiplier else currentSpeed in
    let bottomBoostZone := maxY p - (maxY p - minY p) * boostZoneSize in
    let currentSpeed :=
      if Qgtb (y (position p) + height p / 2) bottomBoostZone
         && Qgtb direction 0
      then currentSpeed * boostMultiplier else currentSpeed in
    let newY := y (position p) + direction * currentSpeed * deltaTime in
    let paddleTop := newY - height p / 2 in
    let paddleBottom := newY + height p / 2 in
    if Qleb paddleTop (minY p) && Qltb direction 0 then
      startRebound direction p
    else if Qgeb paddleBottom (maxY p) && Qgtb direction 0 then
      startRebound direction p
    else placeY newY p
  else p.

Definition updateDash (deltaTime : Q) (p : t) : t :=
  let p := set_dashDuration (dashDuration p - deltaTime) p in
  let direction := direction p in
  let p :=
    if negb (Qeqb direction 0) then
      let dashSpeedValue := speed p * dashSpeed in
      let newY := y (position p) + direction * dashSpeedValue * deltaTime in
      placeY newY p
    else p in
  if Qleb (dashDuration p) 0 then
    set_dashCooldown maxDashCooldown (set_isDashing false p)
  else p.

Definition attemptDash (p : t) : t * bool :=
  if negb (isDashing p) && negb (isRebounding p) && Qleb (dashCooldown p) 0
  then (set_dashDuration maxDashDuration (set_isDashing true p), true)
  else (p, false).

Definition updateRebound (deltaTime : Q) (p : t) : t :=
  let p := set_reboundTime (reboundTime p + deltaTime) p in
  let direction := direction p in
  let p :=
    if negb (Qeqb direction 0) then
      let reboundSpeedValue := speed p * reboundSpeed in
      let newY := y (position p) + direction * reboundSpeedValue * deltaTime in
      placeY newY p
    else p in
  if Qgeb (reboundTime p) reboundDuration then set_isRebounding false p
  else p.

Definition updatePaddleSize (deltaTime : Q) (p : t) : t :=
  if negb (Qeqb (height p) (targetHeight p)) then
    let change := resizeRate * deltaTime in
    let p :=
      if Qltb (height p) (targetHeight p) then
        set_height (Qmin (targetHeight p) (height p + change)) p
      else
        set_height (Qmax (targetHeight p) (height p - change)) p in
    placeY (y (position p)) p
  else p.

Definition applyResizeEffect (sizeFactor : Q) (instant : bool) (p : t) : t :=
  let newHeight :=
    Qmin maxPaddleHeight (Qmax minPaddleHeight (originalHeight p * sizeFactor))
  in
  let p :=
    if instant then set_targetHeight newHeight (set_height newHeight p)
    else set_targetHeight newHeight p in
  set_isCurrentlyShrunken (Qltb sizeFactor 1) p.

Definition resetSize (instant : bool) (p : t) : t :=
  let p :=
    if instant then
      set_targetHeight (originalHeight p) (set_height (originalHeight p) p)
    else set_targetHeight (originalHeight p) p in
  set_isCurrentlyShrunken false p.

Definition getState (p : t) : PaddleState :=
  mkPaddleState (position p) (width p) (height p) (isMovingUp p)
    (isMovingDown p) (Some (isRebounding p)) (Some (reboundTime p)).

Definition setState (state : PaddleState) (p : t) : t :=
  let p := set_position (ps_position state) p in
  let p := set_width (ps_width state) p in
  let p := set_height (ps_height state) p in
  let p := set_targetHeight (ps_height state) p in
  let p := set_isMovingUp (ps_isMovingUp state) p in
  let p := set_isMovingDown (ps_isMovingDown state) p in
  let p := match ps_isRebounding state with
           | Some v => set_isRebounding v p | None => p end in
  let p := match ps_reboundTime state with
           | Some v => set_reboundTime v p | None => p end in
  setPosition (position p) p.

Definition recordHit (p : t) : t :=
  let p := set_consecutiveHits (consecutiveHits p + 1)%Z p in
  if (3 <=? consecutiveHits p)%Z then
    let growFactor :=
      Qmin 1.3 (1 + (inject_Z (consecutiveHits p) - 2) * 0.05) in
    applyResizeEffect growFactor false p
  else p.

Definition resetHitCombo (p : t) : t :=
  set_targetHeight (originalHeight p) (set_consecutiveHits 0%Z p).

Section WithMath.
Context {M : JsMath}.

Definition update (deltaTime : Q) (p : t) : t :=
  let p :=
    if isRebounding p then updateRebound deltaTime p
    else if isDashing p then updateDash deltaTime p
    else updateMovement deltaTime p in
  let p :=
    if Qgtb (dashCooldown p) 0 then
      set_dashCooldown (Qmax 0 (dashCooldown p - deltaTime)) p
    else p in
  let p := updatePaddleSize deltaTime p in
  if Qgtb (height p) minPaddleHeight then
    let p := set_targetHeight (targetHeight p * Mpow shrinkFactor deltaTime) p in
    set_targetHeight (Qmax minPaddleHeight (targetHeight p)) p
  else p.

End WithMath.

End Paddle.

(** ** Loops that remove while they iterate

    [for (let i = a.length - 1; i >= 0; i--) { if (drop a[i]) a.splice(i, 1) }]
    The index runs downwards over the array as it is at that moment. *)

Definition splice1 {A : Type} (i : nat) (l : list A) : list A :=
  firstn i l ++ skipn (S i) l.

Fixpoint spliceLoop {A : Type} (drop : A -> bool) (i : nat) (l : list A)
  : list A :=
  match i with
  | O => l
  | S j =>
      match nth_error l j with
      | Some a => spliceLoop drop j (if drop a then splice1 j l else l)
      | None => spliceLoop drop j l
      end
  end.

Definition spliceBackwards {A : Type} (drop : A -> bool) (l : list A)
  : list A :=
  spliceLoop drop (length l) l.

(** ** PowerUpManager.ts *)

Module PowerUpManager.

Record t : Type := mk {
  powerUps : list PowerUp;
  activePowerUps : list PowerUp;
  fieldWidth : Q;
  fieldHeight : Q;
  spawnTimer : Q;
  spawnInterval : Q
}.

Definition maxPowerUps : nat := 1.
Definition powerUpRadius : Q := 15.

Definition set_powerUps (v : list PowerUp) (m : t) : t :=
  mk v (activePowerUps m) (fieldWidth m) (fieldHeight m) (spawnTimer m)
    (spawnInterval m).
Definition set_activePowerUps (v : list PowerUp) (m : t) : t :=
  mk (powerUps m) v (fieldWidth m) (fieldHeight m) (spawnTimer m)
    (spawnInterval m).
Definition set_fieldWidth (v : Q) (m : t) : t :=
  mk (powerUps m) (activePowerUps m) v (fieldHeight m) (spawnTimer m)
    (spawnInterval m).
Definition set_fieldHeight (v : Q) (m : t) : t :=
  mk (powerUps m) (activePowerUps m) (fieldWidth m) v (spawnTimer m)
    (spawnInterval m).
Definition set_spawnTimer (v : Q) (m : t) : t :=
  mk (powerUps m) (activePowerUps m) (fieldWidth m) (fieldHeight m) v
    (spawnInterval m).
Definition set_spawnInterval (v : Q) (m : t) : t :=
  mk (powerUps m) (activePowerUps m) (fieldWidth m) (fieldHeight m)
    (spawnTimer m) v.

(** [constructor] *)
Definition new (fieldWidth fieldHeight spawnInterval : Q) : t :=
  mk [] [] fieldWidth fieldHeight (spawnInterval * 0.5) spawnInterval.

(** [Object.values (PowerUpType)], in the order of the declaration. *)
Definition powerUpTypes : list PowerUpType :=
  [SPEED_UP; ENLARGE_PADDLE; SHRINK_OPPONENT; CURVE_BALL; MULTI_BALL;
   TURBO_MODE].

(** Four draws, in the order the source takes them: the type, the
    abscissa, the ordinate, the side.  For a draw in [0, 1) the index
    [Math.floor (r * 6)] is inside the table, the default of [nth] is not
    reached. *)
Definition spawnPowerUp (m : t) (e : Env) : t * Env :=
  let (r, e) := random e in
  let randomType :=
    nth (Z.to_nat (Qfloor (r * inject_Z (Z.of_nat (length powerUpTypes)))))
      powerUpTypes SPEED_UP in
  let padding := powerUpRadius * 2 in
  let (rx, e) := random e in
  let px := padding + rx * (fieldWidth m - padding * 2) in
  let (ry, e) := random e in
  let py := padding + ry * (fieldHeight m - padding * 2) in
  let (rs, e) := random e in
  let powerUp :=
    mkPowerUp randomType (mkVec px py) 10 true 10 None
      (Some (if Qltb rs 0.5 then player else opponent)) in
  (set_powerUps (powerUps m ++ [powerUp]) m, e).

(** Whether an active power-up has run out at the time [now]. *)
Definition expired (now : Z) (powerUp : PowerUp) : bool :=
  match pu_activatedTime powerUp with
  | Some activatedTime =>
      let elapsedTime := inject_Z (now - activatedTime) / 1000 in
      Qgeb elapsedTime (pu_duration powerUp)
  | None => false
  end.

Definition update (deltaTime : Q) (m : t) (e : Env) : t * Env :=
  let m := set_spawnTimer (spawnTimer m - deltaTime) m in
  let (m, e) :=
    if Qleb (spawnTimer m) 0 && (length (powerUps m) <? maxPowerUps)%nat then
      let (m, e) := spawnPowerUp m e in
      (set_spawnTimer (spawnInterval m) m, e)
    else (m, e) in
  (set_activePowerUps
     (spliceBackwards (expired (clock e)) (activePowerUps m)) m, e).

Definition getActivePowerUps (m : t) : list PowerUp := activePowerUps m.
Definition getFieldPowerUps (m : t) : list PowerUp := powerUps m.

Definition isPowerUpActive (type : PowerUpType) (who : Side) (m : t) : bool :=
  existsb
    (fun p =>
       PowerUpType_eqb (pu_type p) type
       && match pu_affectsPlayer p with
          | Some s => Side_eqb s who
          | None => false
          end)
    (activePowerUps m).

Definition reset (m : t) : t :=
  set_spawnTimer (spawnInterval m) (set_activePowerUps [] (set_powerUps [] m)).

Definition clearFieldPowerUps (m : t) : t := set_powerUps [] m.

Definition setFieldSize (width height : Q) (m : t) : t :=
  set_fieldHeight height (set_fieldWidth width m).

Definition setFrequency (frequency : Q) (m : t) : t :=
  let m := set_spawnInterval frequency m in
  set_spawnTimer (Qmin (spawnTimer m) frequency) m.

Section WithMath.
Context {M : JsMath}.

(** The search of [checkPowerUpCollection]: [seen] are the power-ups the
    loop has passed, in order; the first one the ball touches is taken off
    the field, stamped and returned. *)
Fixpoint collect (ballPosition : Vector2D) (ballRadius : Q) (isPlayer : bool)
    (now : Z) (seen rest : list PowerUp)
  : option (PowerUp * list PowerUp) :=
  match rest with
  | [] => None
  | powerUp :: rest' =>
      let dx := x ballPosition - x (pu_position powerUp) in
      let dy := y ballPosition - y (pu_position powerUp) in
      let distance := Msqrt (dx * dx + dy * dy) in
      if Qltb distance (ballRadius + pu_radius powerUp) then
        let powerUp :=
          mkPowerUp (pu_type powerUp) (pu_position powerUp)
            (pu_radius powerUp) (pu_active powerUp) (pu_duration powerUp)
            (Some now) (Some (if isPlayer then player else opponent)) in
        Some (powerUp, seen ++ rest')
      else collect ballPosition ballRadius isPlayer now (seen ++ [powerUp]) rest'
  end.

Definition checkPowerUpCollection (ballPosition : Vector2D) (ballRadius : Q)
    (isPlayer : bool) (m : t) (e : Env) : t * option PowerUp :=
  match collect ballPosition ballRadius isPlayer (clock e) [] (powerUps m) with
  | Some (powerUp, field) =>
      (set_activePowerUps (activePowerUps m ++ [powerUp])
         (set_powerUps field m),
       Some powerUp)
  | None => (m, None)
  end.

End WithMath.

End PowerUpManager.

(** ** Game.ts *)

Module Game.

(** The callback a pending [window.setTimeout] will run: the one armed by
    [startCountdown] and [decrementCountdown], or the one armed by
    [setupCountdownFailsafe]. *)
Inductive Timer : Type := DecrementTimer | FailsafeTimer.

(** The fields of the class.  [countdownTimeout] is the pending timer the
    handle stands for: [None] when the handle is [null] and also when the
    timer it names has been cleared or has fired, since the source only
    ever clears such a handle again or overwrites it.  [env] is the
    environment the engine reads ([Math.random], [Date.now]). *)
Record t : Type := mk {
  ball : Ball.t;
  playerPaddle : Paddle.t;
  opponentPaddle : Paddle.t;
  additionalBalls : list Ball.t;
  powerUpManager : PowerUpManager.t;
  turboModeActive : bool;
  turboModeTimeRemaining : Q;
  gameSpeedMultiplier : Q;
  status : GameStatus;
  playerScore : Z;
  opponentScore : Z;
  countdown : Z;
  countdownTimer : Q;
  winner : option Side;
  config : GameConfig;
  role : PlayerRole;
  fieldWidth : Q;
  fieldHeight : Q;
  lastUpdateTime : Q;
  accumulator : Q;
  countdownTimeout : option Timer;
  env : Env
}.

Definition set_ball (v : Ball.t) (g : t) : t :=
  mk v (playerPaddle g) (opponentPaddle g) (additionalBalls g)
    (powerUpManager g) (turboModeActive g) (turboModeTimeRemaining g)
    (gameSpeedMultiplier g) (status g) (playerScore g) (opponentScore g)
    (countdown g) (countdownTimer g) (winner g) (config g) (role g)
    (fieldWidth g) (fieldHeight g) (lastUpdateTime g) (accumulator g)
    (countdownTimeout g) (env g).
Definition set_playerPaddle (v : Paddle.t) (g : t) : t :=
  mk (ball g) v (opponentPaddle g) (additionalBalls g) (powerUpManager g)
    (turboModeActive g) (turboModeTimeRemaining g) (gameSpeedMultiplier g)
    (status g) (playerScore g) (opponentScore g) (countdown g)
    (countdownTimer g) (winner g) (config g) (role g) (fieldWidth g)
    (fieldHeight g) (lastUpdateTime g) (accumulator g) (countdownTimeout g)
    (env g).
Definition set_opponentPaddle (v : Paddle.t) (g : t) : t :=
  mk (ball g) (playerPaddle g) v (additionalBalls g) (powerUpManager g)
    (turboModeActive g) (turboModeTimeRemaining g) (gameSpeedMultiplier g)
    (status g) (playerScore g) (opponentScore g) (countdown g)
    (countdownTimer g) (winner g) (config g) (role g) (fieldWidth g)
    (fieldHeight g) (lastUpdateTime g) (accumulator g) (countdownTimeout g)
    (env g).
Definition set_additionalBalls (v : list Ball.t) (g : t) : t :=
  mk (ball g) (playerPaddle g) (opponentPaddle g) v (powerUpManager g)
    (turboModeActive g) (turboModeTimeRemaining g) (gameSpeedMultiplier g)
    (status g) (playerScore g) (opponentScore g) (countdown g)
    (countdownTimer g) (winner g) (config g) (role g) (fieldWidth g)
    (fieldHeight g) (lastUpdateTime g) (accumulator g) (countdownTimeout g)
    (env g).
Definition set_powerUpManager (v : PowerUpManager.t) (g : t) : t :=
  mk (ball g) (playerPaddle g) (opponentPaddle g) (additionalBalls g) v
    (turboModeActive g) (turboModeTimeRemaining g) (gameSpeedMultiplier g)
    (status g) (playerScore g) (opponentScore g) (countdown g)
    (countdownTimer g) (winner g) (config g) (role g) (fieldWidth g)
    (fieldHeight g) (lastUpdateTime g) (accumulator g) (countdownTimeout g)
    (env g).
Definition set_turboModeActive (v : bool) (g : t) : t :=
  mk (ball g) (playerPaddle g) (opponentPaddle g) (additionalBalls g)
    (powerUpManager g) v (turboModeTimeRemaining g) (gameSpeedMultiplier g)
    (status g) (playerScore g) (opponentScore g) (countdown g)
    (countdownTimer g) (winner g) (config g) (role g) (fieldWidth g)
    (fieldHeight g) (lastUpdateTime g) (accumulator g) (countdownTimeout g)
    (env g).
Definition set_turboModeTimeRemaining (v : Q) (g : t) : t :=
  mk (ball g) (playerPaddle g) (opponentPaddle g) (additionalBalls g)
    (powerUpManager g) (turboModeActive g) v (gameSpeedMultiplier g)
    (status g) (playerScore g) (opponentScore g) (countdown g)
    (countdownTimer g) (winner g) (config g) (role g) (fieldWidth g)
    (fieldHeight g) (lastUpdateTime g) (accumulator g) (countdownTimeout g)
    (env g).
Definition set_gameSpeedMultiplier (v : Q) (g : t) : t :=
  mk (ball g) (playerPaddle g) (opponentPaddle g) (additionalBalls g)
    (powerUpManager g) (turboModeActive g) (turboModeTimeRemaining g) v
    (status g) (playerScore g) (opponentScore g) (countdown g)
    (countdownTimer g) (winner g) (config g) (role g) (fieldWidth g)
    (fieldHeight g) (lastUpdateTime g) (accumulator g) (countdownTimeout g)
    (env g).
Definition set_status (v : GameStatus) (g : t) : t :=
  mk (ball g) (playerPaddle g) (opponentPaddle g) (additionalBalls g)
    (powerUpManager g) (turboModeActive g) (turboModeTimeRemaining g)
    (gameSpeedMultiplier g) v (playerScore g) (opponentScore g) (countdown g)
    (countdownTimer g) (winner g) (config g) (role g) (fieldWidth g)
    (fieldHeight g) (lastUpdateTime g) (accumulator g) (countdownTimeout g)
    (env g).
Definition set_playerScore (v : Z) (g : t) : t :=
  mk (ball g) (playerPaddle g) (opponentPaddle g) (additionalBalls g)
    (powerUpManager g) (turboModeActive g) (turboModeTimeRemaining g)
    (gameSpeedMultiplier g) (status g) v (opponentScore g) (countdown g)
    (countdownTimer g) (winner g) (config g) (role g) (fieldWidth g)
    (fieldHeight g) (lastUpdateTime g) (accumulator g) (countdownTimeout g)
    (env g).
Definition set_opponentScore (v : Z) (g : t) : t :=
  mk (ball g) (playerPaddle g) (opponentPaddle g) (additionalBalls g)
    (powerUpManager g) (turboModeActive g) (turboModeTimeRemaining g)
    (gameSpeedMultiplier g) (status g) (playerScore g) v (countdown g)
    (countdownTimer g) (winner g) (config g) (role g) (fieldWidth g)
    (fieldHeight g) (lastUpdateTime g) (accumulator g) (countdownTimeout g)
    (env g).
Definition set_countdown (v : Z) (g : t) : t :=
  mk (ball g) (playerPaddle g) (opponentPaddle g) (additionalBalls g)
    (powerUpManager g) (turboModeActive g) (turboModeTimeRemaining g)
    (gameSpeedMultiplier g) (status g) (playerScore g) (opponentScore g) v
    (countdownTimer g) (winner g) (config g) (role g) (fieldWidth g)
    (fieldHeight g) (lastUpdateTime g) (accumulator g) (countdownTimeout g)
    (env g).
Definition set_countdownTimer (v : Q) (g : t) : t :=
  mk (ball g) (playerPaddle g) (opponentPaddle g) (additionalBalls g)
    (powerUpManager g) (turboModeActive g) (turboModeTimeRemaining g)
    (gameSpeedMultiplier g) (status g) (playerScore g) (opponentScore g)
    (countdown g) v (winner g) (config g) (role g) (fieldWidth g)
    (fieldHeight g) (lastUpdateTime g) (accumulator g) (countdownTimeout g)
    (env g).
Definition set_winner (v : option Side) (g : t) : t :=
  mk (ball g) (playerPaddle g) (opponentPaddle g) (additionalBalls g)
    (powerUpManager g) (turboModeActive g) (turboModeTimeRemaining g)
    (gameSpeedMultiplier g) (status g) (playerScore g) (opponentScore g)
    (countdown g) (countdownTimer g) v (config g) (role g) (fieldWidth g)
    (fieldHeight g) (lastUpdateTime g) (accumulator g) (countdownTimeout g)
    (env g).
Definition set_config (v : GameConfig) (g : t) : t :=
  mk (ball g) (playerPaddle g) (opponentPaddle g) (additionalBalls g)
    (powerUpManager g) (turboModeActive g) (turboModeTimeRemaining g)
    (gameSpeedMultiplier g) (status g) (playerScore g) (opponentScore g)
    (countdown g) (countdownTimer g) (winner g) v (role g) (fieldWidth g)
    (fieldHeight g) (lastUpdateTime g) (accumulator g) (countdownTimeout g)
    (env g).
Definition set_fieldWidth (v : Q) (g : t) : t :=
  mk (ball g) (playerPaddle g) (opponentPaddle g) (additionalBalls g)
    (powerUpManager g) (turboModeActive g) (turboModeTimeRemaining g)
    (gameSpeedMultiplier g) (status g) (playerScore g) (opponentScore g)
    (countdown g) (countdownTimer g) (winner g) (config g) (role g) v
    (fieldHeight g) (lastUpdateTime g) (accumulator g) (countdownTimeout g)
    (env g).
Definition set_fieldHeight (v : Q) (g : t) : t :=
  mk (ball g) (playerPaddle g) (opponentPaddle g) (additionalBalls g)
    (powerUpManager g) (turboModeActive g) (turboModeTimeRemaining g)
    (gameSpeedMultiplier g) (status g) (playerScore g) (opponentScore g)
    (countdown g) (countdownTimer g) (winner g) (config g) (role g)
    (fieldWidth g) v (lastUpdateTime g) (accumulator g) (countdownTimeout g)
    (env g).
Definition set_lastUpdateTime (v : Q) (g : t) : t :=
  mk (ball g) (playerPaddle g) (opponentPaddle g) (additionalBalls g)
    (powerUpManager g) (turboModeActive g) (turboModeTimeRemaining g)
    (gameSpeedMultiplier g) (status g) (playerScore g) (opponentScore g)
    (countdown g) (countdownTimer g) (winner g) (config g) (role g)
    (fieldWidth g) (fieldHeight g) v (accumulator g) (countdownTimeout g)
    (env g).
Definition set_accumulator (v : Q) (g : t) : t :=
  mk (ball g) (playerPaddle g) (opponentPaddle g) (additionalBalls g)
    (powerUpManager g) (turboModeActive g) (turboModeTimeRemaining g)
    (gameSpeedMultiplier g) (status g) (playerScore g) (opponentScore g)
    (countdown g) (countdownTimer g) (winner g) (config g) (role g)
    (fieldWidth g) (fieldHeight g) (lastUpdateTime g) v (countdownTimeout g)
    (env g).
Definition set_countdownTimeout (v : option Timer) (g : t) : t :=
  mk (ball g) (playerPaddle g) (opponentPaddle g) (additionalBalls g)
    (powerUpManager g) (turboModeActive g) (turboModeTimeRemaining g)
    (gameSpeedMultiplier g) (status g) (playerScore g) (opponentScore g)
    (countdown g) (countdownTimer g) (winner g) (config g) (role g)
    (fieldWidth g) (fieldHeight g) (lastUpdateTime g) (accumulator g) v
    (env g).
Definition set_env (v : Env) (g : t) : t :=
  mk (ball g) (playerPaddle g) (opponentPaddle g) (additionalBalls g)
    (powerUpManager g) (turboModeActive g) (turboModeTimeRemaining g)
    (gameSpeedMultiplier g) (status g) (playerScore g) (opponentScore g)
    (countdown g) (countdownTimer g) (winner g) (config g) (role g)
    (fieldWidth g) (fieldHeight g) (lastUpdateTime g) (accumulator g)
    (countdownTimeout g) v.

Definition maxAdditionalBalls : nat := 2.
Definition fixedTimeStep : Q := 1 / 120.
Definition maxSteps : nat := 5.

Definition DEFAULT_CONFIG : GameConfig :=
  mkGameConfig 400 80 12 11%Z true 15 true true true.

Definition isHostRole (g : t) : bool := PlayerRole_eqb (role g) HOST.

(** The two paddles [initializeGameObjects] builds, the player's first. *)
Definition initialPaddles (role : PlayerRole) (config : GameConfig)
    (fieldWidth fieldHeight : Q) : Paddle.t * Paddle.t :=
  let paddleY := fieldHeight / 2 in
  let leftPaddleX := 30 in
  let rightPaddleX := fieldWidth - 30 in
  let left :=
    Paddle.new (mkVec leftPaddleX paddleY) (paddleWidth config)
      (paddleHeight config) 500 0 fieldHeight in
  let right :=
    Paddle.new (mkVec rightPaddleX paddleY) (paddleWidth config)
      (paddleHeight config) 500 0 fieldHeight in
  match role with
  | HOST => (left, right)
  | CLIENT => (right, left)
  end.

Definition initialBall (config : GameConfig) (fieldWidth fieldHeight : Q)
  : Ball.t :=
  Ball.new (mkVec (fieldWidth / 2) (fieldHeight / 2)) 10 (mkVec 0 0)
    (ballSpeed config).

Definition initializeGameObjects (g : t) : t :=
  let g := set_ball (initialBall (config g) (fieldWidth g) (fieldHeight g)) g in
  let (mine, theirs) :=
    initialPaddles (role g) (config g) (fieldWidth g) (fieldHeight g) in
  set_opponentPaddle theirs (set_playerPaddle mine g).

(** [constructor]; [config] is the default configuration with the
    caller's overrides already merged in. *)
Definition new (role : PlayerRole) (config : GameConfig) (e : Env) : t :=
  let fieldWidth := 800 in
  let fieldHeight := 600 in
  let (mine, theirs) := initialPaddles role config fieldWidth fieldHeight in
  mk (initialBall config fieldWidth fieldHeight) mine theirs []
    (PowerUpManager.new fieldWidth fieldHeight (powerUpFrequency config))
    false 0 1 WAITING_FOR_OPPONENT 0%Z 0%Z 3%Z 0 None config role
    fieldWidth fieldHeight 0 0 None e.

Definition getStatus (g : t) : GameStatus := status g.
Definition setStatus (s : GameStatus) (g : t) : t := set_status s g.
Definition getConfig (g : t) : GameConfig := config g.

Definition setPlayerInput (isUpPressed isDownPressed : bool) (g : t) : t :=
  set_playerPaddle
    (Paddle.setMovingDown isDownPressed
       (Paddle.setMovingUp isUpPressed (playerPaddle g))) g.

Definition setOpponentInput (isUpPressed isDownPressed : bool) (g : t) : t :=
  set_opponentPaddle
    (Paddle.setMovingDown isDownPressed
       (Paddle.setMovingUp isUpPressed (opponentPaddle g))) g.

Definition pauseGame (g : t) : t :=
  if GameStatus_eqb (status g) PLAYING then set_status PAUSED g else g.

Definition resumeGame (g : t) : t :=
  if GameStatus_eqb (status g) PAUSED then set_status PLAYING g else g.

Definition endGame (who : Side) (g : t) : t :=
  set_winner (Some who) (set_status GAME_OVER g).

Definition cleanup (g : t) : t :=
  let g := set_countdownTimeout None g in
  let g := set_powerUpManager (PowerUpManager.reset (powerUpManager g)) g in
  set_gameSpeedMultiplier 1 (set_turboModeActive false g).

Definition resizeField (width height : Q) (g : t) : t :=
  let g := set_fieldHeight height (set_fieldWidth width g) in
  let g :=
    set_playerPaddle (Paddle.setBoundaries 0 (fieldHeight g) (playerPaddle g)) g
  in
  let g :=
    set_opponentPaddle
      (Paddle.setBoundaries 0 (fieldHeight g) (opponentPaddle g)) g in
  set_powerUpManager
    (PowerUpManager.setFieldSize width height (powerUpManager g)) g.

Definition getState (g : t) : GameState :=
  mkGameState (status g) (Ball.getState (ball g))
    (Paddle.getState (playerPaddle g)) (Paddle.getState (opponentPaddle g))
    (playerScore g) (opponentScore g) (clock (env g))
    (if GameStatus_eqb (status g) COUNTDOWN then Some (countdown g) else None)
    (Some (winner g)) (config g)
    (Some (PowerUpManager.getFieldPowerUps (powerUpManager g)))
    (Some (PowerUpManager.getActivePowerUps (powerUpManager g)))
    (Some (map Ball.getState (additionalBalls g)))
    (Some (turboModeActive g)) (Some (turboModeTimeRemaining g))
    (Some (gameSpeedMultiplier g)).

Definition updatePaddleShrinking (g : t) : t :=
  let g :=
    if Paddle.isShrunken (playerPaddle g) then
      set_playerPaddle (Paddle.resetSize false (playerPaddle g)) g
    else g in
  if Paddle.isShrunken (opponentPaddle g) then
    set_opponentPaddle (Paddle.resetSize false (opponentPaddle g)) g
  else g.

Definition updateGameSpeed (deltaTime : Q) (g : t) : t :=
  let g :=
    if turboModeActive g then
      let g :=
        set_turboModeTimeRemaining (turboModeTimeRemaining g - deltaTime) g in
      if Qleb (turboModeTimeRemaining g) 0 then
        set_gameSpeedMultiplier 1 (set_turboModeActive false g)
      else g
    else g in
  if enableTurboMode (config g) then
    let playerHasTurbo :=
      PowerUpManager.isPowerUpActive TURBO_MODE player (powerUpManager g) in
    let opponentHasTurbo :=
      PowerUpManager.isPowerUpActive TURBO_MODE opponent (powerUpManager g) in
    if playerHasTurbo || opponentHasTurbo then
      set_gameSpeedMultiplier 1.5
        (set_turboModeTimeRemaining 5 (set_turboModeActive true g))
    else g
  else g.

Definition checkBoundaryCollisions (g : t) : t :=
  let g := set_ball (fst (Ball.checkBoundaryCollision 0 (fieldHeight g) (ball g))) g in
  set_additionalBalls
    (map (fun b => fst (Ball.checkBoundaryCollision 0 (fieldHeight g) b))
       (additionalBalls g)) g.

(** Whether an additional ball is past a scoring boundary. *)
Definition crossed (fieldWidth : Q) (b : Ball.t) : bool :=
  match Ball.checkScoringBoundary 0 fieldWidth b with
  | Some _ => true
  | None => false
  end.

Section WithMath.
Context {M : JsMath}.

Definition resetBall (serveToLeft : bool) (g : t) : t :=
  let centerPosition := mkVec (fieldWidth g / 2) (fieldHeight g / 2) in
  let vx := (if serveToLeft then -1 else 1) * ballSpeed (config g) in
  let (r, e) := random (env g) in
  let g := set_env e g in
  let vy := (r - 0.5) * (ballSpeed (config g) * 0.5) in
  let g := set_ball (Ball.reset centerPosition (mkVec vx vy) true (ball g)) g in
  let g :=
    set_playerPaddle
      (Paddle.setPosition
         (mkVec (x (Paddle.getPosition (playerPaddle g))) (fieldHeight g / 2))
         (playerPaddle g)) g in
  let g :=
    set_opponentPaddle
      (Paddle.setPosition
         (mkVec (x (Paddle.getPosition (opponentPaddle g)))
            (fieldHeight g / 2))
         (opponentPaddle g)) g in
  set_additionalBalls [] g.

Definition startGame (g : t) : t :=
  let g := set_countdownTimeout None g in
  if GameStatus_eqb (status g) PLAYING then g
  else
    let g := set_status PLAYING g in
    let (r, e) := random (env g) in
    let g := set_env e g in
    let serveToLeft := Qgeb r 0.5 in
    resetBall serveToLeft g.

(** [setupCountdownFailsafe] clears the pending timer, then either starts
    the game or arms the failsafe timer. *)
Definition setupCountdownFailsafe (g : t) : t :=
  let g := set_countdownTimeout None g in
  if (countdown g <=? 0)%Z then startGame g
  else set_countdownTimeout (Some FailsafeTimer) g.

Definition startCountdown (g : t) : t :=
  if GameStatus_eqb (status g) PLAYING || GameStatus_eqb (status g) COUNTDOWN
  then g
  else
    let g := set_countdownTimeout None g in
    let (r, e) := random (env g) in
    let g := set_env e g in
    let g := resetBall (Qltb r 0.5) g in
    let g := set_countdown 3%Z g in
    let g := set_status COUNTDOWN g in
    let g := set_countdownTimeout (Some DecrementTimer) g in
    setupCountdownFailsafe g.

Definition decrementCountdown (g : t) : t :=
  let g := set_countdown (countdown g - 1)%Z g in
  let g := set_countdownTimer 0 g in
  if (countdown g <=? 0)%Z then startGame g
  else set_countdownTimeout (Some DecrementTimer) g.

(** The callback of the failsafe timer. *)
Definition failsafeCallback (g : t) : t :=
  let g := set_countdown (countdown g - 1)%Z g in
  let g := set_countdownTimer 0 g in
  setupCountdownFailsafe g.

(** The pending timer, if any, fires: it leaves the set of pending timers
    and its callback runs. *)
Definition fireCountdownTimeout (g : t) : t :=
  match countdownTimeout g with
  | Some DecrementTimer => decrementCountdown (set_countdownTimeout None g)
  | Some FailsafeTimer => failsafeCallback (set_countdownTimeout None g)
  | None => g
  end.

Definition restartGame (g : t) : t :=
  let g := cleanup g in
  let g := set_playerScore 0%Z g in
  let g := set_opponentScore 0%Z g in
  let g := set_winner None g in
  let g := initializeGameObjects g in
  let g := set_powerUpManager (PowerUpManager.reset (powerUpManager g)) g in
  let g := set_turboModeActive false g in
  let g := set_gameSpeedMultiplier 1 g in
  let g := set_additionalBalls [] g in
  startCountdown g.

Definition addExtraBall (g : t) : t :=
  if (maxAdditionalBalls <=? length (additionalBalls g))%nat then g
  else
    let centerPosition := mkVec (fieldWidth g / 2) (fieldHeight g / 2) in
    let (r, e) := random (env g) in
    let g := set_env e g in
    let angle := r * MPI * 2 in
    let speed := ballSpeed (config g) in
    let velocity := mkVec (Mcos angle * speed) (Msin angle * speed) in
    let extraBall := Ball.new centerPosition 10 velocity (ballSpeed (config g)) in
    let st := Ball.getState extraBall in
    let extraBall :=
      Ball.setState
        (mkBallState (bs_position st) (bs_velocity st) (bs_radius st)
           (Some (Ball.getSpeedScaleFactor (ball g))) (bs_hitCounter st)
           (bs_curveIntensity st) (bs_curveDirection st))
        extraBall in
    set_additionalBalls (additionalBalls g ++ [extraBall]) g.

Definition applyPowerUpEffect (powerUp : PowerUp) (g : t) : t :=
  let isPlayerPowerUp :=
    match pu_affectsPlayer powerUp with Some player => true | _ => false end in
  let isOpponentPowerUp :=
    match pu_affectsPlayer powerUp with Some opponent => true | _ => false end
  in
  match pu_type powerUp with
  | SPEED_UP =>
      let currentSpeed := Ball.getSpeedScaleFactor (ball g) in
      let newFactor := Qmin 2.5 (currentSpeed * 1.3) in
      let st := Ball.getState (ball g) in
      set_ball
        (Ball.setState
           (mkBallState (bs_position st) (bs_velocity st) (bs_radius st)
              (Some newFactor) (bs_hitCounter st) (bs_curveIntensity st)
              (bs_curveDirection st))
           (ball g)) g
  | ENLARGE_PADDLE =>
      if isPlayerPowerUp then
        set_playerPaddle (Paddle.applyResizeEffect 1.5 false (playerPaddle g)) g
      else if isOpponentPowerUp then
        set_opponentPaddle
          (Paddle.applyResizeEffect 1.5 false (opponentPaddle g)) g
      else g
  | SHRINK_OPPONENT =>
      if isPlayerPowerUp then
        set_opponentPaddle
          (Paddle.applyResizeEffect 0.7 false (opponentPaddle g)) g
      else if isOpponentPowerUp then
        set_playerPaddle (Paddle.applyResizeEffect 0.7 false (playerPaddle g)) g
      else g
  | CURVE_BALL =>
      let curveIntensity := 0.8 in
      let (r, e) := random (env g) in
      let g := set_env e g in
      let curveDirection := r * MPI * 2 in
      set_ball (Ball.setCurve curveIntensity curveDirection (ball g)) g
  | MULTI_BALL => addExtraBall g
  | TURBO_MODE =>
      set_gameSpeedMultiplier 1.5
        (set_turboModeTimeRemaining 5 (set_turboModeActive true g))
  end.

(** Whether a ball of velocity [v] moves towards the local player's side. *)
Definition towardsPlayer (g : t) (v : Vector2D) : bool :=
  (isHostRole g && Qltb (x v) 0) || (negb (isHostRole g) && Qgtb (x v) 0).

Definition collectWith (b : Ball.t) (g : t) : t :=
  let (pm, collected) :=
    PowerUpManager.checkPowerUpCollection (Ball.getPosition b)
      (Ball.getRadius b) (towardsPlayer g (Ball.getVelocity b))
      (powerUpManager g) (env g) in
  let g := set_powerUpManager pm g in
  match collected with
  | Some powerUp => applyPowerUpEffect powerUp g
  | None => g
  end.

(** [for (const ball of this.additionalBalls)] reads the array as it is at
    each step, and a collected multi-ball power-up appends to it: the loop
    is over the index [i], until it is past the end. *)
Fixpoint collectLoop (fuel i : nat) (g : t) : t :=
  match fuel with
  | O => g
  | S fuel' =>
      match nth_error (additionalBalls g) i with
      | Some b => collectLoop fuel' (S i) (collectWith b g)
      | None => g
      end
  end.

Definition checkPowerUpCollections (g : t) : t :=
  let g := collectWith (ball g) g in
  collectLoop (length (additionalBalls g) + maxAdditionalBalls) 0 g.

(** One additional ball against both paddles; the draw is the pitch of the
    sound that is played for a hit. *)
Definition additionalBallHit
    (playerPos : Vector2D) (playerWidth playerHeight : Q)
    (opponentPos : Vector2D) (opponentWidth opponentHeight : Q)
    (onLeft : bool) (b : Ball.t) (pp op : Paddle.t) (e : Env)
  : Ball.t * Paddle.t * Paddle.t * Env :=
  let '(b, e, addPlayerCollision) :=
    Ball.checkPaddleCollision (x playerPos) (y playerPos) playerWidth
      playerHeight onLeft b e in
  let '(b, e, addOpponentCollision) :=
    Ball.checkPaddleCollision (x opponentPos) (y opponentPos) opponentWidth
      opponentHeight (negb onLeft) b e in
  let (pp, e) :=
    if addPlayerCollision then (Paddle.recordHit pp, snd (random e))
    else (pp, e) in
  let (op, e) :=
    if addOpponentCollision then (Paddle.recordHit op, snd (random e))
    else (op, e) in
  (b, pp, op, e).

Fixpoint additionalBallsHit
    (playerPos : Vector2D) (playerWidth playerHeight : Q)
    (opponentPos : Vector2D) (opponentWidth opponentHeight : Q)
    (onLeft : bool) (bs : list Ball.t) (pp op : Paddle.t) (e : Env)
  : list Ball.t * Paddle.t * Paddle.t * Env :=
  match bs with
  | [] => ([], pp, op, e)
  | b :: rest =>
      let '(b, pp, op, e) :=
        additionalBallHit playerPos playerWidth playerHeight opponentPos
          opponentWidth opponentHeight onLeft b pp op e in
      let '(rest, pp, op, e) :=
        additionalBallsHit playerPos playerWidth playerHeight opponentPos
          opponentWidth opponentHeight onLeft rest pp op e in
      (b :: rest, pp, op, e)
  end.

Definition checkPaddleCollisions (g : t) : t :=
  let playerPos := Paddle.getPosition (playerPaddle g) in
  let playerWidth := Paddle.getWidth (playerPaddle g) in
  let playerHeight := Paddle.getHeight (playerPaddle g) in
  let opponentPos := Paddle.getPosition (opponentPaddle g) in
  let opponentWidth := Paddle.getWidth (opponentPaddle g) in
  let opponentHeight := Paddle.getHeight (opponentPaddle g) in
  let isPlayerPaddleOnLeft := isHostRole g in
  let '(b, e, playerCollision) :=
    Ball.checkPaddleCollision (x playerPos) (y playerPos) playerWidth
      playerHeight isPlayerPaddleOnLeft (ball g) (env g) in
  let isOpponentPaddleOnLeft := negb (isHostRole g) in
  let '(b, e, opponentCollision) :=
    Ball.checkPaddleCollision (x opponentPos) (y opponentPos) opponentWidth
      opponentHeight isOpponentPaddleOnLeft b e in
  let '(bs, pp, op, e) :=
    additionalBallsHit playerPos playerWidth playerHeight opponentPos
      opponentWidth opponentHeight isPlayerPaddleOnLeft (additionalBalls g)
      (playerPaddle g) (opponentPaddle g) e in
  let (pp, e) :=
    if playerCollision then (Paddle.recordHit pp, snd (random e))
    else (pp, e) in
  let (op, e) :=
    if opponentCollision then (Paddle.recordHit op, snd (random e))
    else (op, e) in
  set_env e
    (set_opponentPaddle op
       (set_playerPaddle pp (set_additionalBalls bs (set_ball b g)))).

(** The first part of [checkScoring], about the main ball: the game after
    the point, if any, and the local flag [scored]. *)
Definition scoreMainBall (g : t) : t * bool :=
  let scoringSide := Ball.checkScoringBoundary 0 (fieldWidth g) (ball g) in
  match scoringSide with
  | Some Ball.side_left =>
      let g :=
        if isHostRole g then
          let g := set_opponentScore (opponentScore g + 1)%Z g in
          set_playerPaddle (Paddle.resetHitCombo (playerPaddle g)) g
        else
          let g := set_playerScore (playerScore g + 1)%Z g in
          set_opponentPaddle (Paddle.resetHitCombo (opponentPaddle g)) g in
      (resetBall false g, true)
  | Some Ball.side_right =>
      let g :=
        if isHostRole g then
          let g := set_playerScore (playerScore g + 1)%Z g in
          set_opponentPaddle (Paddle.resetHitCombo (opponentPaddle g)) g
        else
          let g := set_opponentScore (opponentScore g + 1)%Z g in
          set_playerPaddle (Paddle.resetHitCombo (playerPaddle g)) g in
      (resetBall true g, true)
  | None => (g, false)
  end.

(** The rest of [checkScoring]: the loop over the additional balls, the
    win test, and the clearing of the field power-ups after a point. *)
Definition settleScoring (scored : bool) (g : t) : t :=
  let g :=
    set_additionalBalls
      (spliceBackwards (crossed (fieldWidth g)) (additionalBalls g)) g in
  let g :=
    if (winningScore (config g) <=? playerScore g)%Z then endGame player g
    else if (winningScore (config g) <=? opponentScore g)%Z then
      endGame opponent g
    else g in
  if scored then
    set_powerUpManager (PowerUpManager.clearFieldPowerUps (powerUpManager g)) g
  else g.

Definition checkScoring (g : t) : t :=
  let (g, scored) := scoreMainBall g in
  settleScoring scored g.

(** The countdown branch of [fixedUpdate]. *)
Definition countdownTick (deltaTime : Q) (g : t) : t :=
  let g := set_countdownTimer (countdownTimer g + deltaTime) g in
  if Qgtb (countdownTimer g) 2 then
    let g := set_countdown (countdown g - 1)%Z g in
    let g := set_countdownTimer 0 g in
    if (countdown g <=? 0)%Z then startGame g
    else if (countdown g <? 0)%Z then startGame g else g
  else
    let g :=
      if Qgeb (countdownTimer g) 1 then
        let g := set_countdown (countdown g - 1)%Z g in
        let g := set_countdownTimer 0 g in
        if (countdown g <=? 0)%Z then startGame g else g
      else g in
    if (countdown g <? 0)%Z then startGame g else g.

(** The playing branch of [fixedUpdate]. *)
Definition playingTick (deltaTime : Q) (g : t) : t :=
  let g := updateGameSpeed deltaTime g in
  let adjustedDeltaTime := deltaTime * gameSpeedMultiplier g in
  let g :=
    if enablePowerUps (config g) then
      let (pm, e) :=
        PowerUpManager.update adjustedDeltaTime (powerUpManager g) (env g) in
      set_env e (set_powerUpManager pm g)
    else g in
  let g :=
    set_playerPaddle (Paddle.update adjustedDeltaTime (playerPaddle g)) g in
  let g :=
    set_opponentPaddle (Paddle.update adjustedDeltaTime (opponentPaddle g)) g
  in
  let g := set_ball (Ball.update adjustedDeltaTime (ball g)) g in
  let g :=
    set_additionalBalls
      (map (Ball.update adjustedDeltaTime) (additionalBalls g)) g in
  let g := checkPaddleCollisions g in
  let g := checkBoundaryCollisions g in
  let g := if enablePowerUps (config g) then checkPowerUpCollections g else g in
  let g := checkScoring g in
  if enablePaddleShrinking (config g) then updatePaddleShrinking g else g.

Definition fixedUpdate (deltaTime : Q) (g : t) : t :=
  match status g with
  | WAITING_FOR_OPPONENT | GAME_OVER => g
  | COUNTDOWN => countdownTick deltaTime g
  | PAUSED => g
  | PLAYING => playingTick deltaTime g
  end.

(** [while (this.accumulator >= this.fixedTimeStep && steps < maxSteps)],
    with the local counter [steps] returned next to the game.  [fuel]
    bounds the unfolding; [maxSteps] of it is never used up before the
    condition of the loop fails. *)
Fixpoint fixedSteps (fuel steps : nat) (g : t) : t * nat :=
  match fuel with
  | O => (g, steps)
  | S fuel' =>
      if Qgeb (accumulator g) fixedTimeStep && (steps <? maxSteps)%nat then
        let g := fixedUpdate fixedTimeStep g in
        let g := set_accumulator (accumulator g - fixedTimeStep) g in
        fixedSteps fuel' (S steps) g
      else (g, steps)
  end.

(** The statements of [update] before its loop: the elapsed time, capped
    at 100 ms, goes into the accumulator. *)
Definition accumulate (currentTime : Q) (g : t) : t :=
  let deltaTime := (currentTime - lastUpdateTime g) / 1000 in
  let g := set_lastUpdateTime currentTime g in
  let cappedDeltaTime := Qmin deltaTime 0.1 in
  set_accumulator (accumulator g + cappedDeltaTime) g.

(** [update] with the number of fixed steps it ran. *)
Definition updateCounting (currentTime : Q) (g : t) : t * nat :=
  if Qeqb (lastUpdateTime g) 0 then (set_lastUpdateTime currentTime g, O)
  else
    let (g, steps) := fixedSteps maxSteps 0 (accumulate currentTime g) in
    if (maxSteps <=? steps)%nat && Qgeb (accumulator g) fixedTimeStep then
      (set_accumulator 0 g, steps)
    else (g, steps).

Definition update (currentTime : Q) (g : t) : t :=
  fst (updateCounting currentTime g).

(** The additional balls of [setState], for a non-empty list of received
    states: new balls are pushed while there are too few, balls are popped
    while there are too many, then each takes its state. *)
Definition syncAdditionalBalls (states : list BallState) (g : t)
  : list Ball.t :=
  let fresh :=
    Ball.new (mkVec (fieldWidth g / 2) (fieldHeight g / 2)) 10 (mkVec 0 0)
      (ballSpeed (config g)) in
  let padded :=
    additionalBalls g
    ++ repeat fresh (length states - length (additionalBalls g)) in
  let trimmed := firstn (length states) padded in
  map (fun sb => Ball.setState (fst sb) (snd sb)) (combine states trimmed).

(** The block of [setState] for a jump from WAITING_FOR_OPPONENT straight
    to PLAYING with a ball at rest: the ball is served. *)
Definition serveIfJumping (oldStatus : GameStatus) (state : GameState) (g : t)
  : t :=
  if negb (GameStatus_eqb oldStatus (gs_status state))
     && GameStatus_eqb oldStatus WAITING_FOR_OPPONENT
     && GameStatus_eqb (gs_status state) PLAYING
     && Qeqb (x (Ball.getVelocity (ball g))) 0
     && Qeqb (y (Ball.getVelocity (ball g))) 0
  then
    let (r, e) := random (env g) in
    let g := set_env e g in
    resetBall (Qgeb r 0.5) g
  else g.

(** The statements of [setState] after its early return: the snapshot is
    copied into the game, field by field. *)
Definition applySnapshot (state : GameState) (g : t) : t :=
  let g := set_ball (Ball.setState (gs_ball state) (ball g)) g in
  let g :=
    set_playerPaddle
      (Paddle.setState (gs_playerPaddle state) (playerPaddle g)) g in
  let g :=
    set_opponentPaddle
      (Paddle.setState (gs_opponentPaddle state) (opponentPaddle g)) g in
  let g := set_playerScore (gs_playerScore state) g in
  let g := set_opponentScore (gs_opponentScore state) g in
  let g :=
    match gs_countdown state with
    | Some c =>
        if GameStatus_eqb (gs_status state) COUNTDOWN
           && negb (countdown g =? c)%Z
        then set_countdownTimer 0 (set_countdown c g)
        else g
    | None => g
    end in
  let g :=
    set_winner
      (match gs_winner state with Some (Some w) => Some w | _ => None end) g
  in
  let g := set_config (gs_config state) g in
  let g := match gs_turboModeActive state with
           | Some v => set_turboModeActive v g | None => g end in
  let g := match gs_turboModeTimeRemaining state with
           | Some v => set_turboModeTimeRemaining v g | None => g end in
  let g := match gs_gameSpeedMultiplier state with
           | Some v => set_gameSpeedMultiplier v g | None => g end in
  match gs_additionalBalls state with
  | Some (s :: states) =>
      set_additionalBalls (syncAdditionalBalls (s :: states) g) g
  | _ => set_additionalBalls [] g
  end.

Definition setState (state : GameState) (g : t) : t :=
  let oldStatus := status g in
  let g := set_status (gs_status state) g in
  let g := serveIfJumping oldStatus state g in
  if GameStatus_eqb (gs_status state) COUNTDOWN
     && negb (GameStatus_eqb oldStatus COUNTDOWN)
  then startCountdown g
  else applySnapshot state g.

End WithMath.

End Game.

(** ** Messages of the data channel (types/index.ts)

    The timestamp is read with [message.timestamp || Date.now ()] and
    tested for truthiness by the receiver: it is an [option], [None] being
    the absent field, and it counts as present only when it is not [0]. *)

Inductive Message : Type :=
| GameStateMessage (state : GameState) (timestamp : option Z)
| PaddleMoveMessage (isUpPressed isDownPressed : option bool)
    (timestamp : option Z)
| GameControlMessage (action : GameControlAction) (timestamp : option Z)
| PingMessage (timestamp : option Z)
| PongMessage (timestamp : option Z).

(** Truthiness of an optional number. *)
Definition truthy (t : option Z) : bool :=
  match t with
  | Some v => negb (v =? 0)%Z
  | None => false
  end.

(** [t || d] on an optional number. *)
Definition orElse (t : option Z) (d : Z) : Z :=
  match t with
  | Some v => if (v =? 0)%Z then d else v
  | None => d
  end.

(** ** SyncService.ts *)

Module SyncService.

Record SyncConfig : Type := mkSyncConfig {
  syncInterval : Q;
  inputSyncInterval : Q;
  maxPredictionTime : Q;
  reconciliationThreshold : Q;
  pingInterval : Q
}.

Definition DEFAULT_CONFIG : SyncConfig := mkSyncConfig 16 16 200 10 5000.

(** [syncTimer] tells whether the interval of the latency probe is set. *)
Record t : Type := mk {
  config : SyncConfig;
  lastSyncTime : Q;
  lastInputSyncTime : Q;
  stateBuffer : list GameState;
  inputBuffer : list (option bool * option bool);
  networkLatency : Z;
  syncTimer : bool
}.

Definition set_stateBuffer (v : list GameState) (s : t) : t :=
  mk (config s) (lastSyncTime s) (lastInputSyncTime s) v (inputBuffer s)
    (networkLatency s) (syncTimer s).
Definition set_inputBuffer (v : list (option bool * option bool)) (s : t) : t :=
  mk (config s) (lastSyncTime s) (lastInputSyncTime s) (stateBuffer s) v
    (networkLatency s) (syncTimer s).
Definition set_syncTimer (v : bool) (s : t) : t :=
  mk (config s) (lastSyncTime s) (lastInputSyncTime s) (stateBuffer s)
    (inputBuffer s) (networkLatency s) v.

(** [constructor], with the configuration already merged. *)
Definition new (config : SyncConfig) : t := mk config 0 0 [] [] 0%Z false.

(** The exported singleton [syncService]. *)
Definition syncService : t := new DEFAULT_CONFIG.

(** [start]: the second component is the ping [measureLatency] sends, if
    the service was not running yet. *)
Definition start (now : Z) (s : t) : t * list Message :=
  if syncTimer s then (s, [])
  else
    (set_syncTimer true (set_inputBuffer [] (set_stateBuffer [] s)),
     [PingMessage (Some now)]).

Definition stop (s : t) : t :=
  set_inputBuffer [] (set_stateBuffer [] (set_syncTimer false s)).

Definition bufferGameState (state : GameState) (s : t) : t :=
  let s :=
    if (10 <=? length (stateBuffer s))%nat then
      set_stateBuffer (tl (stateBuffer s)) s
    else s in
  set_stateBuffer (stateBuffer s ++ [state]) s.

Definition bufferInput (input : option bool * option bool) (s : t) : t :=
  let s :=
    if (10 <=? length (inputBuffer s))%nat then
      set_inputBuffer (tl (inputBuffer s)) s
    else s in
  set_inputBuffer (inputBuffer s ++ [input]) s.

Definition getLatestState (s : t) : option GameState :=
  match stateBuffer s with
  | [] => None
  | st :: rest => Some (last rest st)
  end.

Definition set_lastSyncTime (v : Q) (s : t) : t :=
  mk (config s) v (lastInputSyncTime s) (stateBuffer s) (inputBuffer s)
    (networkLatency s) (syncTimer s).
Definition set_lastInputSyncTime (v : Q) (s : t) : t :=
  mk (config s) (lastSyncTime s) v (stateBuffer s) (inputBuffer s)
    (networkLatency s) (syncTimer s).

(** The states [syncGameState] sends whatever the time. *)
Definition isImportantState (state : GameState) : bool :=
  GameStatus_eqb (gs_status state) COUNTDOWN
  || GameStatus_eqb (gs_status state) PLAYING
  || GameStatus_eqb (gs_status state) GAME_OVER
  || match gs_countdown state with Some _ => true | None => false end.

(** [syncGameState]: the second component is the message handed to
    [webRTCService.sendGameState], if any; [now] is what [Date.now]
    returns. *)
Definition syncGameState (state : GameState) (timestamp : Q) (now : Z)
    (s : t) : t * option Message :=
  if negb (isImportantState state)
     && Qltb (timestamp - lastSyncTime s) (syncInterval (config s))
  then (s, None)
  else
    (set_lastSyncTime timestamp s, Some (GameStateMessage state (Some now))).

(** [syncInputState]: the second component is the message handed to
    [webRTCService.sendMessage], if any. *)
Definition syncInputState (isMovingUp isMovingDown : bool) (timestamp : Q)
    (now : Z) (s : t) : t * option Message :=
  if Qltb (timestamp - lastInputSyncTime s) (inputSyncInterval (config s))
  then (s, None)
  else
    (set_lastInputSyncTime timestamp s,
     Some (PaddleMoveMessage (Some isMovingUp) (Some isMovingDown) (Some now))).

Section WithMath.
Context {M : JsMath}.

(** The three differences [needsReconciliation] computes. *)
Definition ballDiff (localState remoteState : GameState) : Q :=
  Msqrt
    (Mpow (x (bs_position (gs_ball localState))
           - x (bs_position (gs_ball remoteState))) 2
     + Mpow (y (bs_position (gs_ball localState))
             - y (bs_position (gs_ball remoteState))) 2).

Definition playerPaddleDiff (localState remoteState : GameState) : Q :=
  Qabs (y (ps_position (gs_playerPaddle localState))
        - y (ps_position (gs_playerPaddle remoteState))).

Definition opponentPaddleDiff (localState remoteState : GameState) : Q :=
  Qabs (y (ps_position (gs_opponentPaddle localState))
        - y (ps_position (gs_opponentPaddle remoteState))).

Definition needsReconciliation (s : t) (localState remoteState : GameState)
  : bool :=
  Qgtb (ballDiff localState remoteState) (reconciliationThreshold (config s))
  || Qgtb (playerPaddleDiff localState remoteState)
       (reconciliationThreshold (config s))
  || Qgtb (opponentPaddleDiff localState remoteState)
       (reconciliationThreshold (config s)).

End WithMath.

End SyncService.

(** ** GameManager.ts *)

Module GameManager.

(** [game] and [sync] are the engine and the synchronisation service the
    manager drives; [connection] is what
    [webRTCService.getConnectionStatus] answers; [outbox] are the messages
    handed to [webRTCService.sendMessage], oldest first; [loopRunning]
    is the state of the game loop; [startingTimer] tells whether the
    two-second timer that lowers [isStarting] is pending. *)
Record t : Type := mk {
  game : Game.t;
  sync : SyncService.t;
  isHost : bool;
  isNetworkGame : bool;
  lastProcessedGameControl : option (GameControlAction * Z);
  isStarting : bool;
  startingTimer : bool;
  loopRunning : bool;
  connection : ConnectionStatus;
  outbox : list Message
}.

Definition set_game (v : Game.t) (m : t) : t :=
  mk v (sync m) (isHost m) (isNetworkGame m) (lastProcessedGameControl m)
    (isStarting m) (startingTimer m) (loopRunning m) (connection m) (outbox m).
Definition set_sync (v : SyncService.t) (m : t) : t :=
  mk (game m) v (isHost m) (isNetworkGame m) (lastProcessedGameControl m)
    (isStarting m) (startingTimer m) (loopRunning m) (connection m) (outbox m).
Definition set_lastProcessedGameControl
    (v : option (GameControlAction * Z)) (m : t) : t :=
  mk (game m) (sync m) (isHost m) (isNetworkGame m) v (isStarting m)
    (startingTimer m) (loopRunning m) (connection m) (outbox m).
Definition set_isStarting (v : bool) (m : t) : t :=
  mk (game m) (sync m) (isHost m) (isNetworkGame m)
    (lastProcessedGameControl m) v (startingTimer m) (loopRunning m)
    (connection m) (outbox m).
Definition set_startingTimer (v : bool) (m : t) : t :=
  mk (game m) (sync m) (isHost m) (isNetworkGame m)
    (lastProcessedGameControl m) (isStarting m) v (loopRunning m)
    (connection m) (outbox m).
Definition set_loopRunning (v : bool) (m : t) : t :=
  mk (game m) (sync m) (isHost m) (isNetworkGame m)
    (lastProcessedGameControl m) (isStarting m) (startingTimer m) v
    (connection m) (outbox m).
Definition set_outbox (v : list Message) (m : t) : t :=
  mk (game m) (sync m) (isHost m) (isNetworkGame m)
    (lastProcessedGameControl m) (isStarting m) (startingTimer m)
    (loopRunning m) (connection m) v.

Definition ConnectionStatus_eqb (a b : ConnectionStatus) : bool :=
  match a, b with
  | DISCONNECTED, DISCONNECTED | CONNECTING, CONNECTING
  | CONNECTED, CONNECTED | CONN_ERROR, CONN_ERROR => true
  | _, _ => false
  end.

(** [constructor]: the role and the connection status are the ones
    [webRTCService] reports. *)
Definition new (role : PlayerRole) (connection : ConnectionStatus)
    (config : GameConfig) (e : Env) : t :=
  let isHost := PlayerRole_eqb role HOST in
  mk (Game.new (if isHost then HOST else CLIENT) config e)
    SyncService.syncService isHost
    (negb (ConnectionStatus_eqb connection DISCONNECTED)) None false false
    false connection [].

Definition now (m : t) : Z := clock (Game.env (game m)).

Definition sendMessage (msg : Message) (m : t) : t :=
  set_outbox (outbox m ++ [msg]) m.

Definition sendGameControl (action : GameControlAction) (m : t) : t :=
  sendMessage (GameControlMessage action (Some (now m))) m.

(** [syncService.start ()] *)
Definition syncStart (m : t) : t :=
  let (s, sent) := SyncService.start (now m) (sync m) in
  set_outbox (outbox m ++ sent) (set_sync s m).

Definition getGameState (m : t) : GameState := Game.getState (game m).

Section WithMath.
Context {M : JsMath}.

Definition startGame (m : t) : t :=
  if isNetworkGame m
     && negb (ConnectionStatus_eqb (connection m) CONNECTED)
  then m
  else if isNetworkGame m && negb (isHost m) then sendGameControl START m
  else
    let m := set_game (Game.startCountdown (game m)) m in
    let m := set_loopRunning true m in
    let m := if isNetworkGame m then syncStart m else m in
    if isNetworkGame m && isHost m then sendGameControl START m else m.

Definition pauseGame (m : t) : t :=
  if isNetworkGame m && negb (isHost m) then sendGameControl PAUSE m
  else
    let m := set_game (Game.pauseGame (game m)) m in
    if isNetworkGame m && isHost m then sendGameControl PAUSE m else m.

Definition resumeGame (m : t) : t :=
  if isNetworkGame m && negb (isHost m) then sendGameControl RESUME m
  else
    let m := set_game (Game.resumeGame (game m)) m in
    if isNetworkGame m && isHost m then sendGameControl RESUME m else m.

Definition restartGame (m : t) : t :=
  if isNetworkGame m && negb (isHost m) then sendGameControl RESTART m
  else
    let m := set_game (Game.restartGame (game m)) m in
    if isNetworkGame m && isHost m then sendGameControl RESTART m else m.

(** The handler of [MessageType.GAME_STATE]. *)
Definition onGameState (state : GameState) (m : t) : t :=
  if isHost m then m
  else
    let m := set_sync (SyncService.bufferGameState state (sync m)) m in
    let localState := Game.getState (game m) in
    let m :=
      if GameStatus_eqb (gs_status localState) WAITING_FOR_OPPONENT
         && negb (GameStatus_eqb (gs_status state) WAITING_FOR_OPPONENT)
      then
        let m := set_game (Game.setStatus (gs_status state) (game m)) m in
        let m := set_loopRunning true m in
        syncStart m
      else m in
    if SyncService.needsReconciliation (sync m) localState state then
      set_game (Game.setState state (game m)) m
    else
      let updatedState :=
        mkGameState (gs_status state) (gs_ball state)
          (gs_playerPaddle localState) (gs_opponentPaddle state)
          (gs_playerScore state) (gs_opponentScore state)
          (gs_timestamp localState) (gs_countdown state) (gs_winner state)
          (gs_config localState) (gs_powerUps localState)
          (gs_activePowerUps localState) (gs_additionalBalls localState)
          (gs_turboModeActive localState)
          (gs_turboModeTimeRemaining localState)
          (gs_gameSpeedMultiplier localState) in
      set_game (Game.setState updatedState (game m)) m.

(** The handler of [MessageType.PADDLE_MOVE]. *)
Definition onPaddleMove (isUpPressed isDownPressed : option bool) (m : t) : t :=
  if isHost m then
    let m :=
      set_sync (SyncService.bufferInput (isUpPressed, isDownPressed) (sync m))
        m in
    set_game
      (Game.setOpponentInput
         (match isUpPressed with Some b => b | None => false end)
         (match isDownPressed with Some b => b | None => false end)
         (game m)) m
  else m.

(** Whether the handler of [MessageType.GAME_CONTROL] drops the message:
    both timestamps are truthy and the message is older than the last one
    processed. *)
Definition isStale (timestamp : option Z) (m : t) : bool :=
  match lastProcessedGameControl m with
  | Some (_, lastTimestamp) =>
      truthy (Some lastTimestamp) && truthy timestamp
      && match timestamp with
         | Some v => (v <? lastTimestamp)%Z
         | None => false
         end
  | None => false
  end.

(** The handler of [MessageType.GAME_CONTROL]. *)
Definition onGameControl (action : GameControlAction) (timestamp : option Z)
    (m : t) : t :=
  if isStale timestamp m then m
  else
    let m :=
      set_lastProcessedGameControl (Some (action, orElse timestamp (now m))) m
    in
    match action with
    | START =>
        if negb (isStarting m) then
          let m := set_isStarting true m in
          let m := startGame m in
          set_startingTimer true m
        else m
    | PAUSE => pauseGame m
    | RESUME => resumeGame m
    | RESTART => restartGame m
    end.

(** The two-second timer armed by a processed START fires. *)
Definition fireStartingTimeout (m : t) : t :=
  if startingTimer m then set_isStarting false (set_startingTimer false m)
  else m.

(** Delivery of a message to the handler registered for its type. *)
Definition receive (msg : Message) (m : t) : t :=
  match msg with
  | GameStateMessage state _ => onGameState state m
  | PaddleMoveMessage up down _ => onPaddleMove up down m
  | GameControlMessage action timestamp => onGameControl action timestamp m
  | PingMessage _ | PongMessage _ => m
  end.

(** What the manager does with the answer of [syncService]: the service is
    the new one, the message goes out. *)
Definition syncSend (r : SyncService.t * option Message) (m : t) : t :=
  let (s, sent) := r in
  let m := set_sync s m in
  match sent with
  | Some msg => sendMessage msg m
  | None => m
  end.

(** [syncNetworkState].  [inputState] is the field [setPlayerInput] and the
    keyboard handlers write, given here as [(up, down)]. *)
Definition syncNetworkState (inputState : bool * bool) (timestamp : Q)
    (m : t) : t :=
  if negb (isNetworkGame m) then m
  else if isHost m then
    syncSend
      (SyncService.syncGameState (Game.getState (game m)) timestamp (now m)
         (sync m)) m
  else
    let m :=
      syncSend
        (SyncService.syncInputState (fst inputState) (snd inputState)
           timestamp (now m) (sync m)) m in
    if GameStatus_eqb (Game.status (game m)) WAITING_FOR_OPPONENT
       && ConnectionStatus_eqb (connection m) CONNECTED
    then sendMessage (PingMessage (Some (now m))) m
    else m.

(** [update], the function the game loop calls on every frame. *)
Definition update (inputState : bool * bool) (timestamp : Q) (m : t) : t :=
  let m := set_game (Game.update timestamp (game m)) m in
  syncNetworkState inputState timestamp m.

End WithMath.

End GameManager.

(** ** GameLoop.ts *)

Module GameLoop.

(** [rafId] and [isRunning] are the fields of the class.  The browser's
    part is [pending], the handles of the frames requested that have
    neither run nor been cancelled, oldest first, and [nextId], the handle
    the next [requestAnimationFrame] answers. *)
Record t : Type := mk {
  rafId : option nat;
  isRunning : bool;
  pending : list nat;
  nextId : nat
}.

Definition set_rafId (v : option nat) (l : t) : t :=
  mk v (isRunning l) (pending l) (nextId l).
Definition set_isRunning (v : bool) (l : t) : t :=
  mk (rafId l) v (pending l) (nextId l).
Definition set_pending (v : list nat) (l : t) : t :=
  mk (rafId l) (isRunning l) v (nextId l).

Definition new : t := mk None false [] 1.

Definition requestAnimationFrame (l : t) : t * nat :=
  (mk (rafId l) (isRunning l) (pending l ++ [nextId l]) (S (nextId l)),
   nextId l).

Definition cancelAnimationFrame (id : nat) (l : t) : t :=
  set_pending (filter (fun i => negb (i =? id)%nat) (pending l)) l.

Definition start (l : t) : t :=
  if negb (isRunning l) then
    let l := set_isRunning true l in
    let (l, id) := requestAnimationFrame l in
    set_rafId (Some id) l
  else l.

Definition stop (l : t) : t :=
  match rafId l with
  | Some id =>
      if isRunning l then
        set_isRunning false (set_rafId None (cancelAnimationFrame id l))
      else l
  | None => l
  end.

Definition isActive (l : t) : bool := isRunning l.

(** The two callbacks work on what the loop drives, a [World]; they do
    not call back into the loop. *)
Section WithWorld.
Variable World : Type.
Variable updateFn : Q -> World -> World.
Variable renderFn : World -> World.

Definition gameLoop (timestamp : Q) (lw : t * World) : t * World :=
  let (l, w) := lw in
  let l :=
    if isRunning l then
      let (l, id) := requestAnimationFrame l in
      set_rafId (Some id) l
    else l in
  let w := updateFn timestamp w in
  (l, renderFn w).

(** The browser runs the oldest pending frame, at the time [timestamp]. *)
Definition runFrame (timestamp : Q) (lw : t * World) : t * World :=
  match pending (fst lw) with
  | [] => lw
  | _ :: rest => gameLoop timestamp (set_pending rest (fst lw), snd lw)
  end.

End WithWorld.

End GameLoop.

(** ** ParticleService.ts

    The service draws from [Math.random] too; its environment is the
    stream of the draws it receives.  What is modelled is the making of the
    particles; their ageing frame after frame, which depends on the
    rounding of the subtractions, and the drawing on the canvas are left
    out. *)

Module Particle.

Record t : Type := mk {
  x : Q;
  y : Q;
  vx : Q;
  vy : Q;
  radius : Q;
  color : String.string;
  life : Q;
  maxLife : Q
}.

(** [constructor] *)
Definition new (x y vx vy radius : Q) (color : String.string) (life : Q) : t :=
  mk x y vx vy radius color life life.

End Particle.

Module ParticleService.

Record t : Type := mk {
  particles : list Particle.t;
  isEnabled : bool
}.

Definition set_particles (v : list Particle.t) (s : t) : t :=
  mk v (isEnabled s).

Definition new : t := mk [] true.

Definition setEnabled (enabled : bool) (s : t) : t :=
  mk (particles s) enabled.

Definition isParticlesEnabled (s : t) : bool := isEnabled s.

Definition clear (s : t) : t := set_particles [] s.

Section WithMath.
Context {M : JsMath}.

(** The body of the loop of [createExplosion], [n] times. *)
Fixpoint explode (n : nat) (x y : Q) (color : String.string)
    (minSpeed maxSpeed minLife maxLife : Q) (ps : list Particle.t) (e : Env)
  : list Particle.t * Env :=
  match n with
  | O => (ps, e)
  | S k =>
      let (r, e) := random e in
      let angle := r * MPI * 2 in
      let (r, e) := random e in
      let speed := minSpeed + r * (maxSpeed - minSpeed) in
      let vx := Mcos angle * speed in
      let vy := Msin angle * speed in
      let (r, e) := random e in
      let radius := 1 + r * 3 in
      let (r, e) := random e in
      let life := minLife + r * (maxLife - minLife) in
      explode k x y color minSpeed maxSpeed minLife maxLife
        (ps ++ [Particle.new x y vx vy radius color life]) e
  end.

(** [createExplosion]: the loop [for (i = 0; i < count; i++)] runs once for
    every natural number below [count]. *)
Definition createExplosion (x y count : Q) (color : String.string)
    (minSpeed maxSpeed minLife maxLife : Q) (s : t) (e : Env) : t * Env :=
  if negb (isEnabled s) then (s, e)
  else
    let (ps, e) :=
      explode (Z.to_nat (Qceiling count)) x y color minSpeed maxSpeed minLife
        maxLife (particles s) e in
    (set_particles ps s, e).

Definition createPaddleHitEffect (x y size : Q) (s : t) (e : Env) : t * Env :=
  createExplosion x y (15 * size) "#FFFFFF"%string (100 * size) (300 * size) 0.2 0.5
    s e.

Definition createWallHitEffect (x y : Q) (s : t) (e : Env) : t * Env :=
  createExplosion x y 10 "#CCCCCC"%string 50 150 0.1 0.3 s e.

Definition createScoreEffect (x y : Q) (s : t) (e : Env) : t * Env :=
  createExplosion x y 30 "#FFCC00"%string 100 300 0.5 1.0 s e.

End WithMath.

End ParticleService.

(** ** AudioService.ts

    [gain] is [gainNode.gain.value], [None] as long as there is no gain
    node (the audio context and the gain node are created together);
    [sounds] are the ids of the buffers loaded, the buffers themselves are
    left out; [played] lists the sources started, oldest first: the id, the
    gain of the sound's own node and the playback rate. *)

Module AudioService.

Record t : Type := mk {
  volume : Q;
  muted : bool;
  initialized : bool;
  gain : option Q;
  sounds : list String.string;
  played : list (String.string * Q * Q)
}.

Definition set_volume (v : Q) (s : t) : t :=
  mk v (muted s) (initialized s) (gain s) (sounds s) (played s).
Definition set_muted (v : bool) (s : t) : t :=
  mk (volume s) v (initialized s) (gain s) (sounds s) (played s).
Definition set_initialized (v : bool) (s : t) : t :=
  mk (volume s) (muted s) v (gain s) (sounds s) (played s).
Definition set_gain (v : option Q) (s : t) : t :=
  mk (volume s) (muted s) (initialized s) v (sounds s) (played s).
Definition set_sounds (v : list String.string) (s : t) : t :=
  mk (volume s) (muted s) (initialized s) (gain s) v (played s).
Definition set_played (v : list (String.string * Q * Q)) (s : t) : t :=
  mk (volume s) (muted s) (initialized s) (gain s) (sounds s) v.

Definition new : t := mk 0.5 false false None [] [].

Definition getVolume (s : t) : Q := volume s.

Definition addSound (id : String.string) (s : t) : t :=
  set_sounds (id :: sounds s) s.

Definition hasSound (id : String.string) (s : t) : bool :=
  existsb (String.eqb id) (sounds s).

(** [initialize] is asynchronous.  Its first part runs at once: the test
    of [initialized], then the audio context and the gain node. *)
Definition beginInitialize (s : t) : t :=
  if initialized s then s
  else set_gain (Some (if muted s then 0 else volume s)) s.

(** Its last part runs once the sounds are loaded. *)
Definition finishInitialize (s : t) : t := set_initialized true s.

(** [initialize] when nothing else runs in between and the audio context
    can be created: [loaded] are the ids of the sound files that could be
    fetched and decoded. *)
Definition initialize (loaded : list String.string) (s : t) : t :=
  if initialized s then s
  else
    let s := beginInitialize s in
    let s := fold_left (fun s id => addSound id s) loaded s in
    finishInitialize s.

Definition playSound (id : String.string) (volumeMultiplier pitch : Q)
    (s : t) : t :=
  if negb (initialized s)
     || match gain s with None => true | Some _ => false end
     || muted s
  then s
  else if hasSound id s then
    set_played (played s ++ [(id, volume s * volumeMultiplier, pitch)]) s
  else s.

Definition setVolume (volume : Q) (s : t) : t :=
  let s := set_volume (Qmax 0 (Qmin 1 volume)) s in
  match gain s with
  | Some _ =>
      if negb (muted s) then set_gain (Some (getVolume s)) s else s
  | None => s
  end.

Definition setMuted (muted : bool) (s : t) : t :=
  let s := set_muted muted s in
  match gain s with
  | Some _ => set_gain (Some (if muted then 0 else volume s)) s
  | None => s
  end.

Definition isMuted (s : t) : bool := muted s.

Definition isAudioEnabled (s : t) : bool := initialized s && negb (muted s).

End AudioService.

(** ** A computable [Math]

    Rational approximations of the platform functions, for evaluating the
    engine on concrete inputs: the Babylonian iteration for the square
    root, kept on a grid of [10^-9]; exact integer powers, and a linear
    interpolation for the others; Taylor polynomials for the cosine and
    the sine. *)

Definition onGrid (q : Q) : Q := Qmake (Qfloor (q * 1000000000)) 1000000000.

Fixpoint babylonian (n : nat) (s guess : Q) : Q :=
  match n with
  | O => guess
  | S k => babylonian k s (onGrid ((guess + s / guess) / 2))
  end.

Definition sqrtApprox (s : Q) : Q :=
  if Qleb s 0 then 0 else babylonian 40 s (onGrid ((s + 1) / 2) + 1).

Definition powApprox (b e : Q) : Q :=
  match Qred e with
  | Qmake n 1 => Qpower b n
  | _ => 1 + e * (b - 1)
  end.

(** [term] is the current term of the series, [k] the index of the next
    factor. *)
Fixpoint taylor (n : nat) (a term : Q) (k : Z) : Q :=
  match n with
  | O => 0
  | S m =>
      term
      + taylor m a (onGrid (- term * a * a / inject_Z ((k + 1) * (k + 2))))
          (k + 2)
  end.

Definition cosApprox (a : Q) : Q := taylor 16 a 1 0.
Definition sinApprox (a : Q) : Q := taylor 16 a a 1.

Definition rationalMath : JsMath :=
  Build_JsMath sqrtApprox powApprox cosApprox sinApprox 3.141592653589793.

(** An environment whose draws are all [r], at time [now]. *)
Definition constantEnv (r : Q) (now : Z) : Env := mkEnv (fun _ => r) O now.

(** ** Vocabulary of the properties: the paddle *)

(** The boundaries leave room for the paddle. *)
Definition paddleFits (p : Paddle.t) : Prop :=
  Paddle.height p <= Paddle.maxY p - Paddle.minY p.

(** The paddle lies inside its vertical boundaries. *)
Definition paddleContained (p : Paddle.t) : Prop :=
  Paddle.minY p + Paddle.height p / 2 <= y (Paddle.position p)
  /\ y (Paddle.position p) <= Paddle.maxY p - Paddle.height p / 2.

Definition paddleContainment (p : Paddle.t) : Prop :=
  paddleFits p -> paddleContained p.

(** The public operations of a paddle that change it.  The two resize
    operations carry their parameter [instant]; the engine always leaves
    it at its default [false]. *)
Inductive PaddleOp : Type :=
| OpUpdate (deltaTime : Q)
| OpSetState (state : PaddleState)
| OpSetBoundaries (minY maxY : Q)
| OpSetHeight (height : Q)
| OpSetPosition (position : Vector2D)
| OpSetMovingUp (isMoving : bool)
| OpSetMovingDown (isMoving : bool)
| OpSetWidth (width : Q)
| OpSetSpeed (speed : Q)
| OpAttemptDash
| OpRecordHit
| OpResetHitCombo
| OpApplyResizeEffect (sizeFactor : Q) (instant : bool)
| OpResetSize (instant : bool).

Definition applyPaddleOp {M : JsMath} (op : PaddleOp) (p : Paddle.t)
  : Paddle.t :=
  match op with
  | OpUpdate deltaTime => Paddle.update deltaTime p
  | OpSetState state => Paddle.setState state p
  | OpSetBoundaries minY maxY => Paddle.setBoundaries minY maxY p
  | OpSetHeight height => Paddle.setHeight height p
  | OpSetPosition position => Paddle.setPosition position p
  | OpSetMovingUp isMoving => Paddle.setMovingUp isMoving p
  | OpSetMovingDown isMoving => Paddle.setMovingDown isMoving p
  | OpSetWidth width => Paddle.setWidth width p
  | OpSetSpeed speed => Paddle.setSpeed speed p
  | OpAttemptDash => fst (Paddle.attemptDash p)
  | OpRecordHit => Paddle.recordHit p
  | OpResetHitCombo => Paddle.resetHitCombo p
  | OpApplyResizeEffect sizeFactor instant =>
      Paddle.applyResizeEffect sizeFactor instant p
  | OpResetSize instant => Paddle.resetSize instant p
  end.

(** The two operations that assign the height at once. *)
Definition instantResize (op : PaddleOp) : bool :=
  match op with
  | OpApplyResizeEffect _ instant => instant
  | OpResetSize instant => instant
  | _ => false
  end.

(** ** Vocabulary of the properties: the game *)

(** [g'] has the loop bookkeeping of [g]: what [update] owns and the fixed
    step never writes. *)
Definition sameLoop (g g' : Game.t) : Prop :=
  Game.accumulator g' = Game.accumulator g
  /\ Game.lastUpdateTime g' = Game.lastUpdateTime g.

(** [g'] has the lifecycle of [g]: status, winner, scores, countdown,
    pending timer, configuration, role and field. *)
Definition sameControl (g g' : Game.t) : Prop :=
  Game.status g' = Game.status g
  /\ Game.winner g' = Game.winner g
  /\ Game.playerScore g' = Game.playerScore g
  /\ Game.opponentScore g' = Game.opponentScore g
  /\ Game.countdown g' = Game.countdown g
  /\ Game.countdownTimeout g' = Game.countdownTimeout g
  /\ Game.config g' = Game.config g
  /\ Game.role g' = Game.role g
  /\ Game.fieldWidth g' = Game.fieldWidth g
  /\ Game.fieldHeight g' = Game.fieldHeight g.





Definition fieldCenter (g : Game.t) : Vector2D :=
  mkVec (Game.fieldWidth g / 2) (Game.fieldHeight g / 2).

(** The two constraints between the status and the optional fields of a
    snapshot. *)
Definition countdownOnlyInCountdown (s : GameState) : Prop :=
  gs_countdown s <> None -> gs_status s = COUNTDOWN.

Definition winnerOnlyInGameOver (s : GameState) : Prop :=
  forall w, gs_winner s = Some (Some w) -> gs_status s = GAME_OVER.

(** What keeps the winner constraint: no winner outside GAME_OVER, and a
    pending countdown timer only during the countdown. *)
Definition lifecycleInvariant (g : Game.t) : Prop :=
  (Game.winner g <> None -> Game.status g = GAME_OVER)
  /\ (Game.countdownTimeout g <> None -> Game.status g = COUNTDOWN).

(** The operations that drive a game: the public ones and the firing of
    the pending countdown timer. *)
Inductive GameOp : Type :=
| GStartCountdown
| GUpdate (currentTime : Q)
| GPauseGame
| GResumeGame
| GRestartGame
| GFireTimer
| GSetPlayerInput (isUpPressed isDownPressed : bool)
| GSetOpponentInput (isUpPressed isDownPressed : bool)
| GResizeField (width height : Q)
| GCleanup
| GSetState (state : GameState)
| GSetStatus (status : GameStatus).

Definition applyGameOp {M : JsMath} (op : GameOp) (g : Game.t) : Game.t :=
  match op with
  | GStartCountdown => Game.startCountdown g
  | GUpdate currentTime => Game.update currentTime g
  | GPauseGame => Game.pauseGame g
  | GResumeGame => Game.resumeGame g
  | GRestartGame => Game.restartGame g
  | GFireTimer => Game.fireCountdownTimeout g
  | GSetPlayerInput up down => Game.setPlayerInput up down g
  | GSetOpponentInput up down => Game.setOpponentInput up down g
  | GResizeField width height => Game.resizeField width height g
  | GCleanup => Game.cleanup g
  | GSetState state => Game.setState state g
  | GSetStatus status => Game.setStatus status g
  end.

(** The operations that keep the lifecycle invariant whatever they are
    applied to: all of them but [setState] and [setStatus], which adopt
    the status and the winner they are given, and [startCountdown] once a
    winner is set, which keeps the winner of the finished match. *)
Definition lifecycleOp (op : GameOp) (g : Game.t) : Prop :=
  match op with
  | GSetState _ | GSetStatus _ => False
  | GStartCountdown => Game.winner g = None
  | _ => True
  end.

Fixpoint runGame {M : JsMath} (ops : list GameOp) (g : Game.t) : Game.t :=
  match ops with
  | [] => g
  | op :: rest => runGame rest (applyGameOp op g)
  end.

(** Every operation of the run is a lifecycle operation where it is
    applied. *)
Fixpoint lifecycleRun {M : JsMath} (ops : list GameOp) (g : Game.t) : Prop :=
  match ops with
  | [] => True
  | op :: rest => lifecycleOp op g /\ lifecycleRun rest (applyGameOp op g)
  end.

(** A snapshot whose optional fields are all absent. *)
Definition bareBall (b : BallState) : BallState :=
  mkBallState (bs_position b) (bs_velocity b) (bs_radius b) None None None None.

Definition barePaddle (p : PaddleState) : PaddleState :=
  mkPaddleState (ps_position p) (ps_width p) (ps_height p) (ps_isMovingUp p)
    (ps_isMovingDown p) None None.

Definition bareState (s : GameState) : GameState :=
  mkGameState (gs_status s) (bareBall (gs_ball s))
    (barePaddle (gs_playerPaddle s)) (barePaddle (gs_opponentPaddle s))
    (gs_playerScore s) (gs_opponentScore s) (gs_timestamp s) None None
    (gs_config s) None None None None None None.

(** [setState] returns right after [startCountdown]: the snapshot enters
    the countdown and the game was not in it. *)
Definition entersCountdown (state : GameState) (g : Game.t) : bool :=
  GameStatus_eqb (gs_status state) COUNTDOWN
  && negb (GameStatus_eqb (Game.status g) COUNTDOWN).

(** A step of the countdown: the winner is kept, and either the status and
    the pending timer are kept too, or the game has started and no timer
    is pending. *)
Definition countdownStep (g g' : Game.t) : Prop :=
  Game.winner g' = Game.winner g
  /\ ((Game.status g' = Game.status g
       /\ Game.countdownTimeout g' = Game.countdownTimeout g)
      \/ (Game.status g' = PLAYING /\ Game.countdownTimeout g' = None)).

(** A step of play: the pending timer is kept, and either the status and
    the winner are kept too, or the game is over with a winner. *)
Definition playStep (g g' : Game.t) : Prop :=
  Game.countdownTimeout g' = Game.countdownTimeout g
  /\ ((Game.status g' = Game.status g /\ Game.winner g' = Game.winner g)
      \/ (Game.status g' = GAME_OVER /\ Game.winner g' <> None)).

(** ** Vocabulary of the properties: invariants of play *)

(** The square root the engine is given never answers a negative number. *)
Definition sqrtNonneg {M : JsMath} : Prop := forall s, 0 <= Msqrt s.

(** Both paddles of the game satisfy [P]. *)
Definition bothPaddles (P : Paddle.t -> Prop) (g : Game.t) : Prop :=
  P (Game.playerPaddle g) /\ P (Game.opponentPaddle g).

(** The paddle, the size it is growing or shrinking to and the size it
    returns to are all at least [minPaddleHeight]. *)
Definition paddleTall (p : Paddle.t) : Prop :=
  Paddle.minPaddleHeight <= Paddle.height p
  /\ Paddle.minPaddleHeight <= Paddle.targetHeight p
  /\ Paddle.minPaddleHeight <= Paddle.originalHeight p.

(** The speed multiplier of the game satisfies [S]. *)
Definition speedIn (S : Q -> Prop) (g : Game.t) : Prop :=
  S (Game.gameSpeedMultiplier g).

Definition nonneg (q : Q) : Prop := 0 <= q.

(** What play needs of the paddles' heights. *)
Definition tallInPlay (g : Game.t) : Prop :=
  speedIn nonneg g /\ bothPaddles paddleTall g.

(** The number of additional balls satisfies [B]. *)
Definition ballCount (B : nat -> Prop) (g : Game.t) : Prop :=
  B (length (Game.additionalBalls g)).

(** The last two statements of the playing branch of [fixedUpdate]. *)
Definition afterScoring (h : Game.t) : Game.t :=
  if enablePaddleShrinking (Game.config h) then Game.updatePaddleShrinking h
  else h.

(** [x] is what the playing branch makes of a game [g1] that has the
    lifecycle of [g]: the scoring test, then the paddle sizes. *)
Definition scoresLast {M : JsMath} (g x : Game.t) : Prop :=
  exists g1, sameControl g g1 /\ x = afterScoring (Game.checkScoring g1).

(** Scores that only go up, by [n] points in all at most. *)
Definition pointsWithin (n : nat) (g g' : Game.t) : Prop :=
  (Game.playerScore g <= Game.playerScore g')%Z
  /\ (Game.opponentScore g <= Game.opponentScore g')%Z
  /\ (Game.playerScore g' + Game.opponentScore g'
      <= Game.playerScore g + Game.opponentScore g + Z.of_nat n)%Z.

(** No point, or one point to one of the two players. *)
Definition onePoint (g g' : Game.t) : Prop :=
  (Game.playerScore g' = Game.playerScore g
   /\ Game.opponentScore g' = Game.opponentScore g)
  \/ (Game.playerScore g' = (Game.playerScore g + 1)%Z
      /\ Game.opponentScore g' = Game.opponentScore g)
  \/ (Game.playerScore g' = Game.playerScore g
      /\ Game.opponentScore g' = (Game.opponentScore g + 1)%Z).

(** The statuses in which the fixed step does nothing. *)
Definition frozen (s : GameStatus) : bool :=
  match s with
  | WAITING_FOR_OPPONENT | PAUSED | GAME_OVER => true
  | COUNTDOWN | PLAYING => false
  end.

(** [g] with the loop bookkeeping of [g0]. *)
Definition withLoopOf (g0 g : Game.t) : Game.t :=
  Game.set_accumulator (Game.accumulator g0)
    (Game.set_lastUpdateTime (Game.lastUpdateTime g0) g).

(** The pending countdown timer fires [n] times in a row. *)
Fixpoint fireTimers {M : JsMath} (n : nat) (g : Game.t) : Game.t :=
  match n with
  | O => g
  | S k => fireTimers k (Game.fireCountdownTimeout g)
  end.

(** ** Vocabulary of the properties: power-ups *)

(** The test of [checkPowerUpCollection]: the ball touches the power-up. *)
Definition touches {M : JsMath} (ballPosition : Vector2D) (ballRadius : Q)
    (powerUp : PowerUp) : bool :=
  let dx := x ballPosition - x (pu_position powerUp) in
  let dy := y ballPosition - y (pu_position powerUp) in
  Qltb (Msqrt (dx * dx + dy * dy)) (ballRadius + pu_radius powerUp).

(** A power-up as it is once collected at the time [now]. *)
Definition stamped (isPlayer : bool) (now : Z) (powerUp : PowerUp) : PowerUp :=
  mkPowerUp (pu_type powerUp) (pu_position powerUp) (pu_radius powerUp)
    (pu_active powerUp) (pu_duration powerUp) (Some now)
    (Some (if isPlayer then player else opponent)).

(** The power-up lies inside a field of the given size, its disc
    included. *)
Definition insideField (width height : Q) (powerUp : PowerUp) : Prop :=
  0 <= x (pu_position powerUp) - pu_radius powerUp
  /\ x (pu_position powerUp) + pu_radius powerUp <= width
  /\ 0 <= y (pu_position powerUp) - pu_radius powerUp
  /\ y (pu_position powerUp) + pu_radius powerUp <= height.

(** ** Vocabulary of the properties: the services *)

(** The snapshots pushed into the buffer one after the other. *)
Definition bufferGameStates (states : list GameState) (s : SyncService.t)
  : SyncService.t :=
  fold_left (fun s state => SyncService.bufferGameState state s) states s.

(** The frame times of the calls of [syncInputState] that sent a message,
    for the calls [(isMovingUp, isMovingDown, timestamp)] made in this
    order. *)
Fixpoint inputSyncTimes (calls : list (bool * bool * Q)) (now : Z)
    (s : SyncService.t) : list Q :=
  match calls with
  | [] => []
  | (isMovingUp, isMovingDown, timestamp) :: rest =>
      match SyncService.syncInputState isMovingUp isMovingDown timestamp now s
      with
      | (s, Some _) => timestamp :: inputSyncTimes rest now s
      | (s, None) => inputSyncTimes rest now s
      end
  end.

(** Every time of the list is at least [d] after the one before it, the
    first one after [t0]. *)
Fixpoint spaced (d t0 : Q) (ts : list Q) : Prop :=
  match ts with
  | [] => True
  | t :: rest => d <= t - t0 /\ spaced d t rest
  end.

(** The messages delivered to the manager one after the other. *)
Definition receiveAll {M : JsMath} (msgs : list Message) (m : GameManager.t)
  : GameManager.t :=
  fold_left (fun m msg => GameManager.receive msg m) msgs m.

Definition isGameControl (msg : Message) : bool :=
  match msg with
  | GameControlMessage _ _ => true
  | _ => false
  end.

(** The control messages [(action, timestamp)] delivered one after the
    other. *)
Definition receiveControls {M : JsMath}
    (controls : list (GameControlAction * Z)) (m : GameManager.t)
  : GameManager.t :=
  fold_left
    (fun m c => GameManager.onGameControl (fst c) (Some (snd c)) m)
    controls m.

(** The timestamp of the last control message processed, [t0] if there is
    none. *)
Definition lastControlTime (t0 : Z) (m : GameManager.t) : Z :=
  match GameManager.lastProcessedGameControl m with
  | Some (_, t) => t
  | None => t0
  end.

(** The button of the user interface for a control action. *)
Definition press {M : JsMath} (action : GameControlAction)
    (m : GameManager.t) : GameManager.t :=
  match action with
  | START => GameManager.startGame m
  | PAUSE => GameManager.pauseGame m
  | RESUME => GameManager.resumeGame m
  | RESTART => GameManager.restartGame m
  end.

(** What changing the game, the loop, the service or the outbox leaves
    alone. *)
Definition sameSession (m m' : GameManager.t) : Prop :=
  GameManager.isHost m' = GameManager.isHost m
  /\ GameManager.isNetworkGame m' = GameManager.isNetworkGame m
  /\ GameManager.lastProcessedGameControl m'
     = GameManager.lastProcessedGameControl m
  /\ GameManager.isStarting m' = GameManager.isStarting m
  /\ GameManager.startingTimer m' = GameManager.startingTimer m
  /\ GameManager.connection m' = GameManager.connection m.

Definition isSnapshotOrMove (msg : Message) : bool :=
  match msg with
  | GameStateMessage _ _ | PaddleMoveMessage _ _ _ => true
  | _ => false
  end.

(** [p'] is [p] but for the two direction flags. *)
Definition inputOnly (p p' : Paddle.t) : Prop :=
  exists up down, p' = Paddle.setMovingDown down (Paddle.setMovingUp up p).

(** What happens to a game loop: calls of its methods, and frames of the
    browser. *)
Inductive LoopEvent : Type :=
| LoopStart
| LoopStop
| LoopFrame (timestamp : Q).

Section LoopRuns.
Variable World : Type.
Variable updateFn : Q -> World -> World.
Variable renderFn : World -> World.

Definition applyLoopEvent (ev : LoopEvent) (lw : GameLoop.t * World)
  : GameLoop.t * World :=
  match ev with
  | LoopStart => (GameLoop.start (fst lw), snd lw)
  | LoopStop => (GameLoop.stop (fst lw), snd lw)
  | LoopFrame timestamp => GameLoop.runFrame updateFn renderFn timestamp lw
  end.

Definition runLoop (events : list LoopEvent) (lw : GameLoop.t * World)
  : GameLoop.t * World :=
  fold_left (fun lw ev => applyLoopEvent ev lw) events lw.

(** What the events should make of the world: one update and one rendering
    for every frame that comes while the loop is started. *)
Fixpoint framesWhileStarted (started : bool) (events : list LoopEvent)
    (w : World) : World :=
  match events with
  | [] => w
  | LoopStart :: rest => framesWhileStarted true rest w
  | LoopStop :: rest => framesWhileStarted false rest w
  | LoopFrame timestamp :: rest =>
      framesWhileStarted started rest
        (if started then renderFn (updateFn timestamp w) else w)
  end.

End LoopRuns.

(** The loop is started and one frame is pending, the one [rafId] names,
    or it is stopped and no frame is pending. *)
Definition oneFramePending (l : GameLoop.t) : Prop :=
  if GameLoop.isRunning l then
    exists id, GameLoop.rafId l = Some id /\ GameLoop.pending l = [id]
  else GameLoop.pending l = [].

(** A particle as [createExplosion] makes them. *)
Definition sparkOf (x y : Q) (color : String.string)
    (minLife maxLife : Q) (p : Particle.t) : Prop :=
  Particle.x p = x /\ Particle.y p = y /\ Particle.color p = color
  /\ 1 <= Particle.radius p /\ Particle.radius p <= 4
  /\ minLife <= Particle.life p /\ Particle.life p <= maxLife
  /\ Particle.maxLife p = Particle.life p.

(** The calls the audio service receives. *)
Inductive AudioOp : Type :=
| ASetVolume (volume : Q)
| ASetMuted (muted : bool)
| ABeginInitialize
| AAddSound (id : String.string)
| AFinishInitialize
| APlaySound (id : String.string) (volumeMultiplier pitch : Q).

Definition applyAudioOp (op : AudioOp) (s : AudioService.t) : AudioService.t :=
  match op with
  | ASetVolume volume => AudioService.setVolume volume s
  | ASetMuted muted => AudioService.setMuted muted s
  | ABeginInitialize => AudioService.beginInitialize s
  | AAddSound id => AudioService.addSound id s
  | AFinishInitialize => AudioService.finishInitialize s
  | APlaySound id volumeMultiplier pitch =>
      AudioService.playSound id volumeMultiplier pitch s
  end.

Definition runAudio (ops : list AudioOp) (s : AudioService.t)
  : AudioService.t :=
  fold_left (fun s op => applyAudioOp op s) ops s.

(** The master gain is what the volume and the mute flag say. *)
Definition gainFollows (s : AudioService.t) : Prop :=
  0 <= AudioService.volume s /\ AudioService.volume s <= 1
  /\ match AudioService.gain s with
     | Some g =>
         g = if AudioService.muted s then 0 else AudioService.volume s
     | None => True
     end.

(** ** Concrete games, for evaluating the engine *)

Definition demoEnv : Env := constantEnv 0.5 1000.

(** A match that ends at the first point, without power-ups. *)
Definition suddenDeath : GameConfig :=
  mkGameConfig 400 80 12 1%Z false 15 false false false.

Definition paddleAt (px py : Q) : PaddleState :=
  mkPaddleState (mkVec px py) 12 80 false false None None.

(** A snapshot of the host with the given status and ball position, the
    paddles at rest in the middle, no score, and every optional field
    absent. *)
Definition snapshot (status : GameStatus) (ballX ballY : Q) : GameState :=
  mkGameState status
    (mkBallState (mkVec ballX ballY) (mkVec 400 0) 10 None None None None)
    (paddleAt 30 300) (paddleAt 770 300) 0%Z 0%Z 0%Z None None suddenDeath
    None None None None None None.

Definition newHostGame : Game.t :=
  Game.new HOST Game.DEFAULT_CONFIG demoEnv.

(** Play with the ball about to leave on the right, then two frames: the
    host scores the only point of the match. *)
Definition matchPointOps : list GameOp :=
  [GSetState (snapshot PLAYING 795 300); GUpdate 16; GUpdate 33].

Definition wonGame : Game.t :=
  runGame (M := rationalMath) matchPointOps newHostGame.

(** A host and a client, connected to each other. *)
Definition hostManager : GameManager.t :=
  GameManager.new HOST CONNECTED Game.DEFAULT_CONFIG demoEnv.

Definition clientManager : GameManager.t :=
  GameManager.new CLIENT CONNECTED Game.DEFAULT_CONFIG demoEnv.

(** A paddle in the top corner of a field of height 600. *)
Definition cornerPaddle : Paddle.t := Paddle.new (mkVec 30 40) 12 80 500 0 600.

(** The host in play with the main ball past the right boundary. *)
Definition outOnRight : Game.t :=
  Game.setState (M := rationalMath) (snapshot PLAYING 795 300) newHostGame.


(** The host in play with the main ball in the middle, one additional ball
    past the right boundary and one in the field. *)
Definition strayBall : Ball.t := Ball.new (mkVec 795 100) 10 (mkVec 400 0) 400.
Definition fieldBall : Ball.t := Ball.new (mkVec 200 100) 10 (mkVec 400 0) 400.

Definition multiBall : Game.t :=
  Game.set_additionalBalls [strayBall; fieldBall]
    (Game.setState (M := rationalMath) (snapshot PLAYING 400 300) newHostGame).

(** A countdown, frames, the failsafe timer, a pause and a restart. *)
Definition sessionOps : list GameOp :=
  [GStartCountdown; GUpdate 16; GUpdate 33; GFireTimer; GFireTimer;
   GFireTimer; GUpdate 50; GPauseGame; GResumeGame; GUpdate 66;
   GRestartGame; GFireTimer].

(** A frame that comes a long time after the previous one. *)
Definition stalledGame : Game.t :=
  Game.update (M := rationalMath) 16 outOnRight.

(** A ball that has just reached the left paddle of the host. *)
Definition incomingBall : Ball.t :=
  Ball.new (mkVec 45 300) 10 (mkVec (-400) 0) 400.

(** A paddle at the start of a dash. *)
Definition dashingPaddle : Paddle.t :=
  fst (Paddle.attemptDash (Paddle.setMovingUp true cornerPaddle)).

(** The host during its countdown. *)
Definition countingGame : Game.t :=
  Game.startCountdown (M := rationalMath) newHostGame.

(** A paddle shrunk to 40 at once and moved up against the upper
    boundary. *)
Definition shrunkenPaddle : Paddle.t :=
  Paddle.setPosition (mkVec 30 20)
    (Paddle.applyResizeEffect 0.5 true cornerPaddle).

(** A paddle on its way from 80 to 40. *)
Definition shrinkingPaddle : Paddle.t :=
  Paddle.applyResizeEffect 0.5 false cornerPaddle.

(** The host in play, a frame after its first one, with a power-up of the
    given type under the main ball and the given additional balls. *)
Definition collectingGame (type : PowerUpType) (balls : list Ball.t)
  : Game.t :=
  let g := Game.set_lastUpdateTime 16 (Game.set_status PLAYING newHostGame) in
  let powerUp :=
    mkPowerUp type (fieldCenter g) 10 true 10 None (Some player) in
  Game.set_additionalBalls balls
    (Game.set_powerUpManager
       (PowerUpManager.set_powerUps [powerUp] (Game.powerUpManager g)) g).

(** Two additional balls already, and a multi-ball power-up to collect. *)
Definition crowdedGame : Game.t :=
  collectingGame MULTI_BALL [fieldBall; fieldBall].

(** A game paused after its first frame. *)
Definition pausedGame : Game.t := Game.pauseGame stalledGame.

(** * Properties *)

(** ** Comparisons and clamping *)

Lemma Qleb_spec a b : Qleb a b = true <-> a <= b.
Proof. apply Qle_bool_iff. Qed.

Lemma Qgeb_spec a b : Qgeb a b = true <-> b <= a.
Proof. apply Qle_bool_iff. Qed.

Lemma Qltb_spec a b : Qltb a b = true <-> a < b.
Proof.
  unfold Qltb. rewrite negb_true_iff. split; intro H.
  - apply Qnot_le_lt. intro L. apply Qle_bool_iff in L. congruence.
  - destruct (Qle_bool b a) eqn:E; [|reflexivity].
    apply Qle_bool_iff in E. exfalso. apply (Qlt_not_le _ _ H E).
Qed.

Lemma Qgtb_spec a b : Qgtb a b = true <-> b < a.
Proof. apply (Qltb_spec b a). Qed.

Lemma Qeqb_spec a b : Qeqb a b = true <-> a == b.
Proof. apply Qeq_bool_iff. Qed.

Lemma Qltb_false a b : Qltb a b = false <-> b <= a.
Proof.
  unfold Qltb. rewrite negb_false_iff. apply Qle_bool_iff.
Qed.

Lemma Qgtb_false a b : Qgtb a b = false <-> a <= b.
Proof. apply (Qltb_false b a). Qed.

Lemma Qleb_false a b : Qleb a b = false <-> b < a.
Proof.
  rewrite <- Qgtb_spec. unfold Qgtb, Qleb.
  destruct (Qle_bool a b); simpl; intuition congruence.
Qed.

Lemma Qgeb_false a b : Qgeb a b = false <-> a < b.
Proof. apply (Qleb_false b a). Qed.

Lemma clamp_lower lo v hi : lo <= clamp lo v hi.
Proof. apply Q.le_max_l. Qed.

Lemma clamp_upper lo v hi : lo <= hi -> clamp lo v hi <= hi.
Proof.
  intro H. unfold clamp. apply Q.max_lub; [exact H | apply Q.le_min_r].
Qed.

Lemma clamp_inside lo v hi : lo <= v -> v <= hi -> clamp lo v hi == v.
Proof.
  intros H1 H2. unfold clamp.
  rewrite (Q.min_l v hi H2). apply Q.max_r. exact H1.
Qed.

Lemma GameStatus_eqb_spec a b : GameStatus_eqb a b = true <-> a = b.
Proof. destruct a, b; simpl; split; intro; congruence. Qed.

Lemma GameStatus_eqb_refl a : GameStatus_eqb a a = true.
Proof. destruct a; reflexivity. Qed.

(** ** Ball: the speed scale of a rally *)

Section BallFacts.
Context {M : JsMath}.

Lemma normalizeVelocity_scale (b : Ball.t) :
  Ball.speedScaleFactor (Ball.normalizeVelocity b) = Ball.speedScaleFactor b
  /\ Ball.hitCounter (Ball.normalizeVelocity b) = Ball.hitCounter b
  /\ Ball.position (Ball.normalizeVelocity b) = Ball.position b
  /\ Ball.radius (Ball.normalizeVelocity b) = Ball.radius b.
Proof.
  unfold Ball.normalizeVelocity.
  destruct (Qgtb _ 0); simpl; repeat split; reflexivity.
Qed.

(** The scale computed by a hit never exceeds [maxSpeedScale]. *)
Lemma hitScale_cap (hits : Z) (r : Q) :
  Ball.hitScale hits r <= Ball.maxSpeedScale.
Proof. unfold Ball.hitScale. apply Q.le_min_l. Qed.

(** With a jitter that does not decrease from one hit to the next, the
    scale does not decrease either. *)
Lemma hitScale_monotone (hits : Z) (r r' : Q) :
  (0 <= hits)%Z -> 0 <= r -> r <= r' ->
  Ball.hitScale hits r <= Ball.hitScale (hits + 1) r'.
Proof.
  intros Hh Hr Hrr. unfold Ball.hitScale.
  apply Q.min_le_compat_l.
  unfold Ball.hitSpeedIncrement.
  rewrite inject_Z_plus.
  assert (Hq : 0 <= inject_Z hits).
  { change 0 with (inject_Z 0). rewrite <- Zle_Qle. exact Hh. }
  change (inject_Z 1) with 1.
  generalize dependent (inject_Z hits). intros h Hq.
  assert (H2 : 0 <= r') by (apply (Qle_trans _ r); assumption).
  assert (H3 : h * r <= h * r').
  { rewrite (Qmult_comm h r), (Qmult_comm h r').
    apply Qmult_le_compat_r; assumption. }
  assert (E1 : 1 + h * 0.08 * (1 + r * 0.2)
               == 1 + 0.08 * h + 0.016 * (h * r)) by ring.
  assert (E2 : 1 + (h + 1) * 0.08 * (1 + r' * 0.2)
               == 1 + 0.08 * h + 0.08 + 0.016 * (h * r') + 0.016 * r')
    by ring.
  rewrite E1, E2. lra.
Qed.

Lemma increaseBallSpeed_spec (b : Ball.t) (e : Env) :
  let b' := fst (Ball.increaseBallSpeed b e) in
  let e' := snd (Ball.increaseBallSpeed b e) in
  Ball.hitCounter b' = (Ball.hitCounter b + 1)%Z
  /\ Ball.speedScaleFactor b'
     = Ball.hitScale (Ball.hitCounter b + 1) (draws e (cursor e))
  /\ draws e' = draws e
  /\ cursor e' = S (cursor e).
Proof.
  unfold Ball.increaseBallSpeed, random. simpl.
  destruct (normalizeVelocity_scale
              (Ball.set_speedScaleFactor
                 (Ball.hitScale (Ball.hitCounter b + 1)
                    (draws e (cursor e)))
                 (Ball.set_hitCounter (Ball.hitCounter b + 1)%Z b)))
    as (Hs & Hh & _).
  rewrite Hs, Hh. simpl. repeat split; reflexivity.
Qed.

Lemma rally_env (n : nat) (b : Ball.t) (e : Env) :
  Ball.hitCounter (fst (Ball.rally n b e))
  = (Ball.hitCounter b + Z.of_nat n)%Z
  /\ draws (snd (Ball.rally n b e)) = draws e
  /\ cursor (snd (Ball.rally n b e)) = (cursor e + n)%nat.
Proof.
  induction n as [|n IH].
  - simpl. split; [lia | split; [reflexivity | lia]].
  - cbn [Ball.rally].
    destruct (Ball.rally n b e) as [b' e'] eqn:E.
    cbn [fst snd] in IH. destruct IH as (Hh & Hd & Hc).
    destruct (increaseBallSpeed_spec b' e') as (H1 & _ & H3 & H4).
    cbn zeta in H1, H3, H4. rewrite H1, H3, H4, Hh, Hd, Hc.
    repeat split; lia.
Qed.

(** The scale after hit [n + 1] of a rally, in closed form. *)
Lemma rally_scale (n : nat) (b : Ball.t) (e : Env) :
  Ball.speedScaleFactor (fst (Ball.rally (S n) b e))
  = Ball.hitScale (Ball.hitCounter b + Z.of_nat (S n))
      (draws e (cursor e + n)%nat).
Proof.
  cbn [Ball.rally].
  destruct (rally_env n b e) as (Hh & Hd & Hc).
  destruct (Ball.rally n b e) as [b' e'].
  cbn [fst snd] in Hh, Hd, Hc.
  destruct (increaseBallSpeed_spec b' e') as (_ & H2 & _).
  cbn zeta in H2. rewrite H2, Hh, Hd, Hc.
  f_equal. lia.
Qed.

(** After every hit of a rally the scale is at most 2.2. *)
Lemma rally_scale_cap (n : nat) (b : Ball.t) (e : Env) :
  Ball.speedScaleFactor (fst (Ball.rally (S n) b e)) <= 2.2.
Proof. rewrite rally_scale. apply hitScale_cap. Qed.

(** C3, a failing input.  A ball served fresh is hit seven times; the
    sixth draw of [Math.random] is [0.99] and the others are [0].  The
    draws are in [0, 1), the scale after the seventh hit ([1.56]) is below
    the scale after the sixth ([1.57504]): the jitter multiplies the whole
    accumulated term, so a small draw after a large one lowers the speed
    scale although the hit count went up. *)
Theorem rally_scale_can_decrease :
  let e := mkEnv (fun n => if (n =? 5)%nat then 0.99 else 0) O 0%Z in
  let b := Ball.new (mkVec 400 300) 10 (mkVec 400 0) 400 in
  fair e
  /\ Ball.speedScaleFactor (fst (Ball.rally 6 b e)) == 1.57504
  /\ Ball.speedScaleFactor (fst (Ball.rally 7 b e)) == 1.56
  /\ Ball.speedScaleFactor (fst (Ball.rally 7 b e))
     < Ball.speedScaleFactor (fst (Ball.rally 6 b e)).
Proof.
  intros e b.
  assert (H6 : Ball.speedScaleFactor (fst (Ball.rally 6 b e)) == 1.57504).
  { rewrite rally_scale. vm_compute. reflexivity. }
  assert (H7 : Ball.speedScaleFactor (fst (Ball.rally 7 b e)) == 1.56).
  { rewrite rally_scale. vm_compute. reflexivity. }
  split; [|split; [exact H6|split; [exact H7|]]].
  - intro n. unfold e. simpl. destruct (n =? 5)%nat; split; lra.
  - rewrite H6, H7. lra.
Qed.

End BallFacts.

(** ** Paddle: containment between the boundaries *)

Lemma Qhalf (h : Q) : h / 2 == h * (1 # 2).
Proof. reflexivity. Qed.

Section PaddleFacts.
Context {M : JsMath}.

(** Two paddles with the same geometry are contained together. *)
Lemma paddleContainment_same (p q : Paddle.t) :
  Paddle.position q = Paddle.position p ->
  Paddle.height q = Paddle.height p ->
  Paddle.minY q = Paddle.minY p ->
  Paddle.maxY q = Paddle.maxY p ->
  paddleContainment p -> paddleContainment q.
Proof.
  unfold paddleContainment, paddleFits, paddleContained.
  intros -> -> -> ->. tauto.
Qed.

(** Clamping the ordinate with the current height and boundaries puts the
    paddle inside, wherever it was before. *)
Lemma placeY_containment (newY : Q) (p : Paddle.t) :
  paddleContainment (Paddle.placeY newY p).
Proof.
  unfold paddleContainment, paddleFits, paddleContained, Paddle.placeY.
  simpl. intro F. split.
  - apply clamp_lower.
  - apply clamp_upper. rewrite !Qhalf. lra.
Qed.

Lemma setPosition_containment (position : Vector2D) (p : Paddle.t) :
  paddleContainment (Paddle.setPosition position p).
Proof. apply placeY_containment. Qed.

Lemma startRebound_containment (d : Q) (p : Paddle.t) :
  paddleContainment p -> paddleContainment (Paddle.startRebound d p).
Proof.
  apply paddleContainment_same;
    unfold Paddle.startRebound; destruct (Qltb d 0); reflexivity.
Qed.

Lemma updateMovement_containment (dt : Q) (p : Paddle.t) :
  paddleContainment p -> paddleContainment (Paddle.updateMovement dt p).
Proof.
  intro H. unfold Paddle.updateMovement.
  destruct (negb (Qeqb (Paddle.direction p) 0)); [|exact H].
  cbv zeta.
  destruct (_ && _).
  - apply startRebound_containment, H.
  - destruct (_ && _).
    + apply startRebound_containment, H.
    + apply placeY_containment.
Qed.

Lemma updateDash_containment (dt : Q) (p : Paddle.t) :
  paddleContainment p -> paddleContainment (Paddle.updateDash dt p).
Proof.
  intro H. unfold Paddle.updateDash. cbv zeta.
  set (p1 := Paddle.set_dashDuration (Paddle.dashDuration p - dt) p).
  assert (H1 : paddleContainment p1)
    by (revert H; apply paddleContainment_same; reflexivity).
  set (p2 := if negb (Qeqb (Paddle.direction p1) 0) then _ else p1).
  assert (H2 : paddleContainment p2).
  { unfold p2. destruct (negb _); [apply placeY_containment | exact H1]. }
  destruct (Qleb (Paddle.dashDuration p2) 0); [|exact H2].
  revert H2. apply paddleContainment_same; reflexivity.
Qed.

Lemma updateRebound_containment (dt : Q) (p : Paddle.t) :
  paddleContainment p -> paddleContainment (Paddle.updateRebound dt p).
Proof.
  intro H. unfold Paddle.updateRebound. cbv zeta.
  set (p1 := Paddle.set_reboundTime (Paddle.reboundTime p + dt) p).
  assert (H1 : paddleContainment p1)
    by (revert H; apply paddleContainment_same; reflexivity).
  set (p2 := if negb (Qeqb (Paddle.direction p1) 0) then _ else p1).
  assert (H2 : paddleContainment p2).
  { unfold p2. destruct (negb _); [apply placeY_containment | exact H1]. }
  destruct (Qgeb (Paddle.reboundTime p2) Paddle.reboundDuration); [|exact H2].
  revert H2. apply paddleContainment_same; reflexivity.
Qed.

(** A resize re-clamps with the new height. *)
Lemma updatePaddleSize_containment (dt : Q) (p : Paddle.t) :
  paddleContainment p -> paddleContainment (Paddle.updatePaddleSize dt p).
Proof.
  intro H. unfold Paddle.updatePaddleSize.
  destruct (negb _); [|exact H].
  cbv zeta. apply placeY_containment.
Qed.

Lemma update_containment (dt : Q) (p : Paddle.t) :
  paddleContainment p -> paddleContainment (Paddle.update dt p).
Proof.
  intro H. unfold Paddle.update. cbv zeta.
  set (p1 := if Paddle.isRebounding p then _ else _).
  assert (H1 : paddleContainment p1).
  { unfold p1. destruct (Paddle.isRebounding p).
    - apply updateRebound_containment, H.
    - destruct (Paddle.isDashing p).
      + apply updateDash_containment, H.
      + apply updateMovement_containment, H. }
  set (p2 := if Qgtb (Paddle.dashCooldown p1) 0 then _ else p1).
  assert (H2 : paddleContainment p2).
  { unfold p2. destruct (Qgtb _ 0); [|exact H1].
    revert H1. apply paddleContainment_same; reflexivity. }
  pose proof (updatePaddleSize_containment dt H2) as H3.
  destruct (Qgtb _ Paddle.minPaddleHeight); [|exact H3].
  revert H3. apply paddleContainment_same; reflexivity.
Qed.

Lemma setState_containment (state : PaddleState) (p : Paddle.t) :
  paddleContainment (Paddle.setState state p).
Proof. unfold Paddle.setState. cbv zeta. apply setPosition_containment. Qed.

Lemma setBoundaries_containment (lo hi : Q) (p : Paddle.t) :
  paddleContainment (Paddle.setBoundaries lo hi p).
Proof. unfold Paddle.setBoundaries. cbv zeta. apply setPosition_containment. Qed.

Lemma setHeight_containment (h : Q) (p : Paddle.t) :
  paddleContainment (Paddle.setHeight h p).
Proof. unfold Paddle.setHeight. cbv zeta. apply setPosition_containment. Qed.

Lemma applyResizeEffect_gradual_containment (f : Q) (p : Paddle.t) :
  paddleContainment p ->
  paddleContainment (Paddle.applyResizeEffect f false p).
Proof. apply paddleContainment_same; reflexivity. Qed.

Lemma recordHit_containment (p : Paddle.t) :
  paddleContainment p -> paddleContainment (Paddle.recordHit p).
Proof.
  intro H. unfold Paddle.recordHit. cbv zeta.
  destruct (3 <=? _)%Z.
  - apply applyResizeEffect_gradual_containment.
    revert H. apply paddleContainment_same; reflexivity.
  - revert H. apply paddleContainment_same; reflexivity.
Qed.

(** C10, as the code has it.  [setPosition] puts the paddle inside its
    boundaries whenever they leave room for it ([maxY - minY >= height]),
    and every public operation but the two instant resizes keeps it so:
    [update] in its rebound, dash and normal branches and through its
    resize step, [setState], [setBoundaries] and [setHeight], which
    re-clamp the ordinate, and the operations which touch neither the
    position, the height nor the boundaries (the intent flags, width,
    speed, dash, hit combo and the gradual resizes). *)
Theorem paddle_containment (op : PaddleOp) (position : Vector2D)
    (p : Paddle.t) :
  paddleContainment (Paddle.setPosition position p)
  /\ (instantResize op = false ->
      paddleContainment p -> paddleContainment (applyPaddleOp op p)).
Proof.
  split; [apply setPosition_containment|].
  intros G H. destruct op; cbn [applyPaddleOp instantResize] in *; subst.
  - apply update_containment, H.
  - apply setState_containment.
  - apply setBoundaries_containment.
  - apply setHeight_containment.
  - apply setPosition_containment.
  - revert H; apply paddleContainment_same; reflexivity.
  - revert H; apply paddleContainment_same; reflexivity.
  - revert H; apply paddleContainment_same; reflexivity.
  - revert H; apply paddleContainment_same; reflexivity.
  - revert H; apply paddleContainment_same;
      unfold Paddle.attemptDash; destruct (_ && _); reflexivity.
  - apply recordHit_containment, H.
  - revert H; apply paddleContainment_same; reflexivity.
  - apply applyResizeEffect_gradual_containment, H.
  - revert H; apply paddleContainment_same; reflexivity.
Qed.

End PaddleFacts.

(** ** Game: what the fixed step leaves alone *)

Ltac split_cases :=
  repeat match goal with
    | |- context [match ?e with _ => _ end] => destruct e
    end.

Ltac frame := cbv zeta; split_cases; simpl; repeat split; reflexivity.

Lemma sameControl_refl (g : Game.t) : sameControl g g.
Proof. repeat split; reflexivity. Qed.

Lemma sameControl_trans (g1 g2 g3 : Game.t) :
  sameControl g1 g2 -> sameControl g2 g3 -> sameControl g1 g3.
Proof.
  unfold sameControl.
  intros (A1 & A2 & A3 & A4 & A5 & A6 & A7 & A8 & A9 & A10)
         (B1 & B2 & B3 & B4 & B5 & B6 & B7 & B8 & B9 & B10).
  repeat split; congruence.
Qed.

Lemma sameLoop_refl (g : Game.t) : sameLoop g g.
Proof. split; reflexivity. Qed.

Lemma sameLoop_trans (g1 g2 g3 : Game.t) :
  sameLoop g1 g2 -> sameLoop g2 g3 -> sameLoop g1 g3.
Proof. unfold sameLoop. intros (A1 & A2) (B1 & B2). split; congruence. Qed.

Section GameFrames.
Context {M : JsMath}.

Lemma updateGameSpeed_frame (dt : Q) (g : Game.t) :
  sameControl g (Game.updateGameSpeed dt g)
  /\ sameLoop g (Game.updateGameSpeed dt g)
  /\ Game.additionalBalls (Game.updateGameSpeed dt g) = Game.additionalBalls g.
Proof. unfold Game.updateGameSpeed. frame. Qed.

Lemma updatePaddleShrinking_frame (g : Game.t) :
  sameControl g (Game.updatePaddleShrinking g)
  /\ sameLoop g (Game.updatePaddleShrinking g)
  /\ Game.additionalBalls (Game.updatePaddleShrinking g)
     = Game.additionalBalls g
  /\ Game.ball (Game.updatePaddleShrinking g) = Game.ball g.
Proof. unfold Game.updatePaddleShrinking. frame. Qed.

Lemma checkBoundaryCollisions_frame (g : Game.t) :
  sameControl g (Game.checkBoundaryCollisions g)
  /\ sameLoop g (Game.checkBoundaryCollisions g).
Proof. unfold Game.checkBoundaryCollisions. frame. Qed.

Lemma checkPaddleCollisions_frame (g : Game.t) :
  sameControl g (Game.checkPaddleCollisions g)
  /\ sameLoop g (Game.checkPaddleCollisions g).
Proof. unfold Game.checkPaddleCollisions. frame. Qed.

Lemma addExtraBall_frame (g : Game.t) :
  sameControl g (Game.addExtraBall g) /\ sameLoop g (Game.addExtraBall g).
Proof. unfold Game.addExtraBall. frame. Qed.

Lemma applyPowerUpEffect_frame (powerUp : PowerUp) (g : Game.t) :
  sameControl g (Game.applyPowerUpEffect powerUp g)
  /\ sameLoop g (Game.applyPowerUpEffect powerUp g).
Proof.
  unfold Game.applyPowerUpEffect.
  destruct (pu_type powerUp); try apply addExtraBall_frame; frame.
Qed.

Lemma collectWith_frame (b : Ball.t) (g : Game.t) :
  sameControl g (Game.collectWith b g) /\ sameLoop g (Game.collectWith b g).
Proof.
  unfold Game.collectWith.
  destruct (PowerUpManager.checkPowerUpCollection _ _ _ _ _) as [pm [pu|]].
  - destruct (applyPowerUpEffect_frame pu
                (Game.set_powerUpManager pm g)) as [C L].
    split.
    + eapply sameControl_trans; [|exact C]. repeat split; reflexivity.
    + eapply sameLoop_trans; [|exact L]. split; reflexivity.
  - frame.
Qed.

Lemma collectLoop_frame (fuel i : nat) (g : Game.t) :
  sameControl g (Game.collectLoop fuel i g)
  /\ sameLoop g (Game.collectLoop fuel i g).
Proof.
  revert i g. induction fuel as [|fuel IH]; intros i g; simpl.
  - split; [apply sameControl_refl | apply sameLoop_refl].
  - destruct (nth_error (Game.additionalBalls g) i) as [b|].
    + destruct (collectWith_frame b g) as [C L].
      destruct (IH (S i) (Game.collectWith b g)) as [C' L'].
      split; [eapply sameControl_trans | eapply sameLoop_trans]; eassumption.
    + split; [apply sameControl_refl | apply sameLoop_refl].
Qed.

Lemma checkPowerUpCollections_frame (g : Game.t) :
  sameControl g (Game.checkPowerUpCollections g)
  /\ sameLoop g (Game.checkPowerUpCollections g).
Proof.
  unfold Game.checkPowerUpCollections. cbv zeta.
  destruct (collectWith_frame (Game.ball g) g) as [C L].
  destruct (collectLoop_frame
              (length (Game.additionalBalls (Game.collectWith (Game.ball g) g))
               + Game.maxAdditionalBalls) 0
              (Game.collectWith (Game.ball g) g)) as [C' L'].
  split; [eapply sameControl_trans | eapply sameLoop_trans]; eassumption.
Qed.

Lemma resetBall_frame (serveToLeft : bool) (g : Game.t) :
  sameControl g (Game.resetBall serveToLeft g)
  /\ sameLoop g (Game.resetBall serveToLeft g).
Proof. unfold Game.resetBall. frame. Qed.

Lemma startGame_loop (g : Game.t) : sameLoop g (Game.startGame g).
Proof.
  unfold Game.startGame. cbv zeta.
  destruct (GameStatus_eqb _ PLAYING); [split; reflexivity|].
  unfold random. cbv zeta.
  eapply sameLoop_trans; [|apply resetBall_frame]. split; reflexivity.
Qed.

Lemma countdownTick_loop (dt : Q) (g : Game.t) :
  sameLoop g (Game.countdownTick dt g).
Proof.
  unfold Game.countdownTick. cbv zeta.
  repeat match goal with
    | |- context [if ?c then _ else _] => destruct c
    end;
    try (split; reflexivity);
    repeat (eapply sameLoop_trans; [|apply startGame_loop]);
    split; reflexivity.
Qed.

Lemma scoreMainBall_loop (g : Game.t) :
  sameLoop g (fst (Game.scoreMainBall g)).
Proof.
  unfold Game.scoreMainBall. cbv zeta.
  destruct (Ball.checkScoringBoundary 0 (Game.fieldWidth g) (Game.ball g))
    as [[|]|]; cbn [fst]; try apply sameLoop_refl;
    (eapply sameLoop_trans; [|apply resetBall_frame]);
    destruct (Game.isHostRole g); split; reflexivity.
Qed.

Lemma settleScoring_loop (scored : bool) (g : Game.t) :
  sameLoop g (Game.settleScoring scored g).
Proof. unfold Game.settleScoring, Game.endGame. frame. Qed.

Lemma checkScoring_loop (g : Game.t) : sameLoop g (Game.checkScoring g).
Proof.
  unfold Game.checkScoring.
  pose proof (scoreMainBall_loop g) as H.
  destruct (Game.scoreMainBall g) as [g1 scored]. cbn [fst] in H.
  eapply sameLoop_trans; [exact H | apply settleScoring_loop].
Qed.

End GameFrames.

Section GameLoopFacts.
Context {M : JsMath}.

Lemma sameLoop_bind (g a : Game.t) (f : Game.t -> Game.t) :
  sameLoop g a -> (forall h, sameLoop h (f h)) -> sameLoop g (f a).
Proof. intros H K. exact (sameLoop_trans H (K a)). Qed.

Lemma sameControl_bind (g a : Game.t) (f : Game.t -> Game.t) :
  sameControl g a -> (forall h, sameControl h (f h)) -> sameControl g (f a).
Proof. intros H K. exact (sameControl_trans H (K a)). Qed.

(** One statement of a method at a time: a [let] that binds a game is
    crossed with [sameLoop_bind], any other [let] is unfolded. *)
Ltac loop_step :=
  lazymatch goal with
  | |- sameLoop ?g ?g => apply sameLoop_refl
  | |- sameLoop ?g (let x := ?a in @?f x) =>
      first
        [ apply (@sameLoop_bind g a f);
          [ | let h := fresh "h" in intro h; cbv beta ]
        | change (sameLoop g (f a)); cbv beta ]
  | |- sameLoop _ (if ?c then _ else _) => destruct c
  | |- sameLoop _ (match ?e with _ => _ end) => destruct e
  | |- sameLoop _ (Game.updatePaddleShrinking _) =>
      apply updatePaddleShrinking_frame
  | |- sameLoop _ (Game.checkScoring _) => apply checkScoring_loop
  | |- sameLoop _ (Game.checkPowerUpCollections _) =>
      apply checkPowerUpCollections_frame
  | |- sameLoop _ (Game.checkBoundaryCollisions _) =>
      apply checkBoundaryCollisions_frame
  | |- sameLoop _ (Game.checkPaddleCollisions _) =>
      apply checkPaddleCollisions_frame
  | |- sameLoop _ (Game.updateGameSpeed _ _) => apply updateGameSpeed_frame
  | |- sameLoop _ _ => split; reflexivity
  end.

Lemma playingTick_loop (dt : Q) (g : Game.t) :
  sameLoop g (Game.playingTick dt g).
Proof. cbv beta delta [Game.playingTick]. repeat loop_step. Qed.

(** The fixed step writes neither the accumulator nor the time of the last
    update. *)
Lemma fixedUpdate_loop (dt : Q) (g : Game.t) :
  sameLoop g (Game.fixedUpdate dt g).
Proof.
  unfold Game.fixedUpdate. destruct (Game.status g);
    try apply sameLoop_refl.
  - apply countdownTick_loop.
  - apply playingTick_loop.
Qed.

(** One turn of the loop takes exactly one fixed step off the
    accumulator. *)
Lemma fixedSteps_unfold (fuel steps : nat) (g : Game.t) :
  Game.fixedSteps (S fuel) steps g
  = if Qgeb (Game.accumulator g) Game.fixedTimeStep
       && (steps <? Game.maxSteps)%nat
    then
      Game.fixedSteps fuel (S steps)
        (Game.set_accumulator
           (Game.accumulator (Game.fixedUpdate Game.fixedTimeStep g)
            - Game.fixedTimeStep)
           (Game.fixedUpdate Game.fixedTimeStep g))
    else (g, steps).
Proof. reflexivity. Qed.

(** The counter starts below the cap and the loop never takes it past. *)
Lemma fixedSteps_count (fuel steps : nat) (g : Game.t) :
  (steps <= Game.maxSteps)%nat ->
  (steps <= snd (Game.fixedSteps fuel steps g) <= Game.maxSteps)%nat.
Proof.
  revert steps g. induction fuel as [|fuel IH]; intros steps g Hs.
  - simpl. lia.
  - rewrite fixedSteps_unfold.
    destruct (Qgeb _ _); simpl; [|lia].
    destruct (steps <? Game.maxSteps)%nat eqn:E; simpl; [|lia].
    apply Nat.ltb_lt in E.
    specialize (IH (S steps)
                  (Game.set_accumulator
                     (Game.accumulator
                        (Game.fixedUpdate Game.fixedTimeStep g)
                      - Game.fixedTimeStep)
                     (Game.fixedUpdate Game.fixedTimeStep g))).
    lia.
Qed.

(** When the unfolding is not cut short, the loop has stopped on its own
    condition: the accumulator is below one step or the cap is reached. *)
Lemma fixedSteps_exit (fuel steps : nat) (g : Game.t) :
  (Game.maxSteps <= steps + fuel)%nat ->
  let r := Game.fixedSteps fuel steps g in
  Qgeb (Game.accumulator (fst r)) Game.fixedTimeStep
  && (snd r <? Game.maxSteps)%nat = false.
Proof.
  revert steps g. induction fuel as [|fuel IH]; intros steps g Hf.
  - simpl. replace (steps <? Game.maxSteps)%nat with false.
    + apply andb_false_r.
    + symmetry. apply Nat.ltb_ge. lia.
  - cbv zeta. rewrite fixedSteps_unfold.
    destruct (Qgeb (Game.accumulator g) Game.fixedTimeStep
              && (steps <? Game.maxSteps)%nat) eqn:E.
    + apply IH. lia.
    + simpl. exact E.
Qed.

(** More fuel than the cap changes nothing: the loop has ended before. *)
Lemma fixedSteps_fuel (extra fuel steps : nat) (g : Game.t) :
  (Game.maxSteps <= steps + fuel)%nat ->
  Game.fixedSteps (fuel + extra) steps g = Game.fixedSteps fuel steps g.
Proof.
  revert steps g. induction fuel as [|fuel IH]; intros steps g Hf.
  - simpl. destruct extra as [|extra]; [reflexivity|].
    rewrite fixedSteps_unfold.
    replace (steps <? Game.maxSteps)%nat with false.
    + rewrite andb_false_r. reflexivity.
    + symmetry. apply Nat.ltb_ge. simpl in Hf. lia.
  - cbn [Nat.add]. rewrite !fixedSteps_unfold.
    destruct (_ && _); [|reflexivity].
    apply IH. lia.
Qed.

(** The loop leaves the time of the last update alone. *)
Lemma fixedSteps_lastUpdateTime (fuel steps : nat) (g : Game.t) :
  Game.lastUpdateTime (fst (Game.fixedSteps fuel steps g))
  = Game.lastUpdateTime g.
Proof.
  revert steps g. induction fuel as [|fuel IH]; intros steps g.
  - reflexivity.
  - rewrite fixedSteps_unfold. destruct (_ && _); [|reflexivity].
    rewrite IH. simpl. apply fixedUpdate_loop.
Qed.

End GameLoopFacts.

Section BoundedCatchUp.
Context {M : JsMath}.

(** C4.  One call of [update], whatever the time elapsed since the
    previous one: the fixed step runs at most 5 times; the loop stops on
    its own condition within the 5 unfoldings the model gives it, and more
    unfoldings change nothing; when the loop leaves an accumulator of at
    least one fixed step, [update] sets it to zero, so that after the call
    less than one fixed step is carried over. *)
Theorem update_bounded_catch_up (currentTime : Q) (g : Game.t) :
  let looped :=
    Game.fixedSteps Game.maxSteps 0 (Game.accumulate currentTime g) in
  (snd (Game.updateCounting currentTime g) <= 5)%nat
  /\ Qgeb (Game.accumulator (fst looped)) Game.fixedTimeStep
     && (snd looped <? Game.maxSteps)%nat = false
  /\ (forall extra,
        Game.fixedSteps (Game.maxSteps + extra) 0
          (Game.accumulate currentTime g) = looped)
  /\ (Qeqb (Game.lastUpdateTime g) 0 = false ->
      (Game.fixedTimeStep <= Game.accumulator (fst looped) ->
       Game.accumulator (Game.update currentTime g) = 0)
      /\ Game.accumulator (Game.update currentTime g) < Game.fixedTimeStep).
Proof.
  intro looped.
  pose proof (fixedSteps_count Game.maxSteps
                (Game.accumulate currentTime g) (Nat.le_0_l _)) as Hc.
  pose proof (@fixedSteps_exit M Game.maxSteps 0
                (Game.accumulate currentTime g) (Nat.le_refl _)) as He.
  cbv zeta in He. fold looped in Hc, He.
  split; [|split; [exact He|split]].
  - unfold Game.updateCounting.
    destruct (Qeqb (Game.lastUpdateTime g) 0); [simpl; lia|].
    fold looped. destruct looped as [g1 steps]. simpl in Hc.
    destruct ((Game.maxSteps <=? steps)%nat && _); simpl;
      unfold Game.maxSteps in Hc; lia.
  - intro extra. unfold looped.
    exact (fixedSteps_fuel extra Game.maxSteps 0 _ (le_n _)).
  - intro Hfirst. unfold Game.update, Game.updateCounting.
    rewrite Hfirst. fold looped.
    destruct looped as [g1 steps]. cbn [fst snd] in *.
    destruct (Qgeb (Game.accumulator g1) Game.fixedTimeStep) eqn:Ha.
    + simpl in He. apply Nat.ltb_ge in He.
      replace (Game.maxSteps <=? steps)%nat with true
        by (symmetry; apply Nat.leb_le; exact He).
      simpl. split; [reflexivity|]. reflexivity.
    + rewrite andb_false_r. simpl.
      apply Qgeb_false in Ha. split; [|exact Ha].
      intro Hge. exfalso. apply (Qlt_not_le _ _ Ha Hge).
Qed.

End BoundedCatchUp.

(** ** Removal loops *)

Lemma firstn_succ_nth {A : Type} (l : list A) (j : nat) (a : A) :
  nth_error l j = Some a -> firstn (S j) l = firstn j l ++ [a].
Proof.
  revert j. induction l as [|b l IH]; intros [|j] H; simpl in *;
    try discriminate.
  - injection H as ->. reflexivity.
  - f_equal. apply IH, H.
Qed.

Lemma skipn_nth {A : Type} (l : list A) (j : nat) (a : A) :
  nth_error l j = Some a -> skipn j l = a :: skipn (S j) l.
Proof.
  revert j. induction l as [|b l IH]; intros [|j] H; simpl in *;
    try discriminate.
  - injection H as ->. reflexivity.
  - apply IH, H.
Qed.

Lemma firstn_splice1 {A : Type} (j : nat) (l : list A) :
  (j <= length l)%nat -> firstn j (splice1 j l) = firstn j l.
Proof.
  intro H. unfold splice1.
  rewrite firstn_app, firstn_firstn, Nat.min_id, length_firstn.
  replace (j - Nat.min j (length l))%nat with O by lia.
  simpl. apply app_nil_r.
Qed.

Lemma skipn_splice1 {A : Type} (j : nat) (l : list A) :
  (j <= length l)%nat -> skipn j (splice1 j l) = skipn (S j) l.
Proof.
  intro H. unfold splice1.
  rewrite skipn_app, length_firstn.
  replace (j - Nat.min j (length l))%nat with O by lia.
  rewrite skipn_all2 by (rewrite length_firstn; lia).
  reflexivity.
Qed.

Lemma length_splice1 {A : Type} (j : nat) (l : list A) :
  (j < length l)%nat -> length (splice1 j l) = pred (length l).
Proof.
  intro H. unfold splice1.
  rewrite length_app, length_firstn, length_skipn. lia.
Qed.

Lemma spliceLoop_filter {A : Type} (drop : A -> bool) (i : nat) (l : list A) :
  (i <= length l)%nat ->
  spliceLoop drop i l
  = filter (fun a => negb (drop a)) (firstn i l) ++ skipn i l.
Proof.
  revert l. induction i as [|j IH]; intros l H.
  - reflexivity.
  - cbn [spliceLoop].
    destruct (nth_error l j) as [a|] eqn:E.
    + rewrite (firstn_succ_nth _ _ E), filter_app. cbn [filter].
      destruct (drop a) eqn:D; cbn [negb].
      * rewrite IH by (rewrite length_splice1; lia).
        rewrite firstn_splice1, skipn_splice1 by lia.
        rewrite app_nil_r. reflexivity.
      * rewrite IH by lia. rewrite (skipn_nth _ _ E).
        rewrite <- app_assoc. reflexivity.
    + apply nth_error_None in E. lia.
Qed.

(** The backwards loop with [splice] removes exactly the elements it is
    asked to drop and keeps the others in order. *)
Lemma spliceBackwards_filter {A : Type} (drop : A -> bool) (l : list A) :
  spliceBackwards drop l = filter (fun a => negb (drop a)) l.
Proof.
  unfold spliceBackwards. rewrite spliceLoop_filter by lia.
  rewrite firstn_all, skipn_all. apply app_nil_r.
Qed.

(** ** Game: scoring *)

Section ScoringFacts.
Context {M : JsMath}.

Lemma reset_spec (center velocity : Vector2D) (b : Ball.t) :
  Ball.position (Ball.reset center velocity true b) = center
  /\ Ball.speedScaleFactor (Ball.reset center velocity true b) = 1
  /\ Ball.hitCounter (Ball.reset center velocity true b) = 0%Z.
Proof.
  unfold Ball.reset, Ball.resetSpeedScaling. cbv zeta.
  destruct (normalizeVelocity_scale
              (Ball.set_speedScaleFactor 1
                 (Ball.set_hitCounter 0%Z
                    (Ball.set_velocity velocity (Ball.set_position center b)))))
    as (Hs & Hh & Hp & _).
  rewrite Hs, Hh, Hp. repeat split; reflexivity.
Qed.

(** What [resetBall] leaves: the ball served from the centre, the paddles
    re-centred, no additional ball. *)
Lemma resetBall_spec (serveToLeft : bool) (g : Game.t) :
  let g' := Game.resetBall serveToLeft g in
  Game.ball g'
  = Ball.reset (fieldCenter g)
      (mkVec ((if serveToLeft then -1 else 1) * ballSpeed (Game.config g))
         ((draws (Game.env g) (cursor (Game.env g)) - 0.5)
          * (ballSpeed (Game.config g) * 0.5)))
      true (Game.ball g)
  /\ Game.additionalBalls g' = []
  /\ Paddle.consecutiveHits (Game.playerPaddle g')
     = Paddle.consecutiveHits (Game.playerPaddle g)
  /\ Paddle.consecutiveHits (Game.opponentPaddle g')
     = Paddle.consecutiveHits (Game.opponentPaddle g).
Proof. unfold Game.resetBall, random. simpl. repeat split; reflexivity. Qed.

(** The tail of [checkScoring] keeps the ball and the paddles and never
    changes a score; of the additional balls it keeps those that are not
    past a boundary, in order. *)
Lemma settleScoring_spec (scored : bool) (g : Game.t) :
  let g' := Game.settleScoring scored g in
  Game.ball g' = Game.ball g
  /\ Game.playerPaddle g' = Game.playerPaddle g
  /\ Game.opponentPaddle g' = Game.opponentPaddle g
  /\ Game.playerScore g' = Game.playerScore g
  /\ Game.opponentScore g' = Game.opponentScore g
  /\ Game.role g' = Game.role g
  /\ Game.additionalBalls g'
     = filter (fun b => negb (Game.crossed (Game.fieldWidth g) b))
         (Game.additionalBalls g).
Proof.
  unfold Game.settleScoring, Game.endGame. cbv zeta.
  rewrite spliceBackwards_filter.
  destruct scored; simpl;
    repeat match goal with
      | |- context [if ?c then _ else _] => destruct c
      end;
    simpl; repeat split; reflexivity.
Qed.

End ScoringFacts.

Section ScoringClaims.
Context {M : JsMath}.





(** C9.  An additional ball past a scoring boundary is removed from the
    list and gives no point: both scores after [checkScoring] are the ones
    the same game without additional balls would have, so only the main
    ball decides them; and when the main ball is not out the scores are
    unchanged and the list is the former one without the balls that are
    out. *)
Theorem additional_balls_never_score (g : Game.t) :
  let g' := Game.checkScoring g in
  (forall b, In b (Game.additionalBalls g) ->
             Game.crossed (Game.fieldWidth g) b = true ->
             ~ In b (Game.additionalBalls g'))
  /\ Game.playerScore g'
     = Game.playerScore (Game.checkScoring (Game.set_additionalBalls [] g))
  /\ Game.opponentScore g'
     = Game.opponentScore (Game.checkScoring (Game.set_additionalBalls [] g))
  /\ (Ball.checkScoringBoundary 0 (Game.fieldWidth g) (Game.ball g) = None ->
      Game.playerScore g' = Game.playerScore g
      /\ Game.opponentScore g' = Game.opponentScore g
      /\ Game.additionalBalls g'
         = filter (fun b => negb (Game.crossed (Game.fieldWidth g) b))
             (Game.additionalBalls g)).
Proof.
  cbv zeta.
  assert (Hnone :
    Ball.checkScoringBoundary 0 (Game.fieldWidth g) (Game.ball g) = None ->
    Game.playerScore (Game.checkScoring g) = Game.playerScore g
    /\ Game.opponentScore (Game.checkScoring g) = Game.opponentScore g
    /\ Game.additionalBalls (Game.checkScoring g)
       = filter (fun b => negb (Game.crossed (Game.fieldWidth g) b))
           (Game.additionalBalls g)).
  { intro H. unfold Game.checkScoring, Game.scoreMainBall. cbv zeta.
    rewrite H.
    destruct (settleScoring_spec false g) as (_ & _ & _ & Tps & Tos & _ & Ta).
    cbv zeta in Tps, Tos, Ta. rewrite Tps, Tos, Ta. repeat split. }
  assert (Hscores : forall h,
    Game.playerScore (Game.checkScoring h)
    = Game.playerScore (fst (Game.scoreMainBall h))
    /\ Game.opponentScore (Game.checkScoring h)
       = Game.opponentScore (fst (Game.scoreMainBall h))).
  { intro h. unfold Game.checkScoring.
    destruct (Game.scoreMainBall h) as [h1 scored]. cbn [fst].
    destruct (settleScoring_spec scored h1) as (_ & _ & _ & Tps & Tos & _).
    cbv zeta in Tps, Tos. split; assumption. }
  assert (Hmain :
    Game.playerScore (fst (Game.scoreMainBall (Game.set_additionalBalls [] g)))
    = Game.playerScore (fst (Game.scoreMainBall g))
    /\ Game.opponentScore
         (fst (Game.scoreMainBall (Game.set_additionalBalls [] g)))
       = Game.opponentScore (fst (Game.scoreMainBall g))).
  { unfold Game.scoreMainBall. cbv zeta.
    change (Game.fieldWidth (Game.set_additionalBalls [] g))
      with (Game.fieldWidth g).
    change (Game.ball (Game.set_additionalBalls [] g)) with (Game.ball g).
    change (Game.isHostRole (Game.set_additionalBalls [] g))
      with (Game.isHostRole g).
    destruct (Ball.checkScoringBoundary 0 (Game.fieldWidth g) (Game.ball g))
      as [[|]|]; cbn [fst]; [| |split; reflexivity];
      destruct (Game.isHostRole g);
      repeat match goal with
        | |- context [Game.resetBall ?s ?h] =>
            let C := fresh "C" in
            destruct (resetBall_frame s h) as [C _];
            destruct C as (_ & _ & ? & ? & _);
            generalize dependent (Game.resetBall s h); intros
        end;
      simpl in *; split; congruence. }
  split; [|split; [|split]].
  - intros b Hin Hc Hin'.
    assert (Hkept : forall h, In b (Game.additionalBalls (Game.checkScoring h))
                              -> Game.fieldWidth
                                   (fst (Game.scoreMainBall h))
                                 = Game.fieldWidth g
                              -> Game.crossed (Game.fieldWidth g) b = false).
    { intros h Hb Hw. unfold Game.checkScoring in Hb.
      destruct (Game.scoreMainBall h) as [h1 scored]. cbn [fst] in Hw.
      destruct (settleScoring_spec scored h1) as (_ & _ & _ & _ & _ & _ & Ta).
      cbv zeta in Ta. rewrite Ta, Hw in Hb.
      apply filter_In in Hb. destruct Hb as [_ Hb].
      apply negb_true_iff in Hb. exact Hb. }
    assert (Hw : Game.fieldWidth (fst (Game.scoreMainBall g))
                 = Game.fieldWidth g).
    { unfold Game.scoreMainBall. cbv zeta.
      destruct (Ball.checkScoringBoundary 0 (Game.fieldWidth g) (Game.ball g))
        as [[|]|]; cbn [fst]; [| |reflexivity];
        match goal with
        | |- context [Game.resetBall ?s ?h] =>
            destruct (resetBall_frame s h)
              as [(_ & _ & _ & _ & _ & _ & _ & _ & Hf & _) _];
            rewrite Hf
        end;
        destruct (Game.isHostRole g); reflexivity. }
    rewrite (Hkept g Hin' Hw) in Hc. discriminate.
  - rewrite (proj1 (Hscores g)),
      (proj1 (Hscores (Game.set_additionalBalls [] g))).
    symmetry. apply Hmain.
  - rewrite (proj2 (Hscores g)),
      (proj2 (Hscores (Game.set_additionalBalls [] g))).
    symmetry. apply Hmain.
  - exact Hnone.
Qed.

End ScoringClaims.

(** ** Game: the lifecycle *)

Section LifecycleFacts.
Context {M : JsMath}.

Lemma playStep_refl (g : Game.t) : playStep g g.
Proof. split; [reflexivity | left; split; reflexivity]. Qed.

Lemma playStep_trans (g1 g2 g3 : Game.t) :
  playStep g1 g2 -> playStep g2 g3 -> playStep g1 g3.
Proof.
  unfold playStep. intros (T1 & H1) (T2 & H2). split; [congruence|].
  destruct H2 as [(S2 & W2) | (S2 & W2)].
  - destruct H1 as [(S1 & W1) | (S1 & W1)].
    + left. split; congruence.
    + right. split; congruence.
  - right. split; assumption.
Qed.

Lemma sameControl_playStep (g g' : Game.t) : sameControl g g' -> playStep g g'.
Proof.
  intros (S & W & _ & _ & _ & T & _). split; [exact T | left; split; assumption].
Qed.

Lemma playStep_bind (g a : Game.t) (f : Game.t -> Game.t) :
  playStep g a -> (forall h, playStep h (f h)) -> playStep g (f a).
Proof. intros H K. exact (playStep_trans H (K a)). Qed.

Lemma settleScoring_playStep (scored : bool) (g : Game.t) :
  playStep g (Game.settleScoring scored g).
Proof.
  unfold Game.settleScoring, Game.endGame. cbv zeta.
  destruct scored;
    repeat match goal with
      | |- context [if ?c then _ else _] => destruct c
      end;
    simpl; (split; [reflexivity|]);
    solve [left; split; reflexivity
          | right; split; [reflexivity|discriminate]].
Qed.

Lemma scoreMainBall_control (g : Game.t) :
  Game.status (fst (Game.scoreMainBall g)) = Game.status g
  /\ Game.winner (fst (Game.scoreMainBall g)) = Game.winner g
  /\ Game.countdownTimeout (fst (Game.scoreMainBall g))
     = Game.countdownTimeout g.
Proof.
  unfold Game.scoreMainBall. cbv zeta.
  destruct (Ball.checkScoringBoundary 0 (Game.fieldWidth g) (Game.ball g))
    as [[|]|]; cbn [fst]; [| |repeat split; reflexivity];
    match goal with
    | |- context [Game.resetBall ?s ?h] =>
        destruct (resetBall_frame s h)
          as [(Hs & Hw & _ & _ & _ & Ht & _) _];
        rewrite Hs, Hw, Ht
    end;
    destruct (Game.isHostRole g); repeat split; reflexivity.
Qed.

Lemma checkScoring_playStep (g : Game.t) : playStep g (Game.checkScoring g).
Proof.
  unfold Game.checkScoring.
  destruct (scoreMainBall_control g) as (Hs & Hw & Ht).
  destruct (Game.scoreMainBall g) as [g1 scored]. cbn [fst] in *.
  apply (playStep_trans (g2 := g1)); [|apply settleScoring_playStep].
  split; [exact Ht | left; split; assumption].
Qed.

Ltac play_step :=
  lazymatch goal with
  | |- playStep ?g ?g => apply playStep_refl
  | |- playStep ?g (let x := ?a in @?f x) =>
      first
        [ apply (@playStep_bind g a f);
          [ | let h := fresh "h" in intro h; cbv beta ]
        | change (playStep g (f a)); cbv beta ]
  | |- playStep _ (if ?c then _ else _) => destruct c
  | |- playStep _ (match ?e with _ => _ end) => destruct e
  | |- playStep _ (Game.checkScoring _) => apply checkScoring_playStep
  | |- playStep _ (Game.updatePaddleShrinking _) =>
      apply sameControl_playStep, updatePaddleShrinking_frame
  | |- playStep _ (Game.checkPowerUpCollections _) =>
      apply sameControl_playStep, checkPowerUpCollections_frame
  | |- playStep _ (Game.checkBoundaryCollisions _) =>
      apply sameControl_playStep, checkBoundaryCollisions_frame
  | |- playStep _ (Game.checkPaddleCollisions _) =>
      apply sameControl_playStep, checkPaddleCollisions_frame
  | |- playStep _ (Game.updateGameSpeed _ _) =>
      apply sameControl_playStep, updateGameSpeed_frame
  | |- playStep _ _ => split; [reflexivity | left; split; reflexivity]
  end.

Lemma playingTick_playStep (dt : Q) (g : Game.t) :
  playStep g (Game.playingTick dt g).
Proof. cbv beta delta [Game.playingTick]. repeat play_step. Qed.

Lemma countdownStep_refl (g : Game.t) : countdownStep g g.
Proof. split; [reflexivity | left; split; reflexivity]. Qed.

Lemma countdownStep_trans (g1 g2 g3 : Game.t) :
  countdownStep g1 g2 -> countdownStep g2 g3 -> countdownStep g1 g3.
Proof.
  unfold countdownStep. intros (W1 & H1) (W2 & H2). split; [congruence|].
  destruct H2 as [(S2 & T2) | (S2 & T2)].
  - destruct H1 as [(S1 & T1) | (S1 & T1)].
    + left. split; congruence.
    + right. split; congruence.
  - right. split; assumption.
Qed.

Lemma startGame_countdownStep (g : Game.t) :
  countdownStep g (Game.startGame g)
  /\ Game.status (Game.startGame g) = PLAYING
  /\ Game.countdownTimeout (Game.startGame g) = None.
Proof.
  unfold Game.startGame. cbv zeta.
  change (Game.status (Game.set_countdownTimeout None g))
    with (Game.status g).
  destruct (GameStatus_eqb (Game.status g) PLAYING) eqn:E.
  - apply GameStatus_eqb_spec in E.
    repeat split; try assumption; try reflexivity.
    right. split; [assumption | reflexivity].
  - unfold random. cbv zeta.
    match goal with
    | |- context [Game.resetBall ?s ?h] =>
        destruct (resetBall_frame s h)
          as [(Hs & Hw & _ & _ & _ & Ht & _) _];
        generalize dependent (Game.resetBall s h); intros
    end.
    simpl in *. repeat split; try assumption.
    right. split; assumption.
Qed.

Lemma countdownTick_countdownStep (dt : Q) (g : Game.t) :
  countdownStep g (Game.countdownTick dt g).
Proof.
  unfold Game.countdownTick. cbv zeta.
  repeat match goal with
    | |- context [if ?c then _ else _] => destruct c
    end;
    repeat (eapply countdownStep_trans; [|apply startGame_countdownStep]);
    (split; [reflexivity | left; split; reflexivity]).
Qed.

Lemma lifecycle_countdownStep (g g' : Game.t) :
  Game.status g = COUNTDOWN -> countdownStep g g' ->
  lifecycleInvariant g -> lifecycleInvariant g'.
Proof.
  unfold lifecycleInvariant, countdownStep.
  intros S (W & H) (I1 & I2).
  assert (Wn : Game.winner g = None).
  { destruct (Game.winner g) eqn:E; [|reflexivity].
    assert (Game.status g = GAME_OVER) by (apply I1; discriminate).
    congruence. }
  split.
  - intro K. congruence.
  - intro K. destruct H as [(S' & T') | (S' & T')]; congruence.
Qed.

Lemma lifecycle_playStep (g g' : Game.t) :
  Game.status g = PLAYING -> playStep g g' ->
  lifecycleInvariant g -> lifecycleInvariant g'.
Proof.
  unfold lifecycleInvariant, playStep.
  intros S (T & H) (I1 & I2).
  assert (Wn : Game.winner g = None).
  { destruct (Game.winner g) eqn:E; [|reflexivity].
    assert (Game.status g = GAME_OVER) by (apply I1; discriminate).
    congruence. }
  assert (Tn : Game.countdownTimeout g = None).
  { destruct (Game.countdownTimeout g) eqn:E; [|reflexivity].
    assert (Game.status g = COUNTDOWN) by (apply I2; discriminate).
    congruence. }
  split.
  - intro K. destruct H as [(S' & W') | (S' & W')]; congruence.
  - intro K. congruence.
Qed.

(** A game with the same status, winner and pending timer is in the
    invariant too. *)
Lemma lifecycle_same (g g' : Game.t) :
  Game.status g' = Game.status g ->
  Game.winner g' = Game.winner g ->
  Game.countdownTimeout g' = Game.countdownTimeout g ->
  lifecycleInvariant g -> lifecycleInvariant g'.
Proof. unfold lifecycleInvariant. intros -> -> ->. tauto. Qed.

Lemma fixedUpdate_lifecycle (dt : Q) (g : Game.t) :
  lifecycleInvariant g -> lifecycleInvariant (Game.fixedUpdate dt g).
Proof.
  intro I. unfold Game.fixedUpdate.
  destruct (Game.status g) eqn:S; try exact I.
  - exact (lifecycle_countdownStep S (countdownTick_countdownStep dt g) I).
  - exact (lifecycle_playStep S (playingTick_playStep dt g) I).
Qed.

Lemma fixedSteps_lifecycle (fuel steps : nat) (g : Game.t) :
  lifecycleInvariant g ->
  lifecycleInvariant (fst (Game.fixedSteps fuel steps g)).
Proof.
  revert steps g. induction fuel as [|fuel IH]; intros steps g I.
  - exact I.
  - rewrite fixedSteps_unfold. destruct (_ && _); [|exact I].
    apply IH.
    apply (lifecycle_same (g := Game.fixedUpdate Game.fixedTimeStep g));
      try reflexivity.
    apply fixedUpdate_lifecycle, I.
Qed.

Lemma update_lifecycle (currentTime : Q) (g : Game.t) :
  lifecycleInvariant g -> lifecycleInvariant (Game.update currentTime g).
Proof.
  intro I. unfold Game.update, Game.updateCounting.
  destruct (Qeqb (Game.lastUpdateTime g) 0).
  - revert I. apply lifecycle_same; reflexivity.
  - assert (I1 : lifecycleInvariant (Game.accumulate currentTime g))
      by (revert I; apply lifecycle_same; reflexivity).
    pose proof (fixedSteps_lifecycle Game.maxSteps 0 I1) as I2.
    destruct (Game.fixedSteps Game.maxSteps 0 (Game.accumulate currentTime g))
      as [g1 steps].
    cbn [fst] in I2.
    destruct ((Game.maxSteps <=? steps)%nat && _); cbn [fst]; [|exact I2].
    revert I2. apply lifecycle_same; reflexivity.
Qed.

End LifecycleFacts.

Section LifecycleClaims.
Context {M : JsMath}.

Lemma setupCountdownFailsafe_countdownStep (g : Game.t) :
  Game.winner (Game.setupCountdownFailsafe g) = Game.winner g
  /\ ((Game.status (Game.setupCountdownFailsafe g) = Game.status g
       /\ Game.countdownTimeout (Game.setupCountdownFailsafe g)
          = Some Game.FailsafeTimer)
      \/ (Game.status (Game.setupCountdownFailsafe g) = PLAYING
          /\ Game.countdownTimeout (Game.setupCountdownFailsafe g) = None)).
Proof.
  unfold Game.setupCountdownFailsafe. cbv zeta.
  destruct (_ <=? 0)%Z.
  - destruct (startGame_countdownStep (Game.set_countdownTimeout None g))
      as ((W & _) & S & T).
    split; [exact W | right; split; assumption].
  - split; [reflexivity | left; split; reflexivity].
Qed.

(** [startCountdown] keeps the winner; either it returns at once, the game
    being in play or in its countdown already, or the countdown is on with
    the failsafe timer armed. *)
Lemma startCountdown_spec (g : Game.t) :
  Game.winner (Game.startCountdown g) = Game.winner g
  /\ (((Game.status g = PLAYING \/ Game.status g = COUNTDOWN)
       /\ Game.startCountdown g = g)
      \/ (Game.status (Game.startCountdown g) = COUNTDOWN
          /\ Game.countdownTimeout (Game.startCountdown g)
             = Some Game.FailsafeTimer)).
Proof.
  unfold Game.startCountdown.
  destruct (GameStatus_eqb (Game.status g) PLAYING) eqn:E1.
  { apply GameStatus_eqb_spec in E1. simpl.
    split; [reflexivity | left; split; [left; exact E1 | reflexivity]]. }
  destruct (GameStatus_eqb (Game.status g) COUNTDOWN) eqn:E2.
  { apply GameStatus_eqb_spec in E2. simpl.
    split; [reflexivity | left; split; [right; exact E2 | reflexivity]]. }
  cbn [orb]. unfold random. cbv zeta.
  match goal with
  | |- context [Game.resetBall ?s ?h] =>
      destruct (resetBall_frame s h) as [(_ & Hw & _) _];
      generalize dependent (Game.resetBall s h); intros g1 Hw
  end.
  unfold Game.setupCountdownFailsafe. cbv zeta. simpl in *.
  split; [exact Hw | right; split; reflexivity].
Qed.

Lemma startCountdown_lifecycle (g : Game.t) :
  Game.winner g = None -> lifecycleInvariant g ->
  lifecycleInvariant (Game.startCountdown g).
Proof.
  intros Wn I. destruct (startCountdown_spec g) as (W & [(_ & E) | (S & T)]).
  - rewrite E. exact I.
  - split; intro K; congruence.
Qed.

Lemma restartGame_lifecycle (g : Game.t) :
  lifecycleInvariant (Game.restartGame g).
Proof.
  unfold Game.restartGame. cbv zeta.
  match goal with
  | |- lifecycleInvariant (Game.startCountdown ?h) =>
      assert (Wn : Game.winner h = None)
        by (unfold Game.initializeGameObjects; cbv zeta;
            destruct (Game.initialPaddles _ _ _ _); reflexivity);
      assert (Tn : Game.countdownTimeout h = None)
        by (unfold Game.initializeGameObjects; cbv zeta;
            destruct (Game.initialPaddles _ _ _ _); reflexivity);
      generalize dependent h
  end.
  intros h Wn Tn.
  destruct (startCountdown_spec h) as (W & [(_ & E) | (S & T)]).
  - rewrite E. split; intro K; congruence.
  - split; intro K; congruence.
Qed.

Lemma fireCountdownTimeout_lifecycle (g : Game.t) :
  lifecycleInvariant g -> lifecycleInvariant (Game.fireCountdownTimeout g).
Proof.
  intro I. unfold Game.fireCountdownTimeout.
  destruct (Game.countdownTimeout g) as [timer|] eqn:T; [|exact I].
  assert (S : Game.status g = COUNTDOWN)
    by (apply (proj2 I); rewrite T; discriminate).
  assert (Wn : Game.winner g = None).
  { destruct (Game.winner g) eqn:E; [|reflexivity].
    assert (Game.status g = GAME_OVER)
      by (apply (proj1 I); rewrite E; discriminate).
    congruence. }
  destruct timer.
  - unfold Game.decrementCountdown. cbv zeta.
    destruct (_ <=? 0)%Z.
    + match goal with
      | |- lifecycleInvariant (Game.startGame ?h) =>
          destruct (startGame_countdownStep h) as ((W & _) & S' & T');
          pose proof (eq_refl : Game.winner h = Game.winner g) as Wh
      end.
      split; intro K; congruence.
    + split; intro K; simpl in *; congruence.
  - unfold Game.failsafeCallback. cbv zeta.
    match goal with
    | |- lifecycleInvariant (Game.setupCountdownFailsafe ?h) =>
        destruct (setupCountdownFailsafe_countdownStep h)
          as (W & [(S' & T') | (S' & T')]);
        pose proof (eq_refl : Game.winner h = Game.winner g) as Wh;
        pose proof (eq_refl : Game.status h = Game.status g) as Sh
    end;
      split; intro K; congruence.
Qed.

Lemma pauseGame_lifecycle (g : Game.t) :
  lifecycleInvariant g -> lifecycleInvariant (Game.pauseGame g).
Proof.
  intros (I1 & I2). unfold Game.pauseGame.
  destruct (GameStatus_eqb (Game.status g) PLAYING) eqn:E;
    [|split; assumption].
  apply GameStatus_eqb_spec in E.
  split; simpl; intro K;
    [specialize (I1 K) | specialize (I2 K)]; congruence.
Qed.

Lemma resumeGame_lifecycle (g : Game.t) :
  lifecycleInvariant g -> lifecycleInvariant (Game.resumeGame g).
Proof.
  intros (I1 & I2). unfold Game.resumeGame.
  destruct (GameStatus_eqb (Game.status g) PAUSED) eqn:E;
    [|split; assumption].
  apply GameStatus_eqb_spec in E.
  split; simpl; intro K;
    [specialize (I1 K) | specialize (I2 K)]; congruence.
Qed.

Lemma new_lifecycle (role : PlayerRole) (config : GameConfig) (e : Env) :
  lifecycleInvariant (Game.new role config e).
Proof.
  unfold Game.new. cbv zeta. destruct (Game.initialPaddles _ _ _ _).
  split; simpl; intro K; congruence.
Qed.

Lemma lifecycleOp_preserves (op : GameOp) (g : Game.t) :
  lifecycleOp op g -> lifecycleInvariant g ->
  lifecycleInvariant (applyGameOp op g).
Proof.
  intros L I. destruct op; cbn [applyGameOp lifecycleOp] in *;
    try contradiction.
  - apply startCountdown_lifecycle; assumption.
  - apply update_lifecycle, I.
  - apply pauseGame_lifecycle, I.
  - apply resumeGame_lifecycle, I.
  - apply restartGame_lifecycle.
  - apply fireCountdownTimeout_lifecycle, I.
  - revert I. apply lifecycle_same; reflexivity.
  - revert I. apply lifecycle_same; reflexivity.
  - revert I. apply lifecycle_same; reflexivity.
  - destruct I as (I & _). split; [exact I|].
    intro K. contradiction K. reflexivity.
Qed.

Lemma lifecycleRun_preserves (ops : list GameOp) (g : Game.t) :
  lifecycleRun ops g -> lifecycleInvariant g ->
  lifecycleInvariant (runGame ops g).
Proof.
  revert g. induction ops as [|op ops IH]; intros g R I.
  - exact I.
  - destruct R as [L R]. cbn [runGame].
    apply IH; [exact R | apply lifecycleOp_preserves; assumption].
Qed.

(** The countdown of a snapshot is defined only in the countdown, for any
    game at all. *)
Lemma getState_countdown (g : Game.t) :
  countdownOnlyInCountdown (Game.getState g).
Proof.
  unfold countdownOnlyInCountdown, Game.getState. simpl.
  destruct (GameStatus_eqb (Game.status g) COUNTDOWN) eqn:E.
  - intros _. apply GameStatus_eqb_spec, E.
  - intro K. contradiction K. reflexivity.
Qed.

(** C7, as the engine has it.  For a game driven from a new one by
    [update] (the end of the game by scoring included), [pauseGame],
    [resumeGame], [restartGame], the countdown timers, the inputs, a
    resize, [cleanup], and [startCountdown] while no winner is set, the
    snapshot of
    [getState] has a countdown only in COUNTDOWN and a winner only in
    GAME_OVER. *)
Theorem lifecycle_constraints (role : PlayerRole) (config : GameConfig)
    (e : Env) (ops : list GameOp) :
  lifecycleRun ops (Game.new role config e) ->
  countdownOnlyInCountdown
    (Game.getState (runGame ops (Game.new role config e)))
  /\ winnerOnlyInGameOver
       (Game.getState (runGame ops (Game.new role config e))).
Proof.
  intro R. split; [apply getState_countdown|].
  pose proof (@lifecycleRun_preserves ops _ R
                (new_lifecycle role config e)) as (I & _).
  intros w H. unfold Game.getState in H. simpl in *.
  apply I. injection H as H. rewrite H. discriminate.
Qed.

End LifecycleClaims.

(** ** Game: decoding a snapshot *)

Section SnapshotFacts.
Context {M : JsMath}.

Lemma Ball_setState_position (s : BallState) (b : Ball.t) :
  Ball.position (Ball.setState s b) = bs_position s.
Proof.
  unfold Ball.setState. cbv zeta.
  destruct (bs_speedScaleFactor s), (bs_hitCounter s), (bs_curveIntensity s),
    (bs_curveDirection s); reflexivity.
Qed.

(** The optional fields of a ball and of a paddle keep their values when
    the received state does not carry them. *)
Lemma Ball_setState_absent (s : BallState) (b : Ball.t) :
  let b' := Ball.setState (bareBall s) b in
  Ball.speedScaleFactor b' = Ball.speedScaleFactor b
  /\ Ball.hitCounter b' = Ball.hitCounter b
  /\ Ball.curveIntensity b' = Ball.curveIntensity b
  /\ Ball.curveDirection b' = Ball.curveDirection b.
Proof. repeat split; reflexivity. Qed.

Lemma Paddle_setState_absent (s : PaddleState) (p : Paddle.t) :
  let p' := Paddle.setState (barePaddle s) p in
  Paddle.isRebounding p' = Paddle.isRebounding p
  /\ Paddle.reboundTime p' = Paddle.reboundTime p.
Proof. split; reflexivity. Qed.

Lemma serveIfJumping_frame (old : GameStatus) (state : GameState) (g : Game.t) :
  let g' := Game.serveIfJumping old state g in
  Game.status g' = Game.status g
  /\ Game.winner g' = Game.winner g
  /\ Game.countdown g' = Game.countdown g
  /\ Game.turboModeActive g' = Game.turboModeActive g
  /\ Game.turboModeTimeRemaining g' = Game.turboModeTimeRemaining g
  /\ Game.gameSpeedMultiplier g' = Game.gameSpeedMultiplier g.
Proof.
  unfold Game.serveIfJumping, Game.resetBall, random. cbv zeta.
  destruct (_ && _); simpl; repeat split; reflexivity.
Qed.

(** Without the early return, [setState] is the copy of the snapshot. *)
Lemma setState_copies (state : GameState) (g : Game.t) :
  entersCountdown state g = false ->
  Game.setState state g
  = Game.applySnapshot state
      (Game.serveIfJumping (Game.status g) state
         (Game.set_status (gs_status state) g)).
Proof.
  unfold entersCountdown, Game.setState. cbv zeta. intros ->. reflexivity.
Qed.

(** With it, [setState] adopts the status and nothing else: the call of
    [startCountdown] finds the game in COUNTDOWN already and returns. *)
Lemma setState_early_return (state : GameState) (g : Game.t) :
  entersCountdown state g = true ->
  Game.setState state g = Game.set_status COUNTDOWN g.
Proof.
  unfold entersCountdown, Game.setState. cbv zeta. intro H. rewrite H.
  apply andb_true_iff in H. destruct H as [H _].
  apply GameStatus_eqb_spec in H.
  unfold Game.serveIfJumping, Game.startCountdown. rewrite H.
  destruct (Game.status g); reflexivity.
Qed.

Lemma applySnapshot_ball (state : GameState) (g : Game.t) :
  Game.ball (Game.applySnapshot state g)
  = Ball.setState (gs_ball state) (Game.ball g).
Proof. unfold Game.applySnapshot. frame. Qed.

Lemma applySnapshot_playerPaddle (state : GameState) (g : Game.t) :
  Game.playerPaddle (Game.applySnapshot state g)
  = Paddle.setState (gs_playerPaddle state) (Game.playerPaddle g).
Proof. unfold Game.applySnapshot. frame. Qed.

Lemma setState_ball_position (state : GameState) (g : Game.t) :
  entersCountdown state g = false ->
  Ball.position (Game.ball (Game.setState state g))
  = bs_position (gs_ball state).
Proof.
  intro H. rewrite (setState_copies _ _ H), applySnapshot_ball.
  apply Ball_setState_position.
Qed.

(** C8, as the engine has it.  A snapshot whose optional fields are all
    absent is decoded by total functions, every read of an optional field
    being guarded.  Unless [setState] takes its early return (the snapshot
    enters the countdown and the game was not in it), the winner becomes
    null, the list of additional balls becomes empty, and the countdown,
    the turbo flag, the turbo time and the speed multiplier keep their
    values; [Ball.setState] keeps the speed scale, the hit counter and the
    curve, [Paddle.setState] keeps the rebound state. *)
Theorem setState_absent_optional_fields (s : GameState) (g : Game.t)
    (b : Ball.t) (p : Paddle.t) :
  (entersCountdown (bareState s) g = false ->
   let g' := Game.setState (bareState s) g in
   Game.winner g' = None
   /\ Game.additionalBalls g' = []
   /\ Game.countdown g' = Game.countdown g
   /\ Game.turboModeActive g' = Game.turboModeActive g
   /\ Game.turboModeTimeRemaining g' = Game.turboModeTimeRemaining g
   /\ Game.gameSpeedMultiplier g' = Game.gameSpeedMultiplier g)
  /\ (let b' := Ball.setState (bareBall (gs_ball s)) b in
      Ball.speedScaleFactor b' = Ball.speedScaleFactor b
      /\ Ball.hitCounter b' = Ball.hitCounter b
      /\ Ball.curveIntensity b' = Ball.curveIntensity b
      /\ Ball.curveDirection b' = Ball.curveDirection b)
  /\ (let p' := Paddle.setState (barePaddle (gs_playerPaddle s)) p in
      Paddle.isRebounding p' = Paddle.isRebounding p
      /\ Paddle.reboundTime p' = Paddle.reboundTime p).
Proof.
  split; [|split; [apply Ball_setState_absent | apply Paddle_setState_absent]].
  intro H. cbv zeta. rewrite (setState_copies _ _ H).
  destruct (serveIfJumping_frame (Game.status g) (bareState s)
              (Game.set_status (gs_status (bareState s)) g))
    as (_ & _ & Hc & Ha & Ht & Hm).
  cbv zeta in Hc, Ha, Ht, Hm.
  generalize dependent
    (Game.serveIfJumping (Game.status g) (bareState s)
       (Game.set_status (gs_status (bareState s)) g)).
  intros g1 Hc Ha Ht Hm. simpl in Hc, Ha, Ht, Hm.
  unfold Game.applySnapshot, bareState. simpl.
  repeat split; assumption.
Qed.

End SnapshotFacts.

(** ** SyncService and GameManager: the receive path *)

Section ReceiveFacts.
Context {M : JsMath}.


(** The same for any configured threshold, and the negative side: no
    reconciliation exactly when the three differences are within it. *)
Lemma needsReconciliation_false (s : SyncService.t)
    (localState remoteState : GameState) :
  SyncService.needsReconciliation s localState remoteState = false
  <-> SyncService.ballDiff localState remoteState
        <= SyncService.reconciliationThreshold (SyncService.config s)
      /\ SyncService.playerPaddleDiff localState remoteState
           <= SyncService.reconciliationThreshold (SyncService.config s)
      /\ SyncService.opponentPaddleDiff localState remoteState
           <= SyncService.reconciliationThreshold (SyncService.config s).
Proof.
  unfold SyncService.needsReconciliation.
  rewrite !orb_false_iff, !Qgtb_false. tauto.
Qed.



Lemma needsReconciliation_config (s s' : SyncService.t)
    (localState remoteState : GameState) :
  SyncService.config s' = SyncService.config s ->
  SyncService.needsReconciliation s' localState remoteState
  = SyncService.needsReconciliation s localState remoteState.
Proof. unfold SyncService.needsReconciliation. intros ->. reflexivity. Qed.

Lemma bufferGameState_config (state : GameState) (s : SyncService.t) :
  SyncService.config (SyncService.bufferGameState state s)
  = SyncService.config s.
Proof.
  unfold SyncService.bufferGameState. cbv zeta.
  destruct (10 <=? _)%nat; reflexivity.
Qed.

Lemma syncStart_frame (m : GameManager.t) :
  GameManager.game (GameManager.syncStart m) = GameManager.game m
  /\ SyncService.config (GameManager.sync (GameManager.syncStart m))
     = SyncService.config (GameManager.sync m).
Proof.
  unfold GameManager.syncStart, SyncService.start.
  destruct (SyncService.syncTimer (GameManager.sync m)); split; reflexivity.
Qed.

(** The snapshot the soft merge builds from the local state and the
    received one. *)
Lemma onGameState_unfold (state : GameState) (m : GameManager.t) :
  GameManager.isHost m = false ->
  let localState := Game.getState (GameManager.game m) in
  let g1 :=
    if GameStatus_eqb (Game.status (GameManager.game m)) WAITING_FOR_OPPONENT
       && negb (GameStatus_eqb (gs_status state) WAITING_FOR_OPPONENT)
    then Game.setStatus (gs_status state) (GameManager.game m)
    else GameManager.game m in
  exists st,
    GameManager.game (GameManager.onGameState state m) = Game.setState st g1
    /\ gs_status st = gs_status state
    /\ gs_ball st = gs_ball state
    /\ (SyncService.needsReconciliation (GameManager.sync m) localState state
        = false ->
        gs_playerPaddle st = gs_playerPaddle localState).
Proof.
  intro Hh. cbv zeta. unfold GameManager.onGameState. rewrite Hh. cbv zeta.
  set (m1 := GameManager.set_sync
               (SyncService.bufferGameState state (GameManager.sync m)) m).
  assert (G1 : GameManager.game m1 = GameManager.game m) by reflexivity.
  assert (C1 : SyncService.config (GameManager.sync m1)
               = SyncService.config (GameManager.sync m))
    by apply bufferGameState_config.
  rewrite G1.
  change (gs_status (Game.getState (GameManager.game m)))
    with (Game.status (GameManager.game m)).
  destruct (GameStatus_eqb (Game.status (GameManager.game m))
              WAITING_FOR_OPPONENT
            && negb (GameStatus_eqb (gs_status state) WAITING_FOR_OPPONENT)).
  - set (m2 := GameManager.syncStart _).
    assert (G2 : GameManager.game m2
                 = Game.setStatus (gs_status state) (GameManager.game m)).
    { unfold m2. rewrite (proj1 (syncStart_frame _)). reflexivity. }
    assert (C2 : SyncService.config (GameManager.sync m2)
                 = SyncService.config (GameManager.sync m)).
    { unfold m2. rewrite (proj2 (syncStart_frame _)). exact C1. }
    rewrite (needsReconciliation_config _ _ _ _ C2).
    destruct (SyncService.needsReconciliation (GameManager.sync m) _ state).
    + exists state. cbn [GameManager.game GameManager.set_game].
      rewrite G2. repeat split. intro K. discriminate.
    + eexists. cbn [GameManager.game GameManager.set_game]. rewrite G2.
      split; [reflexivity|]. repeat split.
  - rewrite (needsReconciliation_config _ _ _ _ C1).
    destruct (SyncService.needsReconciliation (GameManager.sync m) _ state).
    + exists state. cbn [GameManager.game GameManager.set_game].
      rewrite G1. repeat split. intro K. discriminate.
    + eexists. cbn [GameManager.game GameManager.set_game]. rewrite G1.
      split; [reflexivity|]. repeat split.
Qed.

(** The early return of [setState] is not taken by the handler when the
    snapshot is not in COUNTDOWN, or the client is, or was waiting. *)
Lemma handler_copies (state st : GameState) (g : Game.t) :
  gs_status st = gs_status state ->
  (gs_status state = COUNTDOWN ->
   Game.status g = COUNTDOWN \/ Game.status g = WAITING_FOR_OPPONENT) ->
  entersCountdown st
    (if GameStatus_eqb (Game.status g) WAITING_FOR_OPPONENT
        && negb (GameStatus_eqb (gs_status state) WAITING_FOR_OPPONENT)
     then Game.setStatus (gs_status state) g
     else g) = false.
Proof.
  intros Es Hc. unfold entersCountdown. rewrite Es.
  destruct (GameStatus_eqb (gs_status state) COUNTDOWN) eqn:C;
    [|reflexivity].
  apply GameStatus_eqb_spec in C. cbn [andb]. apply negb_false_iff.
  rewrite C in *.
  destruct (Hc eq_refl) as [S | S]; rewrite S; simpl; rewrite ?S;
    reflexivity.
Qed.

(** C1, as the engine has it.  On a client, after the handler of a host
    snapshot the local ball is at the position of the snapshot, whether
    the differences are within the threshold (soft merge, which copies the
    ball of the snapshot as well) or above it (hard reconciliation); the
    case set aside is a snapshot in COUNTDOWN received in play, in pause
    or after the game is over, where [setState] returns early. *)
Theorem onGameState_ball_position (state : GameState) (m : GameManager.t) :
  GameManager.isHost m = false ->
  (gs_status state = COUNTDOWN ->
   Game.status (GameManager.game m) = COUNTDOWN
   \/ Game.status (GameManager.game m) = WAITING_FOR_OPPONENT) ->
  Ball.position (Game.ball (GameManager.game (GameManager.onGameState state m)))
  = bs_position (gs_ball state).
Proof.
  intros Hh Hc.
  destruct (onGameState_unfold state m Hh) as (st & E & Es & Eb & _).
  cbv zeta in E. rewrite E, <- Eb.
  apply setState_ball_position, handler_copies; assumption.
Qed.

(** What the soft merge does keep is the local player paddle: it takes the
    state it already has, and is re-clamped. *)
Lemma onGameState_soft_merge_paddle (state : GameState) (m : GameManager.t) :
  GameManager.isHost m = false ->
  (gs_status state = COUNTDOWN ->
   Game.status (GameManager.game m) = COUNTDOWN
   \/ Game.status (GameManager.game m) = WAITING_FOR_OPPONENT) ->
  SyncService.needsReconciliation (GameManager.sync m)
    (Game.getState (GameManager.game m)) state = false ->
  Paddle.position
    (Game.playerPaddle (GameManager.game (GameManager.onGameState state m)))
  = Paddle.position
      (Paddle.setPosition
         (Paddle.position (Game.playerPaddle (GameManager.game m)))
         (Game.playerPaddle (GameManager.game m))).
Proof.
  intros Hh Hc N.
  destruct (onGameState_unfold state m Hh) as (st & E & Es & Eb & K).
  cbv zeta in E, K. specialize (K N).
  rewrite E, (setState_copies _ _ (@handler_copies state st _ Es Hc)),
    applySnapshot_playerPaddle, K.
  unfold Game.serveIfJumping.
  match goal with
  | |- context [if ?c then _ else _] =>
      replace c with false
  end.
  - destruct (_ && _); reflexivity.
  - symmetry. rewrite Es.
    destruct (GameStatus_eqb (Game.status (GameManager.game m))
                WAITING_FOR_OPPONENT) eqn:W;
      destruct (GameStatus_eqb (gs_status state) WAITING_FOR_OPPONENT) eqn:V;
      cbn [andb negb Game.setStatus Game.status Game.set_status].
    + apply GameStatus_eqb_spec in W, V. rewrite W, V. reflexivity.
    + rewrite GameStatus_eqb_refl. reflexivity.
    + rewrite W. rewrite !andb_false_r. reflexivity.
    + rewrite W. rewrite !andb_false_r. reflexivity.
Qed.

End ReceiveFacts.

(** ** GameManager: control messages *)

Section ControlFacts.
Context {M : JsMath}.

(** A message the handler takes for stale changes nothing at all. *)
Lemma onGameControl_stale (action : GameControlAction) (timestamp : option Z)
    (m : GameManager.t) :
  GameManager.isStale timestamp m = true ->
  GameManager.onGameControl action timestamp m = m.
Proof. unfold GameManager.onGameControl. intros ->. reflexivity. Qed.

(** A message older than the last one processed is stale. *)
Lemma isStale_older (last : GameControlAction) (t0 t : Z) (m : GameManager.t) :
  GameManager.lastProcessedGameControl m = Some (last, t0) ->
  t0 <> 0%Z -> t <> 0%Z -> (t < t0)%Z ->
  GameManager.isStale (Some t) m = true.
Proof.
  intros L H0 Ht Hlt. unfold GameManager.isStale, truthy. rewrite L.
  apply Z.eqb_neq in H0, Ht. rewrite H0, Ht. apply Z.ltb_lt in Hlt.
  rewrite Hlt. reflexivity.
Qed.

(** A message with the timestamp of the last one processed is not. *)
Lemma isStale_same (last : GameControlAction) (t0 : Z) (m : GameManager.t) :
  GameManager.lastProcessedGameControl m = Some (last, t0) ->
  GameManager.isStale (Some t0) m = false.
Proof.
  intro L. unfold GameManager.isStale. rewrite L, Z.ltb_irrefl.
  apply andb_false_r.
Qed.

(** The part of C2 the handler does implement: a control message older
    than the last one processed is dropped; so a PAUSE of time [t] that
    arrives after the RESUME of a later time was processed leaves the
    status as it is. *)
Lemma stale_control_is_dropped (action last : GameControlAction) (t0 t : Z)
    (m : GameManager.t) :
  GameManager.lastProcessedGameControl m = Some (last, t0) ->
  t0 <> 0%Z -> t <> 0%Z -> (t < t0)%Z ->
  GameManager.onGameControl action (Some t) m = m.
Proof.
  intros L H0 Ht Hlt. apply onGameControl_stale.
  exact (isStale_older m L H0 Ht Hlt).
Qed.

Lemma processed_control_is_recorded (action : GameControlAction) (t : Z)
    (m : GameManager.t) :
  t <> 0%Z ->
  GameManager.isStale (Some t) m = false ->
  action <> START ->
  GameManager.lastProcessedGameControl
    (GameManager.onGameControl action (Some t) m) = Some (action, t).
Proof.
  intros Ht Hs Ha. unfold GameManager.onGameControl. rewrite Hs.
  apply Z.eqb_neq in Ht. unfold orElse. rewrite Ht. cbv zeta.
  destruct action; try (contradiction Ha; reflexivity);
    unfold GameManager.pauseGame, GameManager.resumeGame,
      GameManager.restartGame, GameManager.sendGameControl,
      GameManager.sendMessage;
    cbv zeta;
    repeat match goal with
      | |- context [if ?c then _ else _] => destruct c
      end;
    reflexivity.
Qed.

End ControlFacts.

(** C2, a failing input.  A host connected to its client receives
    GAME_CONTROL RESTART with timestamp 100 twice.  The first delivery is
    processed and recorded.  The second one carries the same timestamp,
    which is not older than the recorded one: it is processed again, and
    the restart runs a second time.  It finds the countdown of the first
    one going, cancels its failsafe timer, puts a ball at rest back in the
    middle, does not start a countdown of its own since the status is
    COUNTDOWN already, and sends RESTART to the client once more: the
    second delivery has changed the state. *)
Theorem duplicate_restart_is_processed :
  let m1 :=
    GameManager.onGameControl (M := rationalMath) RESTART (Some 100%Z)
      hostManager in
  let m2 :=
    GameManager.onGameControl (M := rationalMath) RESTART (Some 100%Z) m1 in
  GameManager.lastProcessedGameControl m1 = Some (RESTART, 100%Z)
  /\ GameManager.isStale (Some 100%Z) m1 = false
  /\ Game.status (GameManager.game m1) = COUNTDOWN
  /\ Game.countdownTimeout (GameManager.game m1) = Some Game.FailsafeTimer
  /\ Game.status (GameManager.game m2) = COUNTDOWN
  /\ Game.countdownTimeout (GameManager.game m2) = None
  /\ Ball.velocity (Game.ball (GameManager.game m2)) = mkVec 0 0
  /\ length (GameManager.outbox m1) = 1%nat
  /\ length (GameManager.outbox m2) = 2%nat
  /\ m2 <> m1.
Proof.
  cbv zeta.
  assert (T1 : Game.countdownTimeout
                 (GameManager.game
                    (GameManager.onGameControl (M := rationalMath) RESTART
                       (Some 100%Z) hostManager))
               = Some Game.FailsafeTimer)
    by (vm_compute; reflexivity).
  assert (T2 : Game.countdownTimeout
                 (GameManager.game
                    (GameManager.onGameControl (M := rationalMath) RESTART
                       (Some 100%Z)
                       (GameManager.onGameControl (M := rationalMath) RESTART
                          (Some 100%Z) hostManager)))
               = None)
    by (vm_compute; reflexivity).
  repeat match goal with
    | |- _ /\ _ => split
    end;
    try (vm_compute; reflexivity); try assumption.
  intro E. rewrite E, T1 in T2. discriminate T2.
Qed.

(** ** Ball: state transfer, walls, speed cap and paddle hits *)

Section BallWalls.
Context {M : JsMath}.

(** Snapshots of a ball round-trip: a ball that takes the state of another
    one reports exactly that state afterwards, keeps its own base speed and
    speed limit, and a ball that takes its own state is unchanged. *)
Theorem Ball_state_round_trip (b b' : Ball.t) :
  Ball.getState (Ball.setState (Ball.getState b) b') = Ball.getState b
  /\ Ball.baseSpeed (Ball.setState (Ball.getState b) b') = Ball.baseSpeed b'
  /\ Ball.maxSpeed (Ball.setState (Ball.getState b) b') = Ball.maxSpeed b'
  /\ Ball.setState (Ball.getState b) b = b.
Proof. destruct b, b'. repeat split; reflexivity. Qed.

(** Bouncing off the top and bottom walls.  The test looks one whole
    velocity vector ahead, not one frame: the ball bounces when its disc,
    moved by [velocity.y], would touch or cross a wall.  A bounce keeps the
    horizontal position and velocity and the vertical speed, turns the ball
    away from the wall and puts it a tenth of a pixel inside it; without a
    bounce the ball is unchanged. *)
Theorem checkBoundaryCollision_bounce (boundaryTop boundaryBottom : Q)
    (b : Ball.t) :
  let b' := fst (Ball.checkBoundaryCollision boundaryTop boundaryBottom b) in
  let hit := snd (Ball.checkBoundaryCollision boundaryTop boundaryBottom b) in
  let nextY := y (Ball.position b) + y (Ball.velocity b) in
  x (Ball.position b') = x (Ball.position b)
  /\ x (Ball.velocity b') = x (Ball.velocity b)
  /\ Qabs (y (Ball.velocity b')) == Qabs (y (Ball.velocity b))
  /\ (hit = false <->
      boundaryTop < nextY - Ball.radius b
      /\ nextY + Ball.radius b < boundaryBottom)
  /\ (hit = false -> b' = b)
  /\ (hit = true ->
      (0 <= y (Ball.velocity b')
       /\ y (Ball.position b') == boundaryTop + Ball.radius b + 0.1)
      \/ (y (Ball.velocity b') <= 0
          /\ y (Ball.position b') == boundaryBottom - Ball.radius b - 0.1)).
Proof.
  cbv zeta. unfold Ball.checkBoundaryCollision. cbv zeta.
  destruct (Qleb _ boundaryTop) eqn:T.
  - apply Qleb_spec in T. cbn.
    split; [reflexivity|]. split; [reflexivity|].
    split; [apply Qabs_pos, Qabs_nonneg|].
    split; [split; [intro H; discriminate H | intros [H _]; exfalso; lra]|].
    split; [intro H; discriminate H|].
    intros _. left. split; [apply Qabs_nonneg | reflexivity].
  - apply Qleb_false in T.
    destruct (Qgeb _ boundaryBottom) eqn:B.
    + apply Qgeb_spec in B. cbn.
      split; [reflexivity|]. split; [reflexivity|].
      split; [eapply Qeq_trans; [apply Qabs_opp | apply Qabs_pos, Qabs_nonneg]|].
      split; [split; [intro H; discriminate H | intros [_ H]; exfalso; lra]|].
      split; [intro H; discriminate H|].
      intros _. right. split; [|reflexivity].
      pose proof (Qabs_nonneg (y (Ball.velocity b))). lra.
    + apply Qgeb_false in B. cbn.
      split; [reflexivity|]. split; [reflexivity|]. split; [reflexivity|].
      split; [split; [intros _; split; assumption | reflexivity]|].
      split; [reflexivity|].
      intro H; discriminate H.
Qed.

End BallWalls.

Section BallSpeedCap.
Context {M : JsMath}.

Lemma Qsign_cases (a : Q) :
  (0 < a /\ Qsign a = 1) \/ (a < 0 /\ Qsign a = -1) \/ (a == 0 /\ Qsign a = 0).
Proof.
  unfold Qsign.
  destruct (Qgtb a 0) eqn:G.
  - apply Qgtb_spec in G. left. split; [exact G | reflexivity].
  - apply Qgtb_false in G.
    destruct (Qltb a 0) eqn:L.
    + apply Qltb_spec in L. right; left. split; [exact L | reflexivity].
    + apply Qltb_false in L. right; right. split; [lra | reflexivity].
Qed.

Lemma Qabs_gt_cases (a s : Q) : Qgtb (Qabs a) s = true -> s < a \/ a < - s.
Proof.
  intro H. apply Qgtb_spec in H.
  destruct (Qlt_le_dec a 0) as [N|P].
  - rewrite (Qabs_neg a) in H by lra. right. lra.
  - rewrite (Qabs_pos a) in H by lra. left. lra.
Qed.

Lemma capped_component (a s : Q) :
  0 <= s ->
  let a' := if Qgtb (Qabs a) s then s * Qsign a else a in
  Qabs a' <= s /\ (Qabs a <= s -> a' = a) /\ 0 <= a * a'.
Proof.
  intros Hs. cbv zeta.
  destruct (Qgtb (Qabs a) s) eqn:G.
  - pose proof (Qabs_gt_cases _ _ G) as C.
    apply Qgtb_spec in G.
    destruct (Qsign_cases a) as [[Ha ->] | [[Ha ->] | [Ha ->]]].
    + split; [apply Qabs_Qle_condition; lra|].
      split; [intro; lra | nra].
    + split; [apply Qabs_Qle_condition; lra|].
      split; [intro; lra | nra].
    + exfalso. destruct C; lra.
  - apply Qgtb_false in G.
    split; [exact G|]. split; [reflexivity | nra].
Qed.

(** [setMaxSpeed] with a limit that is not negative records the limit and
    clips each component of the velocity to it: afterwards neither
    component exceeds the limit, a component within the limit is kept, no
    component changes its direction, and the ball stays where it is. *)
Theorem setMaxSpeed_bounds (speed : Q) (b : Ball.t) :
  0 <= speed ->
  let b' := Ball.setMaxSpeed speed b in
  Ball.maxSpeed b' = speed
  /\ Qabs (x (Ball.velocity b')) <= speed
  /\ Qabs (y (Ball.velocity b')) <= speed
  /\ (Qabs (x (Ball.velocity b)) <= speed ->
      x (Ball.velocity b') = x (Ball.velocity b))
  /\ (Qabs (y (Ball.velocity b)) <= speed ->
      y (Ball.velocity b') = y (Ball.velocity b))
  /\ 0 <= x (Ball.velocity b) * x (Ball.velocity b')
  /\ 0 <= y (Ball.velocity b) * y (Ball.velocity b')
  /\ Ball.position b' = Ball.position b.
Proof.
  intros Hs. cbv zeta.
  destruct (capped_component (x (Ball.velocity b)) Hs) as (X1 & X2 & X3).
  destruct (capped_component (y (Ball.velocity b)) Hs) as (Y1 & Y2 & Y3).
  cbv zeta in X1, X2, X3, Y1, Y2, Y3.
  unfold Ball.setMaxSpeed. cbv zeta. simpl.
  destruct (Qgtb (Qabs (x (Ball.velocity b))) speed); simpl;
    destruct (Qgtb (Qabs (y (Ball.velocity b))) speed); simpl;
    repeat split; auto.
Qed.

End BallSpeedCap.

Section BallPaddleHit.
Context {M : JsMath}.

Lemma increaseBallSpeed_frame (b : Ball.t) (e : Env) :
  let b' := fst (Ball.increaseBallSpeed b e) in
  let e' := snd (Ball.increaseBallSpeed b e) in
  Ball.position b' = Ball.position b
  /\ Ball.radius b' = Ball.radius b
  /\ clock e' = clock e.
Proof.
  unfold Ball.increaseBallSpeed, random. simpl.
  destruct (normalizeVelocity_scale
              (Ball.set_speedScaleFactor
                 (Ball.hitScale (Ball.hitCounter b + 1)
                    (draws e (cursor e)))
                 (Ball.set_hitCounter (Ball.hitCounter b + 1)%Z b)))
    as (_ & _ & Hp & Hr).
  rewrite Hp, Hr. simpl. repeat split; reflexivity.
Qed.

(** What a paddle test does to the ball.  Without contact the ball and the
    stream of draws are untouched.  With contact the hit counter goes up by
    one, the speed scale is the one computed from the new count and one
    draw, it is at most [maxSpeedScale], exactly one draw is taken, the
    radius and the height of the ball are kept, and a ball that was coming
    towards the paddle is put a tenth of a pixel in front of it, while one
    that was not keeps its horizontal position. *)
Theorem checkPaddleCollision_effects
    (paddleX paddleY paddleWidth paddleHeight : Q) (isLeftPaddle : bool)
    (b : Ball.t) (e : Env) :
  let r :=
    Ball.checkPaddleCollision paddleX paddleY paddleWidth paddleHeight
      isLeftPaddle b e in
  let b' := fst (fst r) in
  let e' := snd (fst r) in
  (snd r = false -> b' = b /\ e' = e)
  /\ (snd r = true ->
      Ball.hitCounter b' = (Ball.hitCounter b + 1)%Z
      /\ Ball.speedScaleFactor b'
         = Ball.hitScale (Ball.hitCounter b + 1) (draws e (cursor e))
      /\ Ball.speedScaleFactor b' <= Ball.maxSpeedScale
      /\ cursor e' = S (cursor e)
      /\ Ball.radius b' = Ball.radius b
      /\ y (Ball.position b') = y (Ball.position b)
      /\ x (Ball.position b')
         = if isLeftPaddle then
             if Qltb (x (Ball.velocity b)) 0
             then paddleX + paddleWidth + Ball.radius b + 0.1
             else x (Ball.position b)
           else
             if Qgtb (x (Ball.velocity b)) 0
             then paddleX - paddleWidth - Ball.radius b - 0.1
             else x (Ball.position b)).
Proof.
  cbv zeta. unfold Ball.checkPaddleCollision. cbv zeta.
  destruct (Qleb _ (Ball.radius b * Ball.radius b)).
  2:{ simpl. split; [intros _; split; reflexivity | intro H; discriminate H]. }
  match goal with
  | |- context [Ball.increaseBallSpeed ?b3 e] =>
      assert (F : Ball.position b3 = Ball.position b
                  /\ Ball.radius b3 = Ball.radius b
                  /\ Ball.hitCounter b3 = Ball.hitCounter b)
        by (repeat match goal with
              | |- context [if ?c then _ else _] => destruct c
              end; repeat split; reflexivity);
      pose proof (increaseBallSpeed_spec b3 e) as S;
      pose proof (increaseBallSpeed_frame b3 e) as G;
      destruct (Ball.increaseBallSpeed b3 e) as [b4 e4]
  end.
  cbv zeta in S, G. cbn [fst snd] in S, G.
  destruct F as (Fp & Fr & Fh).
  destruct S as (Sh & Ss & _ & Sc). destruct G as (Gp & Gr & _).
  rewrite Fh in Sh, Ss. rewrite Fp in Gp. rewrite Fr in Gr.
  split; [intro H; discriminate H|]. intros _.
  destruct isLeftPaddle;
    [destruct (Qltb (x (Ball.velocity b)) 0)
    | destruct (Qgtb (x (Ball.velocity b)) 0)];
    cbn; rewrite ?Gp, ?Gr;
    (split; [exact Sh|]); (split; [exact Ss|]);
    (split; [rewrite Ss; apply hitScale_cap|]);
    (split; [exact Sc|]); (split; [first [reflexivity | exact Gr]|]);
    split; reflexivity.
Qed.

End BallPaddleHit.

Section BallSendBack.
Context {M : JsMath}.

Lemma hitScale_nonneg (hits : Z) (r : Q) :
  (0 <= hits)%Z -> 0 <= r -> 0 <= Ball.hitScale hits r.
Proof.
  intros Hh Hr. unfold Ball.hitScale, Ball.maxSpeedScale, Ball.hitSpeedIncrement.
  assert (Hq : 0 <= inject_Z hits).
  { change 0 with (inject_Z 0). rewrite <- Zle_Qle. exact Hh. }
  apply Q.min_glb; [lra|].
  assert (0 <= inject_Z hits * 0.08 * (1 + r * 0.2)); [|lra].
  apply Qmult_le_0_compat; [|lra].
  apply Qmult_le_0_compat; lra.
Qed.

Lemma normalizeVelocity_sign (b : Ball.t) :
  sqrtNonneg ->
  0 <= Ball.baseSpeed b * Ball.speedScaleFactor b ->
  (0 <= x (Ball.velocity b) -> 0 <= x (Ball.velocity (Ball.normalizeVelocity b)))
  /\ (x (Ball.velocity b) <= 0 ->
      x (Ball.velocity (Ball.normalizeVelocity b)) <= 0).
Proof.
  intros Hs Hb. unfold Ball.normalizeVelocity. cbv zeta.
  destruct (Qgtb _ 0) eqn:G; [|split; intro; assumption].
  apply Qgtb_spec in G.
  set (c := Msqrt _) in *.
  assert (F : 0 <= Ball.baseSpeed b * Ball.speedScaleFactor b / c).
  { unfold Qdiv. apply Qmult_le_0_compat; [exact Hb|].
    apply Qlt_le_weak, Qinv_lt_0_compat, G. }
  simpl. split; intro H.
  - apply Qmult_le_0_compat; assumption.
  - assert (0 <= (- x (Ball.velocity b))
                 * (Ball.baseSpeed b * Ball.speedScaleFactor b / c)).
    { apply Qmult_le_0_compat; [lra | exact F]. }
    lra.
Qed.

Lemma increaseBallSpeed_sign (b : Ball.t) (e : Env) :
  sqrtNonneg -> 0 <= Ball.baseSpeed b -> (0 <= Ball.hitCounter b)%Z ->
  0 <= draws e (cursor e) ->
  let b' := fst (Ball.increaseBallSpeed b e) in
  (0 <= x (Ball.velocity b) -> 0 <= x (Ball.velocity b'))
  /\ (x (Ball.velocity b) <= 0 -> x (Ball.velocity b') <= 0).
Proof.
  intros Hs Hb Hh Hr. unfold Ball.increaseBallSpeed, random. simpl.
  match goal with
  | |- context [Ball.normalizeVelocity ?b2] =>
      apply (@normalizeVelocity_sign b2 Hs)
  end.
  simpl. apply Qmult_le_0_compat; [exact Hb|].
  apply hitScale_nonneg; [lia | exact Hr].
Qed.

(** A hit sends the ball back: when the square root does not answer
    negative numbers, the base speed, the hit count and the draw are not
    negative, a ball in contact with the left paddle leaves with a
    horizontal velocity that is not negative and a ball in contact with the
    right paddle with one that is not positive.  For the left paddle the
    ball must have had some horizontal velocity: the steep-angle correction
    takes a horizontal velocity of 0 for a leftward one. *)
Theorem checkPaddleCollision_sends_back
    (paddleX paddleY paddleWidth paddleHeight : Q) (isLeftPaddle : bool)
    (b : Ball.t) (e : Env) :
  sqrtNonneg ->
  0 <= Ball.baseSpeed b -> (0 <= Ball.hitCounter b)%Z ->
  0 <= draws e (cursor e) ->
  (isLeftPaddle = true -> ~ x (Ball.velocity b) == 0) ->
  let r :=
    Ball.checkPaddleCollision paddleX paddleY paddleWidth paddleHeight
      isLeftPaddle b e in
  snd r = true ->
  if isLeftPaddle then 0 <= x (Ball.velocity (fst (fst r)))
  else x (Ball.velocity (fst (fst r))) <= 0.
Proof.
  intros Hs Hb Hh Hr Hx. cbv zeta.
  unfold Ball.checkPaddleCollision. cbv zeta.
  destruct (Qleb _ (Ball.radius b * Ball.radius b));
    [|intro H; discriminate H].
  intros _.
  assert (A : 0 <= Qabs (x (Ball.velocity b))) by apply Qabs_nonneg.
  match goal with
  | |- context [Ball.increaseBallSpeed ?b3 e] =>
      assert (F : Ball.baseSpeed b3 = Ball.baseSpeed b
                  /\ Ball.hitCounter b3 = Ball.hitCounter b
                  /\ if isLeftPaddle then 0 <= x (Ball.velocity b3)
                     else x (Ball.velocity b3) <= 0);
      [| destruct F as (Fb & Fh & Fx);
         rewrite <- Fb in Hb; rewrite <- Fh in Hh;
         pose proof (increaseBallSpeed_sign b3 e Hs Hb Hh Hr) as S;
         destruct (Ball.increaseBallSpeed b3 e) as [b4 e4] ]
  end.
  2:{ cbv zeta in S. cbn [fst snd] in S. destruct S as [S1 S2].
      destruct isLeftPaddle.
      - destruct (Qltb (x (Ball.velocity b)) 0); cbn; apply S1, Fx.
      - destruct (Qgtb (x (Ball.velocity b)) 0); cbn; apply S2, Fx. }
  destruct isLeftPaddle.
  - assert (P : Qgtb (Qabs (x (Ball.velocity b))) 0 = true).
    { apply Qgtb_spec. specialize (Hx eq_refl).
      destruct (Qlt_le_dec (x (Ball.velocity b)) 0) as [N|P].
      - rewrite Qabs_neg by lra. lra.
      - rewrite Qabs_pos by lra.
        destruct (Qle_lt_or_eq _ _ P) as [L|E]; [exact L|].
        exfalso. apply Hx. symmetry. exact E. }
    destruct (Qgtb (Qabs _) 0.3);
      (destruct (Qgtb (Qabs (_ / _)) 0.85); cbn;
       [rewrite P | ]; (split; [reflexivity|]); (split; [reflexivity|]);
       [ match goal with
         | |- 0 <= Msqrt ?s * 1 => pose proof (Hs s); lra
         end
       | exact A ]).
  - assert (P : Qgtb (- Qabs (x (Ball.velocity b))) 0 = false)
      by (apply Qgtb_false; lra).
    destruct (Qgtb (Qabs _) 0.3);
      (destruct (Qgtb (Qabs (_ / _)) 0.85); cbn;
       [rewrite P | ]; (split; [reflexivity|]); (split; [reflexivity|]);
       [ match goal with
         | |- Msqrt ?s * _ <= 0 => pose proof (Hs s); lra
         end
       | lra ]).
Qed.

End BallSendBack.

(** ** Paddle: resizing and dashing *)

Lemma Qabs_cases (a : Q) :
  (0 <= a /\ Qabs a == a) \/ (a < 0 /\ Qabs a == - a).
Proof.
  destruct (Qlt_le_dec a 0) as [N|P].
  - right. split; [exact N | apply Qabs_neg; lra].
  - left. split; [exact P | apply Qabs_pos; exact P].
Qed.

Section PaddleResize.
Context {M : JsMath}.

(** Resizing is gradual and never overshoots: one update with a frame time
    that is not negative keeps the target, leaves the height between the
    old height and the target, brings it closer to the target by
    [resizeRate * deltaTime], and lands exactly on the target once the gap
    is within that step. *)
Theorem updatePaddleSize_approach (deltaTime : Q) (p : Paddle.t) :
  0 <= deltaTime ->
  let p' := Paddle.updatePaddleSize deltaTime p in
  let gap := Qabs (Paddle.targetHeight p - Paddle.height p) in
  let gap' := Qabs (Paddle.targetHeight p - Paddle.height p') in
  Paddle.targetHeight p' = Paddle.targetHeight p
  /\ Qmin (Paddle.height p) (Paddle.targetHeight p) <= Paddle.height p'
  /\ Paddle.height p' <= Qmax (Paddle.height p) (Paddle.targetHeight p)
  /\ gap' <= gap
  /\ (gap <= Paddle.resizeRate * deltaTime ->
      Paddle.height p' == Paddle.targetHeight p)
  /\ (Paddle.resizeRate * deltaTime <= gap ->
      gap' == gap - Paddle.resizeRate * deltaTime).
Proof.
  intros Hd. cbv zeta. unfold Paddle.updatePaddleSize, Paddle.resizeRate.
  cbv zeta.
  set (h := Paddle.height p). set (t := Paddle.targetHeight p).
  destruct (Qeqb h t) eqn:E.
  - apply Qeqb_spec in E. cbn [negb]. fold h t.
    destruct (Q.min_spec h t) as [[A1 A2]|[A1 A2]];
      destruct (Q.max_spec h t) as [[B1 B2]|[B1 B2]];
      destruct (Qabs_cases (t - h)) as [[C1 C2]|[C1 C2]];
      repeat split; intros; try reflexivity; lra.
  - assert (N : ~ h == t).
    { intro K. apply Qeqb_spec in K. congruence. }
    cbn [negb].
    destruct (Qltb h t) eqn:L.
    + apply Qltb_spec in L.
      cbn -[Qabs Qmin Qmax Qplus Qminus Qmult Qopp Qdiv Qle Qeq]. fold h t.
      destruct (Q.min_spec t (h + 50 * deltaTime)) as [[D1 D2]|[D1 D2]];
        destruct (Q.min_spec h t) as [[A1 A2]|[A1 A2]];
        destruct (Q.max_spec h t) as [[B1 B2]|[B1 B2]];
        destruct (Qabs_cases (t - h)) as [[C1 C2]|[C1 C2]];
        destruct (Qabs_cases (t - Qmin t (h + 50 * deltaTime)))
          as [[F1 F2]|[F1 F2]];
        repeat split; intros; try reflexivity; lra.
    + apply Qltb_false in L.
      cbn -[Qabs Qmin Qmax Qplus Qminus Qmult Qopp Qdiv Qle Qeq]. fold h t.
      destruct (Q.max_spec t (h - 50 * deltaTime)) as [[D1 D2]|[D1 D2]];
        destruct (Q.min_spec h t) as [[A1 A2]|[A1 A2]];
        destruct (Q.max_spec h t) as [[B1 B2]|[B1 B2]];
        destruct (Qabs_cases (t - h)) as [[C1 C2]|[C1 C2]];
        destruct (Qabs_cases (t - Qmax t (h - 50 * deltaTime)))
          as [[F1 F2]|[F1 F2]];
        repeat split; intros; try reflexivity; lra.
Qed.

End PaddleResize.

Section PaddleDash.
Context {M : JsMath}.

Lemma updatePaddleSize_dash (dt : Q) (p : Paddle.t) :
  let p' := Paddle.updatePaddleSize dt p in
  Paddle.isDashing p' = Paddle.isDashing p
  /\ Paddle.isRebounding p' = Paddle.isRebounding p
  /\ Paddle.dashCooldown p' = Paddle.dashCooldown p
  /\ Paddle.dashDuration p' = Paddle.dashDuration p.
Proof.
  unfold Paddle.updatePaddleSize. cbv zeta.
  destruct (negb _); [destruct (Qltb _ _)|]; repeat split; reflexivity.
Qed.

Lemma placeY_dash (newY : Q) (p : Paddle.t) :
  let p' := Paddle.placeY newY p in
  Paddle.isDashing p' = Paddle.isDashing p
  /\ Paddle.isRebounding p' = Paddle.isRebounding p
  /\ Paddle.dashCooldown p' = Paddle.dashCooldown p
  /\ Paddle.dashDuration p' = Paddle.dashDuration p.
Proof. repeat split; reflexivity. Qed.

(** A dash runs its time and is followed by a cooldown, for a paddle that
    is not rebounding.  While the time of the dash is longer than the
    frame, the paddle keeps dashing, the time left goes down by the frame
    time and a new dash is refused.  On the
    frame that uses the time up, the dash ends, the cooldown starts at
    [maxDashCooldown] less that frame, and a new dash is refused as long as
    some cooldown is left. *)
Theorem dash_then_cooldown (deltaTime : Q) (p : Paddle.t) :
  Paddle.isRebounding p = false -> Paddle.isDashing p = true ->
  let p' := Paddle.update deltaTime p in
  (Paddle.dashDuration p <= deltaTime ->
   Paddle.isDashing p' = false
   /\ Paddle.dashCooldown p' == Qmax 0 (Paddle.maxDashCooldown - deltaTime)
   /\ (deltaTime < Paddle.maxDashCooldown ->
       Paddle.attemptDash p' = (p', false)))
  /\ (deltaTime < Paddle.dashDuration p ->
      Paddle.isDashing p' = true
      /\ Paddle.dashDuration p' == Paddle.dashDuration p - deltaTime
      /\ Paddle.attemptDash p' = (p', false)).
Proof.
  intros Hr Hd. cbv zeta.
  unfold Paddle.update. rewrite Hr, Hd. cbv zeta.
  set (p1 := Paddle.updateDash deltaTime p).
  assert (D1 : Paddle.isRebounding p1 = false
               /\ Paddle.dashDuration p1 = Paddle.dashDuration p - deltaTime
               /\ (Paddle.dashDuration p <= deltaTime ->
                   Paddle.isDashing p1 = false
                   /\ Paddle.dashCooldown p1 = Paddle.maxDashCooldown)
               /\ (deltaTime < Paddle.dashDuration p ->
                   Paddle.isDashing p1 = true
                   /\ Paddle.dashCooldown p1 = Paddle.dashCooldown p)).
  { unfold p1, Paddle.updateDash. cbv zeta.
    destruct (negb _);
      (destruct (Qleb _ 0) eqn:E;
       [apply Qleb_spec in E | apply Qleb_false in E];
       cbn -[Qminus Qle Qlt] in *;
       (split; [exact Hr|]); (split; [reflexivity|]);
       split; intro H;
       first [ split; [first [reflexivity | exact Hd]| reflexivity]
             | exfalso; lra ]). }
  destruct D1 as (R1 & U1 & E1 & E2).
  set (p2 := if Qgtb (Paddle.dashCooldown p1) 0
             then Paddle.set_dashCooldown
                    (Qmax 0 (Paddle.dashCooldown p1 - deltaTime)) p1
             else p1).
  assert (D2 : Paddle.isRebounding p2 = false
               /\ Paddle.dashDuration p2 = Paddle.dashDuration p1
               /\ Paddle.isDashing p2 = Paddle.isDashing p1
               /\ Paddle.dashCooldown p2
                  = if Qgtb (Paddle.dashCooldown p1) 0
                    then Qmax 0 (Paddle.dashCooldown p1 - deltaTime)
                    else Paddle.dashCooldown p1).
  { unfold p2. destruct (Qgtb (Paddle.dashCooldown p1) 0);
      repeat split; assumption || reflexivity. }
  destruct D2 as (R2 & U2 & I2 & C2).
  destruct (updatePaddleSize_dash deltaTime p2) as (I3 & R3 & C3 & U3).
  cbv zeta in I3, R3, C3, U3.
  set (p3 := Paddle.updatePaddleSize deltaTime p2) in *.
  match goal with
  | |- context [if Qgtb (Paddle.height p3) _ then ?q else p3] =>
      assert (D4 : let p4 := if Qgtb (Paddle.height p3) Paddle.minPaddleHeight
                             then q else p3 in
                   Paddle.isDashing p4 = Paddle.isDashing p3
                   /\ Paddle.isRebounding p4 = Paddle.isRebounding p3
                   /\ Paddle.dashCooldown p4 = Paddle.dashCooldown p3
                   /\ Paddle.dashDuration p4 = Paddle.dashDuration p3)
        by (cbv zeta;
            destruct (Qgtb (Paddle.height p3) Paddle.minPaddleHeight);
            repeat split; reflexivity);
      cbv zeta in D4;
      set (p4 := if Qgtb (Paddle.height p3) Paddle.minPaddleHeight
                 then q else p3) in *
  end.
  destruct D4 as (I4 & R4 & C4 & U4).
  split; intro H.
  - destruct (E1 H) as [Ei Ec].
    assert (Ci : Paddle.dashCooldown p4
                 = Qmax 0 (Paddle.maxDashCooldown - deltaTime)).
    { rewrite C4, C3, C2, Ec. reflexivity. }
    split; [congruence|]. split; [rewrite Ci; reflexivity|].
    intro Hlt. unfold Paddle.attemptDash.
    replace (Qleb (Paddle.dashCooldown p4) 0) with false.
    + rewrite !andb_false_r. reflexivity.
    + symmetry. apply Qleb_false. rewrite Ci.
      apply Q.max_lt_iff. right. lra.
  - destruct (E2 H) as [Ei Ec].
    split; [congruence|]. split; [rewrite U4, U3, U2, U1; reflexivity|].
    unfold Paddle.attemptDash.
    replace (Paddle.isDashing p4) with true by congruence.
    reflexivity.
Qed.

End PaddleDash.

(** ** Power-ups: collection and spawning *)

Section PowerUpCollection.
Context {M : JsMath}.

Lemma collect_first (ballPosition : Vector2D) (ballRadius : Q)
    (isPlayer : bool) (now : Z) (seen rest : list PowerUp) :
  match PowerUpManager.collect ballPosition ballRadius isPlayer now seen rest
  with
  | Some (powerUp, field) =>
      exists before p after,
        rest = before ++ p :: after
        /\ forallb (fun q => negb (touches ballPosition ballRadius q)) before
           = true
        /\ touches ballPosition ballRadius p = true
        /\ powerUp = stamped isPlayer now p
        /\ field = seen ++ before ++ after
  | None =>
      forallb (fun q => negb (touches ballPosition ballRadius q)) rest = true
  end.
Proof.
  revert seen. induction rest as [|p rest IH]; intro seen.
  - reflexivity.
  - cbn [PowerUpManager.collect]. cbv zeta.
    change (Qltb _ (ballRadius + pu_radius p))
      with (touches ballPosition ballRadius p).
    destruct (touches ballPosition ballRadius p) eqn:T.
    + exists [], p, rest. repeat split; try reflexivity. exact T.
    + specialize (IH (seen ++ [p])).
      destruct (PowerUpManager.collect _ _ _ _ (seen ++ [p]) rest)
        as [[powerUp field]|].
      * destruct IH as (before & q & after & E & B & Tq & S & F).
        exists (p :: before), q, after.
        split; [rewrite E; reflexivity|].
        split; [cbn [forallb]; rewrite T, B; reflexivity|].
        split; [exact Tq|]. split; [exact S|].
        rewrite F, <- app_assoc. reflexivity.
      * cbn [forallb]. rewrite T, IH. reflexivity.
Qed.

(** A ball collects at most one power-up per test, the first one in the
    list that it touches: that one leaves the field, keeps the order of the
    others, is stamped with the collector and the time of the clock and is
    appended to the active power-ups.  When the ball touches none, the
    manager is unchanged. *)
Theorem checkPowerUpCollection_takes_first (ballPosition : Vector2D)
    (ballRadius : Q) (isPlayer : bool) (m : PowerUpManager.t) (e : Env) :
  let r :=
    PowerUpManager.checkPowerUpCollection ballPosition ballRadius isPlayer m e
  in
  match snd r with
  | Some powerUp =>
      exists before p after,
        PowerUpManager.powerUps m = before ++ p :: after
        /\ forallb (fun q => negb (touches ballPosition ballRadius q)) before
           = true
        /\ touches ballPosition ballRadius p = true
        /\ powerUp = stamped isPlayer (clock e) p
        /\ PowerUpManager.powerUps (fst r) = before ++ after
        /\ PowerUpManager.activePowerUps (fst r)
           = PowerUpManager.activePowerUps m ++ [powerUp]
  | None =>
      fst r = m
      /\ forallb (fun q => negb (touches ballPosition ballRadius q))
           (PowerUpManager.powerUps m) = true
  end.
Proof.
  cbv zeta. unfold PowerUpManager.checkPowerUpCollection.
  pose proof (collect_first ballPosition ballRadius isPlayer (clock e) []
                (PowerUpManager.powerUps m)) as H.
  destruct (PowerUpManager.collect _ _ _ _ [] (PowerUpManager.powerUps m))
    as [[powerUp field]|]; cbn [fst snd].
  - destruct H as (before & p & after & E & B & T & S & F).
    exists before, p, after. cbn in F. subst field.
    repeat split; assumption || reflexivity.
  - split; [reflexivity | exact H].
Qed.

Lemma spawnPowerUp_spec (m : PowerUpManager.t) (e : Env) :
  let m' := fst (PowerUpManager.spawnPowerUp m e) in
  let e' := snd (PowerUpManager.spawnPowerUp m e) in
  exists p,
    PowerUpManager.powerUps m' = PowerUpManager.powerUps m ++ [p]
    /\ PowerUpManager.activePowerUps m' = PowerUpManager.activePowerUps m
    /\ PowerUpManager.spawnInterval m' = PowerUpManager.spawnInterval m
    /\ cursor e' = (cursor e + 4)%nat
    /\ clock e' = clock e
    /\ pu_radius p = 10 /\ pu_duration p = 10 /\ pu_activatedTime p = None
    /\ x (pu_position p)
       = 30 + draws e (S (cursor e)) * (PowerUpManager.fieldWidth m - 60)
    /\ y (pu_position p)
       = 30 + draws e (S (S (cursor e))) * (PowerUpManager.fieldHeight m - 60).
Proof.
  cbv zeta. unfold PowerUpManager.spawnPowerUp, random. cbn.
  eexists. repeat split; try reflexivity. f_equal. lia.
Qed.

End PowerUpCollection.

Section PowerUpSpawn.
Context {M : JsMath}.

(** One update of the power-up manager, on a field of at least 60 by 60 and
    with draws in [0, 1).  The active power-ups that have run out are
    dropped and the others kept in order.  A power-up is spawned exactly
    when the timer has run out and fewer than [maxPowerUps] are on the
    field: one is appended, it lies inside the field with its whole disc,
    it is not activated, the timer restarts at [spawnInterval] and four
    draws are taken.  Otherwise the field is unchanged and nothing is
    drawn.  The number of power-ups on the field never passes
    [maxPowerUps]. *)
Theorem PowerUpManager_update_spec (deltaTime : Q) (m : PowerUpManager.t)
    (e : Env) :
  fair e ->
  60 <= PowerUpManager.fieldWidth m -> 60 <= PowerUpManager.fieldHeight m ->
  let m' := fst (PowerUpManager.update deltaTime m e) in
  let e' := snd (PowerUpManager.update deltaTime m e) in
  let due :=
    Qleb (PowerUpManager.spawnTimer m - deltaTime) 0
    && (length (PowerUpManager.powerUps m) <? PowerUpManager.maxPowerUps)%nat
  in
  PowerUpManager.activePowerUps m'
  = filter (fun p => negb (PowerUpManager.expired (clock e) p))
      (PowerUpManager.activePowerUps m)
  /\ ((length (PowerUpManager.powerUps m) <= PowerUpManager.maxPowerUps)%nat ->
      (length (PowerUpManager.powerUps m') <= PowerUpManager.maxPowerUps)%nat)
  /\ (due = true ->
      exists p,
        PowerUpManager.powerUps m' = PowerUpManager.powerUps m ++ [p]
        /\ insideField (PowerUpManager.fieldWidth m)
             (PowerUpManager.fieldHeight m) p
        /\ pu_activatedTime p = None
        /\ PowerUpManager.spawnTimer m' = PowerUpManager.spawnInterval m
        /\ cursor e' = (cursor e + 4)%nat)
  /\ (due = false ->
      PowerUpManager.powerUps m' = PowerUpManager.powerUps m
      /\ PowerUpManager.spawnTimer m' == PowerUpManager.spawnTimer m - deltaTime
      /\ e' = e).
Proof.
  intros F W H. cbv zeta. unfold PowerUpManager.update. cbv zeta.
  cbn [PowerUpManager.spawnTimer PowerUpManager.set_spawnTimer
       PowerUpManager.powerUps].
  destruct (Qleb (PowerUpManager.spawnTimer m - deltaTime) 0
            && (length (PowerUpManager.powerUps m)
                <? PowerUpManager.maxPowerUps)%nat) eqn:D.
  - match goal with
    | |- context [PowerUpManager.spawnPowerUp ?m1 e] =>
        destruct (spawnPowerUp_spec m1 e)
          as (p & P1 & P2 & P3 & P4 & P5 & P6 & P7 & P8 & P9 & P10);
        cbv zeta in P1, P2, P3, P4, P5, P6, P7, P8, P9, P10;
        destruct (PowerUpManager.spawnPowerUp m1 e) as [m2 e2]
    end.
    cbn [fst snd] in *.
    cbn [PowerUpManager.activePowerUps PowerUpManager.set_activePowerUps
         PowerUpManager.set_spawnTimer PowerUpManager.powerUps
         PowerUpManager.spawnTimer PowerUpManager.spawnInterval
         PowerUpManager.fieldWidth PowerUpManager.fieldHeight] in *.
    rewrite spliceBackwards_filter, P2, P5, P1, P3.
    split; [reflexivity|].
    apply andb_true_iff in D. destruct D as [_ D]. apply Nat.ltb_lt in D.
    split; [intros _; rewrite length_app; cbn [length]; unfold PowerUpManager.maxPowerUps in *; lia|].
    split; [|intro K; discriminate K].
    intros _. exists p. split; [reflexivity|].
    split; [|split; [exact P8|split; [reflexivity | exact P4]]].
    destruct (F (S (cursor e))) as [X1 X2].
    destruct (F (S (S (cursor e)))) as [Y1 Y2].
    unfold insideField. rewrite P6, P9, P10.
    set (rx := draws e (S (cursor e))) in *.
    set (ry := draws e (S (S (cursor e)))) in *.
    set (w := PowerUpManager.fieldWidth m) in *.
    set (h := PowerUpManager.fieldHeight m) in *.
    assert (0 <= rx * (w - 60)) by (apply Qmult_le_0_compat; lra).
    assert (0 <= ry * (h - 60)) by (apply Qmult_le_0_compat; lra).
    assert (0 <= (1 - rx) * (w - 60)) by (apply Qmult_le_0_compat; lra).
    assert (0 <= (1 - ry) * (h - 60)) by (apply Qmult_le_0_compat; lra).
    repeat split; lra.
  - cbn [fst snd PowerUpManager.activePowerUps
         PowerUpManager.set_activePowerUps PowerUpManager.set_spawnTimer
         PowerUpManager.powerUps PowerUpManager.spawnTimer].
    rewrite spliceBackwards_filter.
    split; [reflexivity|]. split; [tauto|].
    split; [intro K; discriminate K|].
    intros _. repeat split; reflexivity.
Qed.

End PowerUpSpawn.

(** ** Game: invariants of the fixed step *)

Section UpdateInvariant.
Context {M : JsMath}.
Variable I : Game.t -> Prop.
Hypothesis I_fixedUpdate :
  forall g, I g -> I (Game.fixedUpdate Game.fixedTimeStep g).
Hypothesis I_accumulator : forall a g, I g -> I (Game.set_accumulator a g).
Hypothesis I_lastUpdateTime :
  forall t g, I g -> I (Game.set_lastUpdateTime t g).

Lemma fixedSteps_invariant (fuel steps : nat) (g : Game.t) :
  I g -> I (fst (Game.fixedSteps fuel steps g)).
Proof.
  revert steps g. induction fuel as [|fuel IH]; intros steps g Hg.
  - exact Hg.
  - rewrite fixedSteps_unfold. destruct (_ && _); [|exact Hg].
    apply IH, I_accumulator, I_fixedUpdate, Hg.
Qed.

Lemma update_invariant (currentTime : Q) (g : Game.t) :
  I g -> I (Game.update currentTime g).
Proof.
  intro Hg. unfold Game.update, Game.updateCounting.
  destruct (Qeqb (Game.lastUpdateTime g) 0).
  - apply I_lastUpdateTime, Hg.
  - pose proof (@fixedSteps_invariant Game.maxSteps 0
                  (Game.accumulate currentTime g)) as H.
    destruct (Game.fixedSteps Game.maxSteps 0 (Game.accumulate currentTime g))
      as [g1 steps].
    cbn [fst] in H.
    assert (H1 : I g1).
    { apply H. unfold Game.accumulate. cbv zeta.
      apply I_accumulator, I_lastUpdateTime, Hg. }
    destruct (_ && _); cbn [fst]; [apply I_accumulator, H1 | exact H1].
Qed.

End UpdateInvariant.

Lemma inv_bind (I : Game.t -> Prop) (a : Game.t) (f : Game.t -> Game.t) :
  I a -> (forall h, I h -> I (f h)) -> I (f a).
Proof. intros H K. exact (K a H). Qed.

Section PaddlesInPlay.
Context {M : JsMath}.
Variable P : Paddle.t -> Prop.
Hypothesis P_recordHit : forall p, P p -> P (Paddle.recordHit p).
Hypothesis P_resize :
  forall f p, P p -> P (Paddle.applyResizeEffect f false p).
Hypothesis P_resetSize : forall p, P p -> P (Paddle.resetSize false p).
Hypothesis P_resetHitCombo : forall p, P p -> P (Paddle.resetHitCombo p).
Hypothesis P_setPosition : forall v p, P p -> P (Paddle.setPosition v p).

Lemma additionalBallsHit_paddles
    (playerPos : Vector2D) (playerWidth playerHeight : Q)
    (opponentPos : Vector2D) (opponentWidth opponentHeight : Q)
    (onLeft : bool) (bs : list Ball.t) (pp op : Paddle.t) (e : Env) :
  P pp -> P op ->
  let r :=
    Game.additionalBallsHit playerPos playerWidth playerHeight opponentPos
      opponentWidth opponentHeight onLeft bs pp op e in
  P (snd (fst (fst r))) /\ P (snd (fst r)).
Proof.
  revert pp op e. induction bs as [|b rest IH]; intros pp op e Hp Ho.
  - simpl. split; assumption.
  - cbn [Game.additionalBallsHit]. unfold Game.additionalBallHit.
    destruct (Ball.checkPaddleCollision _ _ _ _ onLeft b e) as [[b1 e1] c1].
    destruct (Ball.checkPaddleCollision _ _ _ _ (negb onLeft) b1 e1)
      as [[b2 e2] c2].
    destruct c1, c2; cbn iota beta;
      match goal with
      | |- context [Game.additionalBallsHit _ _ _ _ _ _ _ rest ?pp0 ?op0 ?e0] =>
          specialize (IH pp0 op0 e0);
          destruct (Game.additionalBallsHit playerPos playerWidth playerHeight
                      opponentPos opponentWidth opponentHeight onLeft rest pp0
                      op0 e0) as [[[r1 p1] o1] e3]
      end; cbn [fst snd] in *; apply IH; auto.
Qed.

Lemma checkPaddleCollisions_paddles (g : Game.t) :
  bothPaddles P g -> bothPaddles P (Game.checkPaddleCollisions g).
Proof.
  intros [Hp Ho]. unfold Game.checkPaddleCollisions. cbv zeta.
  destruct (Ball.checkPaddleCollision _ _ _ _ _ (Game.ball g) (Game.env g))
    as [[b1 e1] c1].
  destruct (Ball.checkPaddleCollision _ _ _ _ _ b1 e1) as [[b2 e2] c2].
  match goal with
  | |- context [Game.additionalBallsHit ?a1 ?a2 ?a3 ?a4 ?a5 ?a6 ?a7 ?bs ?pp ?op
                  ?e] =>
      pose proof (@additionalBallsHit_paddles a1 a2 a3 a4 a5 a6 a7 bs pp op e
                    Hp Ho) as H;
      destruct (Game.additionalBallsHit a1 a2 a3 a4 a5 a6 a7 bs pp op e)
        as [[[r1 p1] o1] e3]
  end.
  cbv zeta in H. cbn [fst snd] in H. destruct H as [H1 H2].
  destruct c1, c2; split; cbn; auto.
Qed.

Lemma applyPowerUpEffect_paddles (powerUp : PowerUp) (g : Game.t) :
  bothPaddles P g -> bothPaddles P (Game.applyPowerUpEffect powerUp g).
Proof.
  intros [Hp Ho]. unfold Game.applyPowerUpEffect, Game.addExtraBall, random.
  cbv zeta.
  destruct (pu_type powerUp);
    repeat match goal with
      | |- context [match ?e with _ => _ end] => destruct e
      end; split; cbn; auto.
Qed.

Lemma collectWith_paddles (b : Ball.t) (g : Game.t) :
  bothPaddles P g -> bothPaddles P (Game.collectWith b g).
Proof.
  intros H. unfold Game.collectWith.
  destruct (PowerUpManager.checkPowerUpCollection _ _ _ _ _) as [pm [pu|]].
  - apply applyPowerUpEffect_paddles. exact H.
  - exact H.
Qed.

Lemma collectLoop_paddles (fuel i : nat) (g : Game.t) :
  bothPaddles P g -> bothPaddles P (Game.collectLoop fuel i g).
Proof.
  revert i g. induction fuel as [|fuel IH]; intros i g H; simpl.
  - exact H.
  - destruct (nth_error (Game.additionalBalls g) i) as [b|]; [|exact H].
    apply IH, collectWith_paddles, H.
Qed.

Lemma checkPowerUpCollections_paddles (g : Game.t) :
  bothPaddles P g -> bothPaddles P (Game.checkPowerUpCollections g).
Proof.
  intro H. unfold Game.checkPowerUpCollections. cbv zeta.
  apply collectLoop_paddles, collectWith_paddles, H.
Qed.

Lemma resetBall_paddles (serveToLeft : bool) (g : Game.t) :
  bothPaddles P g -> bothPaddles P (Game.resetBall serveToLeft g).
Proof.
  intros [Hp Ho]. unfold Game.resetBall, random. cbv zeta.
  split; cbn; apply P_setPosition; assumption.
Qed.

Lemma checkScoring_paddles (g : Game.t) :
  bothPaddles P g -> bothPaddles P (Game.checkScoring g).
Proof.
  intros [Hp Ho]. unfold Game.checkScoring, Game.scoreMainBall. cbv zeta.
  assert (S : forall scored h, bothPaddles P h ->
                bothPaddles P (Game.settleScoring scored h)).
  { intros scored h [H1 H2]. unfold Game.settleScoring, Game.endGame.
    cbv zeta.
    repeat match goal with
      | |- context [if ?c then _ else _] => destruct c
      end; split; assumption. }
  destruct (Ball.checkScoringBoundary 0 (Game.fieldWidth g) (Game.ball g))
    as [[|]|]; apply S; try (split; assumption);
    apply resetBall_paddles; destruct (Game.isHostRole g); split; cbn; auto.
Qed.

Lemma updatePaddleShrinking_paddles (g : Game.t) :
  bothPaddles P g -> bothPaddles P (Game.updatePaddleShrinking g).
Proof.
  intros [Hp Ho]. unfold Game.updatePaddleShrinking. cbv zeta.
  destruct (Paddle.isShrunken (Game.playerPaddle g)); cbn;
    destruct (Paddle.isShrunken (Game.opponentPaddle g)); split; cbn; auto.
Qed.

Lemma startGame_paddles (g : Game.t) :
  bothPaddles P g -> bothPaddles P (Game.startGame g).
Proof.
  intros H. unfold Game.startGame, random. cbv zeta.
  destruct (GameStatus_eqb _ PLAYING); [exact H|].
  apply resetBall_paddles. exact H.
Qed.

Lemma countdownTick_paddles (dt : Q) (g : Game.t) :
  bothPaddles P g -> bothPaddles P (Game.countdownTick dt g).
Proof.
  intros H. unfold Game.countdownTick. cbv zeta.
  repeat match goal with
    | |- context [if ?c then _ else _] => destruct c
    end;
    repeat apply startGame_paddles; exact H.
Qed.

Ltac paddles_step :=
  lazymatch goal with
  | |- bothPaddles P (let x := ?a in @?f x) =>
      first
        [ apply (@inv_bind (bothPaddles P) a f);
          [ | let h := fresh "h" in
              let Hh := fresh "Hh" in intros h Hh; cbv beta ]
        | change (bothPaddles P (f a)); cbv beta ]
  | |- bothPaddles P (if ?c then _ else _) => destruct c
  | |- bothPaddles P (match ?e with _ => _ end) => destruct e
  | |- bothPaddles P (Game.updatePaddleShrinking _) =>
      apply updatePaddleShrinking_paddles
  | |- bothPaddles P (Game.checkScoring _) => apply checkScoring_paddles
  | |- bothPaddles P (Game.checkPowerUpCollections _) =>
      apply checkPowerUpCollections_paddles
  | |- bothPaddles P (Game.checkPaddleCollisions _) =>
      apply checkPaddleCollisions_paddles
  | |- bothPaddles P _ => idtac
  end.

Lemma playingTick_paddles (dt : Q) (g : Game.t) :
  (forall p, P p ->
     P (Paddle.update
          (dt * Game.gameSpeedMultiplier (Game.updateGameSpeed dt g)) p)) ->
  bothPaddles P g -> bothPaddles P (Game.playingTick dt g).
Proof.
  intros U H. cbv beta delta [Game.playingTick].
  assert (H1 : bothPaddles P (Game.updateGameSpeed dt g)).
  { unfold Game.updateGameSpeed. cbv zeta.
    repeat match goal with
      | |- context [if ?c then _ else _] => destruct c
      end; exact H. }
  lazymatch goal with
  | |- bothPaddles P (let x := ?a in @?f x) =>
      change (bothPaddles P (f a)); cbv beta;
      revert U H1; generalize a
  end.
  clear g H. intros g U H.
  repeat paddles_step;
    repeat match goal with
      | K : bothPaddles P _ |- _ => destruct K
      end;
    split; cbn; auto.
Qed.

End PaddlesInPlay.

Section PaddlesInField.
Context {M : JsMath}.

Let inField : Game.t -> Prop := bothPaddles paddleContainment.

Lemma bothPaddles_same (P : Paddle.t -> Prop) (g g' : Game.t) :
  Game.playerPaddle g' = Game.playerPaddle g ->
  Game.opponentPaddle g' = Game.opponentPaddle g ->
  bothPaddles P g -> bothPaddles P g'.
Proof. unfold bothPaddles. intros -> ->. tauto. Qed.


Lemma resetBall_inField (serveToLeft : bool) (g : Game.t) :
  inField (Game.resetBall serveToLeft g).
Proof.
  unfold Game.resetBall, random. cbv zeta.
  split; cbn; apply setPosition_containment.
Qed.

Lemma startGame_inField (g : Game.t) : inField g -> inField (Game.startGame g).
Proof.
  intros H. unfold Game.startGame, random. cbv zeta.
  destruct (GameStatus_eqb _ PLAYING); [exact H | apply resetBall_inField].
Qed.

Lemma fixedUpdate_inField (dt : Q) (g : Game.t) :
  inField g -> inField (Game.fixedUpdate dt g).
Proof.
  intro H. unfold Game.fixedUpdate. destruct (Game.status g); try exact H.
  - apply countdownTick_paddles; [|exact H].
    intros v p _. apply setPosition_containment.
  - apply playingTick_paddles; try exact H.
    + intros p. apply recordHit_containment.
    + intros f p. apply applyResizeEffect_gradual_containment.
    + intros p. apply paddleContainment_same; reflexivity.
    + intros p. apply paddleContainment_same; reflexivity.
    + intros v p _. apply setPosition_containment.
    + intros p. apply update_containment.
Qed.

Lemma update_inField (currentTime : Q) (g : Game.t) :
  inField g -> inField (Game.update currentTime g).
Proof.
  apply update_invariant.
  - intros h. apply fixedUpdate_inField.
  - intros a h H. exact H.
  - intros t h H. exact H.
Qed.

Lemma setupCountdownFailsafe_inField (g : Game.t) :
  inField g -> inField (Game.setupCountdownFailsafe g).
Proof.
  intro H. unfold Game.setupCountdownFailsafe. cbv zeta.
  destruct (_ <=? 0)%Z; [apply startGame_inField|]; exact H.
Qed.

Lemma startCountdown_inField (g : Game.t) :
  inField g -> inField (Game.startCountdown g).
Proof.
  intro H. unfold Game.startCountdown, random. cbv zeta.
  destruct (_ || _); [exact H|].
  apply setupCountdownFailsafe_inField.
  match goal with
  | |- context [Game.resetBall ?s ?h] =>
      generalize (resetBall_inField s h); generalize (Game.resetBall s h)
  end.
  intros g1 K.
  apply (@bothPaddles_same paddleContainment g1);
    [reflexivity | reflexivity | exact K].
Qed.

Lemma initialPaddles_inField (role : PlayerRole) (config : GameConfig)
    (fieldWidth fieldHeight : Q) :
  paddleContainment (fst (Game.initialPaddles role config fieldWidth fieldHeight))
  /\ paddleContainment
       (snd (Game.initialPaddles role config fieldWidth fieldHeight)).
Proof.
  unfold Game.initialPaddles. cbv zeta.
  assert (K : forall px, paddleContainment
                (Paddle.new (mkVec px (fieldHeight / 2)) (paddleWidth config)
                   (paddleHeight config) 500 0 fieldHeight)).
  { intro px. unfold paddleContainment, paddleFits, paddleContained. simpl.
    rewrite !Qhalf. intro F. split; lra. }
  destruct role; cbn [fst snd]; split; apply K.
Qed.

Lemma restartGame_inField (g : Game.t) : inField (Game.restartGame g).
Proof.
  unfold Game.restartGame. cbv zeta. apply startCountdown_inField.
  unfold Game.initializeGameObjects. cbv zeta.
  match goal with
  | |- context [Game.initialPaddles ?r ?c ?w ?h] =>
      pose proof (initialPaddles_inField r c w h) as K;
      destruct (Game.initialPaddles r c w h) as [mine theirs]
  end.
  exact K.
Qed.

Lemma fireCountdownTimeout_inField (g : Game.t) :
  inField g -> inField (Game.fireCountdownTimeout g).
Proof.
  intro H. unfold Game.fireCountdownTimeout.
  destruct (Game.countdownTimeout g) as [[|]|]; [| |exact H].
  - unfold Game.decrementCountdown. cbv zeta.
    destruct (_ <=? 0)%Z; [apply startGame_inField|]; exact H.
  - unfold Game.failsafeCallback. cbv zeta.
    apply setupCountdownFailsafe_inField. exact H.
Qed.

Lemma applySnapshot_inField (state : GameState) (g : Game.t) :
  inField (Game.applySnapshot state g).
Proof.
  unfold Game.applySnapshot. cbv zeta.
  repeat match goal with
    | |- context [match ?e with _ => _ end] => destruct e
    end; split; cbn; apply setState_containment.
Qed.

Lemma setState_inField (state : GameState) (g : Game.t) :
  inField g -> inField (Game.setState state g).
Proof.
  intro H. unfold Game.setState. cbv zeta.
  destruct (_ && _); [|apply applySnapshot_inField].
  apply startCountdown_inField.
  unfold Game.serveIfJumping, random. cbv zeta.
  destruct (_ && _); [apply resetBall_inField | exact H].
Qed.

Lemma new_inField (role : PlayerRole) (config : GameConfig) (e : Env) :
  inField (Game.new role config e).
Proof.
  unfold Game.new. cbv zeta.
  pose proof (initialPaddles_inField role config 800 600) as K.
  destruct (Game.initialPaddles role config 800 600) as [mine theirs].
  exact K.
Qed.

Lemma applyGameOp_inField (op : GameOp) (g : Game.t) :
  inField g -> inField (applyGameOp op g).
Proof.
  intro H. destruct op; cbn [applyGameOp].
  - apply startCountdown_inField, H.
  - apply update_inField, H.
  - unfold Game.pauseGame. destruct (GameStatus_eqb _ _); exact H.
  - unfold Game.resumeGame. destruct (GameStatus_eqb _ _); exact H.
  - apply restartGame_inField.
  - apply fireCountdownTimeout_inField, H.
  - destruct H as [H1 H2]. split; [|exact H2].
    revert H1. apply paddleContainment_same; reflexivity.
  - destruct H as [H1 H2]. split; [exact H1|].
    revert H2. apply paddleContainment_same; reflexivity.
  - unfold Game.resizeField. cbv zeta.
    split; cbn; apply setBoundaries_containment.
  - exact H.
  - apply setState_inField, H.
  - exact H.
Qed.

(** From a newly constructed game on, whatever the public operations
    called and in whatever order, both paddles lie between their vertical
    boundaries whenever the boundaries leave room for them. *)
Theorem paddles_stay_in_field (role : PlayerRole) (config : GameConfig)
    (e : Env) (ops : list GameOp) :
  bothPaddles paddleContainment (runGame ops (Game.new role config e)).
Proof.
  generalize (new_inField role config e).
  generalize (Game.new role config e).
  induction ops as [|op ops IH]; intros g H.
  - exact H.
  - cbn [runGame]. apply IH, applyGameOp_inField, H.
Qed.

End PaddlesInField.

Section PaddlesTall.
Context {M : JsMath}.

Lemma paddleTall_same (p q : Paddle.t) :
  Paddle.height q = Paddle.height p ->
  Paddle.targetHeight q = Paddle.targetHeight p ->
  Paddle.originalHeight q = Paddle.originalHeight p ->
  paddleTall p -> paddleTall q.
Proof. unfold paddleTall. intros -> -> ->. tauto. Qed.

Lemma updatePaddleSize_tall (dt : Q) (p : Paddle.t) :
  0 <= dt -> paddleTall p -> paddleTall (Paddle.updatePaddleSize dt p).
Proof.
  intros Hd (H1 & H2 & H3). unfold Paddle.updatePaddleSize.
  destruct (negb _); [|repeat split; assumption].
  cbv zeta. unfold paddleTall, Paddle.minPaddleHeight, Paddle.resizeRate in *.
  destruct (Qltb _ _);
    cbn -[Qmin Qmax Qplus Qminus Qmult Qle]; (split; [|split; assumption]).
  - apply Q.min_glb; lra.
  - apply Q.max_le_iff. left. exact H2.
Qed.

Lemma update_tall (dt : Q) (p : Paddle.t) :
  0 <= dt -> paddleTall p -> paddleTall (Paddle.update dt p).
Proof.
  intros Hd H. unfold Paddle.update. cbv zeta.
  set (p1 := if Paddle.isRebounding p then _ else _).
  assert (H1 : paddleTall p1).
  { revert H. apply paddleTall_same; unfold p1;
      destruct (Paddle.isRebounding p);
      unfold Paddle.updateRebound, Paddle.updateDash, Paddle.updateMovement,
        Paddle.startRebound; cbv zeta;
      repeat match goal with
        | |- context [if ?c then _ else _] => destruct c
        end; reflexivity. }
  set (p2 := if Qgtb (Paddle.dashCooldown p1) 0 then _ else p1).
  assert (H2 : paddleTall p2).
  { unfold p2. destruct (Qgtb _ 0); [|exact H1].
    revert H1. apply paddleTall_same; reflexivity. }
  pose proof (updatePaddleSize_tall Hd H2) as (K1 & K2 & K3).
  destruct (Qgtb _ Paddle.minPaddleHeight); [|repeat split; assumption].
  split; [exact K1|]. split; [|exact K3].
  cbn -[Qmax Qmult Qle]. apply Q.le_max_l.
Qed.

Lemma applyResizeEffect_tall (f : Q) (p : Paddle.t) :
  paddleTall p -> paddleTall (Paddle.applyResizeEffect f false p).
Proof.
  intros (H1 & H2 & H3). unfold Paddle.applyResizeEffect. cbv zeta.
  split; [exact H1|]. split; [|exact H3].
  cbn -[Qmin Qmax Qmult Qle]. unfold Paddle.maxPaddleHeight, Paddle.minPaddleHeight.
  apply Q.min_glb; [lra | apply Q.le_max_l].
Qed.

Lemma recordHit_tall (p : Paddle.t) :
  paddleTall p -> paddleTall (Paddle.recordHit p).
Proof.
  intro H. unfold Paddle.recordHit. cbv zeta.
  destruct (3 <=? _)%Z.
  - apply applyResizeEffect_tall. revert H. apply paddleTall_same; reflexivity.
  - revert H. apply paddleTall_same; reflexivity.
Qed.

Lemma resetSize_tall (p : Paddle.t) :
  paddleTall p -> paddleTall (Paddle.resetSize false p).
Proof. intros (H1 & H2 & H3). repeat split; assumption. Qed.

Lemma resetHitCombo_tall (p : Paddle.t) :
  paddleTall p -> paddleTall (Paddle.resetHitCombo p).
Proof. intros (H1 & H2 & H3). repeat split; assumption. Qed.

Lemma setPosition_tall (v : Vector2D) (p : Paddle.t) :
  paddleTall p -> paddleTall (Paddle.setPosition v p).
Proof. apply paddleTall_same; reflexivity. Qed.

End PaddlesTall.

Section SpeedInPlay.
Context {M : JsMath}.
Variable S : Q -> Prop.
Hypothesis S_normal : S 1.
Hypothesis S_turbo : S 1.5.

Lemma updateGameSpeed_speedIn (dt : Q) (g : Game.t) :
  speedIn S g -> speedIn S (Game.updateGameSpeed dt g).
Proof.
  unfold speedIn, Game.updateGameSpeed. cbv zeta. intro H.
  repeat match goal with
    | |- context [if ?c then _ else _] => destruct c
    end; cbn [Game.gameSpeedMultiplier Game.set_gameSpeedMultiplier
              Game.set_turboModeActive Game.set_turboModeTimeRemaining];
    assumption.
Qed.

Lemma applyPowerUpEffect_speedIn (powerUp : PowerUp) (g : Game.t) :
  speedIn S g -> speedIn S (Game.applyPowerUpEffect powerUp g).
Proof.
  unfold speedIn, Game.applyPowerUpEffect, Game.addExtraBall, random.
  cbv zeta. intro H.
  destruct (pu_type powerUp);
    repeat match goal with
      | |- context [match ?e with _ => _ end] => destruct e
      end; first [exact H | exact S_turbo].
Qed.

Lemma collectWith_speedIn (b : Ball.t) (g : Game.t) :
  speedIn S g -> speedIn S (Game.collectWith b g).
Proof.
  intros H. unfold Game.collectWith.
  destruct (PowerUpManager.checkPowerUpCollection _ _ _ _ _) as [pm [pu|]].
  - apply applyPowerUpEffect_speedIn. exact H.
  - exact H.
Qed.

Lemma collectLoop_speedIn (fuel i : nat) (g : Game.t) :
  speedIn S g -> speedIn S (Game.collectLoop fuel i g).
Proof.
  revert i g. induction fuel as [|fuel IH]; intros i g H; simpl.
  - exact H.
  - destruct (nth_error (Game.additionalBalls g) i) as [b|]; [|exact H].
    apply IH, collectWith_speedIn, H.
Qed.

Lemma speedIn_same (g g' : Game.t) :
  Game.gameSpeedMultiplier g' = Game.gameSpeedMultiplier g ->
  speedIn S g -> speedIn S g'.
Proof. unfold speedIn. intros ->. tauto. Qed.

Lemma checkPaddleCollisions_speed (g : Game.t) :
  Game.gameSpeedMultiplier (Game.checkPaddleCollisions g)
  = Game.gameSpeedMultiplier g.
Proof. unfold Game.checkPaddleCollisions. frame. Qed.

Lemma resetBall_speed (s : bool) (g : Game.t) :
  Game.gameSpeedMultiplier (Game.resetBall s g) = Game.gameSpeedMultiplier g.
Proof. unfold Game.resetBall. frame. Qed.

Lemma checkScoring_speed (g : Game.t) :
  Game.gameSpeedMultiplier (Game.checkScoring g) = Game.gameSpeedMultiplier g.
Proof.
  unfold Game.checkScoring, Game.scoreMainBall, Game.settleScoring,
    Game.endGame. cbv zeta.
  destruct (Ball.checkScoringBoundary 0 (Game.fieldWidth g) (Game.ball g))
    as [[|]|];
    repeat match goal with
      | |- context [if ?c then _ else _] => destruct c
      end; cbn; rewrite ?resetBall_speed; reflexivity.
Qed.

Lemma updatePaddleShrinking_speed (g : Game.t) :
  Game.gameSpeedMultiplier (Game.updatePaddleShrinking g)
  = Game.gameSpeedMultiplier g.
Proof. unfold Game.updatePaddleShrinking. frame. Qed.

Ltac speed_step :=
  lazymatch goal with
  | |- speedIn S (let x := ?a in @?f x) =>
      first
        [ apply (@inv_bind (speedIn S) a f);
          [ | let h := fresh "h" in
              let Hh := fresh "Hh" in intros h Hh; cbv beta ]
        | change (speedIn S (f a)); cbv beta ]
  | |- speedIn S (if ?c then _ else _) => destruct c
  | |- speedIn S (match ?e with _ => _ end) => destruct e
  | |- speedIn S (Game.updatePaddleShrinking _) =>
      apply (@speedIn_same _ _ (updatePaddleShrinking_speed _))
  | |- speedIn S (Game.checkScoring _) =>
      apply (@speedIn_same _ _ (checkScoring_speed _))
  | |- speedIn S (Game.checkPowerUpCollections _) =>
      apply collectLoop_speedIn, collectWith_speedIn
  | |- speedIn S (Game.checkPaddleCollisions _) =>
      apply (@speedIn_same _ _ (checkPaddleCollisions_speed _))
  | |- speedIn S (Game.updateGameSpeed _ _) => apply updateGameSpeed_speedIn
  | |- speedIn S _ => idtac
  end.

Lemma playingTick_speedIn (dt : Q) (g : Game.t) :
  speedIn S g -> speedIn S (Game.playingTick dt g).
Proof.
  intros H. cbv beta delta [Game.playingTick].
  repeat speed_step;
    match goal with K : speedIn S _ |- _ => exact K end.
Qed.

Lemma startGame_speed (g : Game.t) :
  Game.gameSpeedMultiplier (Game.startGame g) = Game.gameSpeedMultiplier g.
Proof.
  unfold Game.startGame, random. cbv zeta.
  destruct (GameStatus_eqb _ PLAYING); [reflexivity|].
  rewrite resetBall_speed. reflexivity.
Qed.

Lemma countdownTick_speed (dt : Q) (g : Game.t) :
  Game.gameSpeedMultiplier (Game.countdownTick dt g)
  = Game.gameSpeedMultiplier g.
Proof.
  unfold Game.countdownTick. cbv zeta.
  repeat match goal with
    | |- context [if ?c then _ else _] => destruct c
    end; rewrite ?startGame_speed; reflexivity.
Qed.

Lemma fixedUpdate_speedIn (dt : Q) (g : Game.t) :
  speedIn S g -> speedIn S (Game.fixedUpdate dt g).
Proof.
  intro H. unfold Game.fixedUpdate. destruct (Game.status g); try exact H.
  - revert H. apply (@speedIn_same _ _ (countdownTick_speed _ _)).
  - apply playingTick_speedIn, H.
Qed.

End SpeedInPlay.

Section PaddlesTallInPlay.
Context {M : JsMath}.

Lemma fixedUpdate_tall (g : Game.t) :
  tallInPlay g -> tallInPlay (Game.fixedUpdate Game.fixedTimeStep g).
Proof.
  assert (N1 : nonneg 1) by (unfold nonneg; lra).
  assert (N2 : nonneg 1.5) by (unfold nonneg; lra).
  intros [S H]. split; [apply fixedUpdate_speedIn; assumption|].
  unfold Game.fixedUpdate.
  destruct (Game.status g); try assumption.
  - apply countdownTick_paddles; [|exact H].
    intros v p. apply setPosition_tall.
  - apply playingTick_paddles; try exact H.
    + apply recordHit_tall.
    + apply applyResizeEffect_tall.
    + apply resetSize_tall.
    + apply resetHitCombo_tall.
    + apply setPosition_tall.
    + intros p. apply update_tall.
      pose proof (@updateGameSpeed_speedIn nonneg N1 N2 Game.fixedTimeStep
                    g S) as K.
      unfold speedIn, nonneg in K. unfold Game.fixedTimeStep.
      apply Qmult_le_0_compat; [apply Qlt_le_weak; reflexivity | exact K].
Qed.

(** Paddles never get shorter than [minPaddleHeight]: when the speed
    multiplier is not negative and the height, the target height and the
    original height of both paddles are at least [minPaddleHeight], the same
    holds after [update], whatever happens in its fixed steps (shrinking
    power-ups, combo shrinking, resets). *)
Theorem update_keeps_paddles_tall (currentTime : Q) (g : Game.t) :
  0 <= Game.gameSpeedMultiplier g ->
  bothPaddles paddleTall g ->
  0 <= Game.gameSpeedMultiplier (Game.update currentTime g)
  /\ bothPaddles paddleTall (Game.update currentTime g).
Proof.
  intros S H.
  apply (@update_invariant M tallInPlay).
  - apply fixedUpdate_tall.
  - intros a h K. exact K.
  - intros t h K. exact K.
  - split; assumption.
Qed.

End PaddlesTallInPlay.

Section BallsInPlay.
Context {M : JsMath}.
Variable B : nat -> Prop.
Hypothesis B_fewer : forall n m, (m <= n)%nat -> B n -> B m.
Hypothesis B_one_more :
  forall n, (n < Game.maxAdditionalBalls)%nat -> B n -> B (S n).

Lemma ballCount_same (g g' : Game.t) :
  length (Game.additionalBalls g') = length (Game.additionalBalls g) ->
  ballCount B g -> ballCount B g'.
Proof. unfold ballCount. intros ->. tauto. Qed.

Lemma ballCount_fewer (g g' : Game.t) :
  (length (Game.additionalBalls g') <= length (Game.additionalBalls g))%nat ->
  ballCount B g -> ballCount B g'.
Proof. unfold ballCount. intros H K. exact (B_fewer H K). Qed.

Lemma additionalBallsHit_length
    (playerPos : Vector2D) (playerWidth playerHeight : Q)
    (opponentPos : Vector2D) (opponentWidth opponentHeight : Q)
    (onLeft : bool) (bs : list Ball.t) (pp op : Paddle.t) (e : Env) :
  length
    (fst (fst (fst
       (Game.additionalBallsHit playerPos playerWidth playerHeight opponentPos
          opponentWidth opponentHeight onLeft bs pp op e))))
  = length bs.
Proof.
  revert pp op e. induction bs as [|b rest IH]; intros pp op e.
  - reflexivity.
  - cbn [Game.additionalBallsHit].
    destruct (Game.additionalBallHit _ _ _ _ _ _ _ _ _ _ _)
      as [[[b1 pp1] op1] e1].
    specialize (IH pp1 op1 e1).
    destruct (Game.additionalBallsHit _ _ _ _ _ _ _ rest pp1 op1 e1)
      as [[[r1 p1] o1] e3].
    cbn [fst snd length] in *. f_equal. exact IH.
Qed.

Lemma checkPaddleCollisions_balls (g : Game.t) :
  length (Game.additionalBalls (Game.checkPaddleCollisions g))
  = length (Game.additionalBalls g).
Proof.
  unfold Game.checkPaddleCollisions. cbv zeta.
  destruct (Ball.checkPaddleCollision _ _ _ _ _ (Game.ball g) (Game.env g))
    as [[b1 e1] c1].
  destruct (Ball.checkPaddleCollision _ _ _ _ _ b1 e1) as [[b2 e2] c2].
  match goal with
  | |- context [Game.additionalBallsHit ?a1 ?a2 ?a3 ?a4 ?a5 ?a6 ?a7 ?bs ?pp ?op
                  ?e] =>
      pose proof (additionalBallsHit_length a1 a2 a3 a4 a5 a6 a7 bs pp op e)
        as H;
      destruct (Game.additionalBallsHit a1 a2 a3 a4 a5 a6 a7 bs pp op e)
        as [[[r1 p1] o1] e3]
  end.
  cbn [fst snd] in H. destruct c1, c2; cbn; exact H.
Qed.

Lemma addExtraBall_balls (g : Game.t) :
  ballCount B g -> ballCount B (Game.addExtraBall g).
Proof.
  unfold ballCount, Game.addExtraBall, random. intro H.
  destruct (Game.maxAdditionalBalls <=? _)%nat eqn:E; [exact H|].
  apply Nat.leb_gt in E. cbv zeta.
  cbn [Game.additionalBalls Game.set_additionalBalls].
  rewrite length_app, Nat.add_1_r. apply B_one_more; [|exact H].
  cbn [Game.additionalBalls Game.set_env] in *. exact E.
Qed.

Lemma applyPowerUpEffect_balls (powerUp : PowerUp) (g : Game.t) :
  ballCount B g -> ballCount B (Game.applyPowerUpEffect powerUp g).
Proof.
  intro H. unfold Game.applyPowerUpEffect.
  destruct (pu_type powerUp); try (apply addExtraBall_balls; exact H);
    unfold random; cbv zeta;
    repeat match goal with
      | |- context [match ?e with _ => _ end] => destruct e
      end; exact H.
Qed.

Lemma collectWith_balls (b : Ball.t) (g : Game.t) :
  ballCount B g -> ballCount B (Game.collectWith b g).
Proof.
  intros H. unfold Game.collectWith.
  destruct (PowerUpManager.checkPowerUpCollection _ _ _ _ _) as [pm [pu|]].
  - apply applyPowerUpEffect_balls. exact H.
  - exact H.
Qed.

Lemma collectLoop_balls (fuel i : nat) (g : Game.t) :
  ballCount B g -> ballCount B (Game.collectLoop fuel i g).
Proof.
  revert i g. induction fuel as [|fuel IH]; intros i g H; simpl.
  - exact H.
  - destruct (nth_error (Game.additionalBalls g) i) as [b|]; [|exact H].
    apply IH, collectWith_balls, H.
Qed.

Lemma resetBall_balls (s : bool) (g : Game.t) :
  ballCount B g -> ballCount B (Game.resetBall s g).
Proof.
  apply ballCount_fewer. unfold Game.resetBall, random. cbv zeta.
  cbn [Game.additionalBalls Game.set_additionalBalls length]. lia.
Qed.

Lemma checkScoring_balls (g : Game.t) :
  ballCount B g -> ballCount B (Game.checkScoring g).
Proof.
  intro H. unfold Game.checkScoring.
  assert (H1 : ballCount B (fst (Game.scoreMainBall g))).
  { unfold Game.scoreMainBall. cbv zeta.
    destruct (Ball.checkScoringBoundary 0 (Game.fieldWidth g) (Game.ball g))
      as [[|]|]; cbn [fst]; [| |exact H];
      apply resetBall_balls; destruct (Game.isHostRole g); exact H. }
  destruct (Game.scoreMainBall g) as [g1 scored]. cbn [fst] in H1.
  revert H1. apply ballCount_fewer.
  unfold Game.settleScoring, Game.endGame. cbv zeta.
  assert (L : (length (spliceBackwards (Game.crossed (Game.fieldWidth g1))
                         (Game.additionalBalls g1))
               <= length (Game.additionalBalls g1))%nat).
  { rewrite spliceBackwards_filter. apply filter_length_le. }
  repeat match goal with
    | |- context [if ?c then _ else _] => destruct c
    end; exact L.
Qed.

Lemma mapBalls_balls (f : Ball.t -> Ball.t) (g : Game.t) :
  ballCount B g ->
  ballCount B (Game.set_additionalBalls (map f (Game.additionalBalls g)) g).
Proof.
  unfold ballCount. cbn [Game.additionalBalls Game.set_additionalBalls].
  rewrite length_map. tauto.
Qed.

Lemma checkBoundaryCollisions_balls (g : Game.t) :
  ballCount B g -> ballCount B (Game.checkBoundaryCollisions g).
Proof.
  unfold ballCount, Game.checkBoundaryCollisions. cbv zeta.
  cbn [Game.additionalBalls Game.set_additionalBalls Game.set_ball].
  rewrite length_map. tauto.
Qed.

Ltac balls_step :=
  lazymatch goal with
  | |- ballCount B (let x := ?a in @?f x) =>
      first
        [ apply (@inv_bind (ballCount B) a f);
          [ | let h := fresh "h" in
              let Hh := fresh "Hh" in intros h Hh; cbv beta ]
        | change (ballCount B (f a)); cbv beta ]
  | |- ballCount B (if ?c then _ else _) => destruct c
  | |- ballCount B (match ?e with _ => _ end) => destruct e
  | |- ballCount B (Game.updatePaddleShrinking _) =>
      apply (@ballCount_same _ _
               (f_equal (@length _)
                  (proj1 (proj2 (proj2 (updatePaddleShrinking_frame _))))))
  | |- ballCount B (Game.checkScoring _) => apply checkScoring_balls
  | |- ballCount B (Game.checkPowerUpCollections _) =>
      apply collectLoop_balls, collectWith_balls
  | |- ballCount B (Game.checkBoundaryCollisions _) =>
      apply checkBoundaryCollisions_balls
  | |- ballCount B (Game.checkPaddleCollisions _) =>
      apply (@ballCount_same _ _ (checkPaddleCollisions_balls _))
  | |- ballCount B (Game.updateGameSpeed _ _) =>
      apply (@ballCount_same _ _
               (f_equal (@length _)
                  (proj2 (proj2 (updateGameSpeed_frame _ _)))))
  | |- ballCount B (Game.set_additionalBalls (map _ _) _) =>
      apply mapBalls_balls
  | |- ballCount B _ => idtac
  end.

Lemma playingTick_balls (dt : Q) (g : Game.t) :
  ballCount B g -> ballCount B (Game.playingTick dt g).
Proof.
  intros H. cbv beta delta [Game.playingTick].
  repeat balls_step;
    match goal with K : ballCount B _ |- _ => exact K end.
Qed.

Lemma startGame_balls (g : Game.t) :
  ballCount B g -> ballCount B (Game.startGame g).
Proof.
  intro H. unfold Game.startGame, random. cbv zeta.
  destruct (GameStatus_eqb _ PLAYING); [exact H|].
  apply resetBall_balls. exact H.
Qed.

Lemma countdownTick_balls (dt : Q) (g : Game.t) :
  ballCount B g -> ballCount B (Game.countdownTick dt g).
Proof.
  intros H. unfold Game.countdownTick. cbv zeta.
  repeat match goal with
    | |- context [if ?c then _ else _] => destruct c
    end;
    repeat apply startGame_balls; exact H.
Qed.

Lemma fixedUpdate_balls (dt : Q) (g : Game.t) :
  ballCount B g -> ballCount B (Game.fixedUpdate dt g).
Proof.
  intro H. unfold Game.fixedUpdate. destruct (Game.status g); try exact H.
  - apply countdownTick_balls, H.
  - apply playingTick_balls, H.
Qed.

End BallsInPlay.

Section BallsCap.
Context {M : JsMath}.

(** A call of [update] never takes the number of additional balls above
    [maxAdditionalBalls]: a multi-ball power-up adds one only below the
    cap. *)
Theorem update_caps_additional_balls (currentTime : Q) (g : Game.t) :
  (length (Game.additionalBalls g) <= Game.maxAdditionalBalls)%nat ->
  (length (Game.additionalBalls (Game.update currentTime g))
   <= Game.maxAdditionalBalls)%nat.
Proof.
  intro H.
  apply (@update_invariant M
           (ballCount (fun n => (n <= Game.maxAdditionalBalls)%nat))).
  - intros h. apply fixedUpdate_balls.
    + intros n m L K. lia.
    + intros n L K. lia.
  - intros a h K. exact K.
  - intros t h K. exact K.
  - exact H.
Qed.

End BallsCap.

Section SpeedValues.
Context {M : JsMath}.

(** After a call of [update] the speed multiplier is the one before, or 1,
    or 1.5. *)
Theorem update_speed_values (currentTime : Q) (g : Game.t) :
  Game.gameSpeedMultiplier (Game.update currentTime g)
  = Game.gameSpeedMultiplier g
  \/ Game.gameSpeedMultiplier (Game.update currentTime g) = 1
  \/ Game.gameSpeedMultiplier (Game.update currentTime g) = 1.5.
Proof.
  apply (@update_invariant M
           (speedIn (fun m => m = Game.gameSpeedMultiplier g
                              \/ m = 1 \/ m = 1.5))).
  - intros h. apply fixedUpdate_speedIn.
    + right; left; reflexivity.
    + right; right; reflexivity.
  - intros a h K. exact K.
  - intros t h K. exact K.
  - left. reflexivity.
Qed.

End SpeedValues.

Section ScoringInPlay.
Context {M : JsMath}.

Lemma scoresLast_bind (g a : Game.t) (f : Game.t -> Game.t) :
  sameControl g a -> (forall h, sameControl g h -> scoresLast g (f h)) ->
  scoresLast g (f a).
Proof. intros H K. exact (K a H). Qed.

Ltac control_solve :=
  lazymatch goal with
  | K : sameControl ?g ?h |- sameControl ?g ?x =>
      apply (sameControl_trans K);
      repeat match goal with
        | |- sameControl _ (if ?c then _ else _) => destruct c
        | |- sameControl _ (match ?e with _ => _ end) => destruct e
        end;
      first
        [ apply sameControl_refl
        | apply updateGameSpeed_frame
        | apply checkPaddleCollisions_frame
        | apply checkBoundaryCollisions_frame
        | apply checkPowerUpCollections_frame
        | repeat split; reflexivity ]
  end.

Ltac scores_step :=
  lazymatch goal with
  | |- scoresLast ?g (let x := Game.checkScoring ?h in _) =>
      exists h; split; [assumption | reflexivity]
  | |- scoresLast ?g (let x := ?a in @?f x) =>
      first
        [ apply (@scoresLast_bind g a f);
          [ control_solve
          | let h := fresh "h" in
            let Hh := fresh "Hh" in
            intros h Hh; cbv beta;
            repeat match goal with
              | K : sameControl g ?k |- _ =>
                  lazymatch k with h => fail | _ => clear K end
              end ]
        | change (scoresLast g (f a)); cbv beta ]
  end.

Lemma playingTick_scoresLast (dt : Q) (g : Game.t) :
  scoresLast g (Game.playingTick dt g).
Proof.
  pose proof (sameControl_refl g) as H0.
  cbv beta delta [Game.playingTick].
  repeat scores_step.
Qed.

End ScoringInPlay.

Section PointsInPlay.
Context {M : JsMath}.

Lemma resetBall_scores (s : bool) (g : Game.t) :
  Game.playerScore (Game.resetBall s g) = Game.playerScore g
  /\ Game.opponentScore (Game.resetBall s g) = Game.opponentScore g.
Proof.
  destruct (resetBall_frame s g) as [(_ & _ & Hp & Ho & _) _].
  split; assumption.
Qed.

Lemma checkScoring_onePoint (g : Game.t) : onePoint g (Game.checkScoring g).
Proof.
  unfold Game.checkScoring.
  assert (H : onePoint g (fst (Game.scoreMainBall g))).
  { unfold Game.scoreMainBall, onePoint. cbv zeta.
    destruct (Ball.checkScoringBoundary 0 (Game.fieldWidth g) (Game.ball g))
      as [[|]|]; cbn [fst];
      [ | | left; split; reflexivity];
      match goal with
      | |- context [Game.resetBall ?s ?h] =>
          destruct (resetBall_scores s h) as [Hp Ho]; rewrite Hp, Ho
      end;
      destruct (Game.isHostRole g); cbn;
      solve [right; left; split; reflexivity
            | right; right; split; reflexivity]. }
  destruct (Game.scoreMainBall g) as [g1 scored]. cbn [fst] in H.
  destruct (settleScoring_spec scored g1) as (_ & _ & _ & Hp & Ho & _).
  cbv zeta in Hp, Ho. unfold onePoint in *. rewrite Hp, Ho. exact H.
Qed.

Lemma afterScoring_scores (h : Game.t) :
  Game.playerScore (afterScoring h) = Game.playerScore h
  /\ Game.opponentScore (afterScoring h) = Game.opponentScore h
  /\ Game.status (afterScoring h) = Game.status h
  /\ Game.winner (afterScoring h) = Game.winner h.
Proof.
  unfold afterScoring. destruct (enablePaddleShrinking _).
  - destruct (updatePaddleShrinking_frame h)
      as [(Hs & Hw & Hp & Ho & _) _].
    repeat split; assumption.
  - repeat split; reflexivity.
Qed.

Lemma playingTick_onePoint (dt : Q) (g : Game.t) :
  onePoint g (Game.playingTick dt g).
Proof.
  destruct (playingTick_scoresLast dt g) as (g1 & C & E).
  rewrite E. destruct C as (_ & _ & Cp & Co & _).
  destruct (afterScoring_scores (Game.checkScoring g1)) as (Ap & Ao & _).
  pose proof (checkScoring_onePoint g1) as H.
  unfold onePoint in *. rewrite Ap, Ao, <- Cp, <- Co. exact H.
Qed.

Lemma startGame_scores (g : Game.t) :
  Game.playerScore (Game.startGame g) = Game.playerScore g
  /\ Game.opponentScore (Game.startGame g) = Game.opponentScore g.
Proof.
  unfold Game.startGame, random. cbv zeta.
  destruct (GameStatus_eqb _ PLAYING); [split; reflexivity|].
  match goal with
  | |- context [Game.resetBall ?s ?h] => destruct (resetBall_scores s h) as [Hp Ho]
  end.
  rewrite Hp, Ho. split; reflexivity.
Qed.

Lemma countdownTick_scores (dt : Q) (g : Game.t) :
  Game.playerScore (Game.countdownTick dt g) = Game.playerScore g
  /\ Game.opponentScore (Game.countdownTick dt g) = Game.opponentScore g.
Proof.
  unfold Game.countdownTick. cbv zeta.
  repeat match goal with
    | |- context [if ?c then _ else _] => destruct c
    end;
    repeat match goal with
      | |- context [Game.startGame ?h] =>
          let Hp := fresh in let Ho := fresh in
          destruct (startGame_scores h) as [Hp Ho]; rewrite Hp, Ho
      end; split; reflexivity.
Qed.

Lemma fixedUpdate_onePoint (dt : Q) (g : Game.t) :
  onePoint g (Game.fixedUpdate dt g).
Proof.
  unfold Game.fixedUpdate.
  destruct (Game.status g); try (left; split; reflexivity).
  - left. apply countdownTick_scores.
  - apply playingTick_onePoint.
Qed.

Lemma fixedSteps_lower (fuel steps : nat) (g : Game.t) :
  (steps <= snd (Game.fixedSteps fuel steps g))%nat.
Proof.
  revert steps g. induction fuel as [|fuel IH]; intros steps g.
  - simpl. lia.
  - rewrite fixedSteps_unfold. destruct (_ && _); [|simpl; lia].
    match goal with
    | |- (_ <= snd (Game.fixedSteps fuel (S steps) ?h))%nat =>
        specialize (IH (S steps) h)
    end.
    lia.
Qed.

Lemma fixedSteps_points (fuel steps n : nat) (g0 g : Game.t) :
  pointsWithin n g0 g ->
  pointsWithin (n + (snd (Game.fixedSteps fuel steps g) - steps)) g0
    (fst (Game.fixedSteps fuel steps g)).
Proof.
  revert steps n g. induction fuel as [|fuel IH]; intros steps n g H.
  - cbn [Game.fixedSteps fst snd].
    replace (n + (steps - steps))%nat with n by lia. exact H.
  - rewrite fixedSteps_unfold.
    destruct (_ && _).
    + set (g1 := Game.set_accumulator _ _).
      assert (H1 : pointsWithin (S n) g0 g1).
      { pose proof (fixedUpdate_onePoint Game.fixedTimeStep g) as O.
        unfold pointsWithin, onePoint in *.
        change (Game.playerScore g1)
          with (Game.playerScore (Game.fixedUpdate Game.fixedTimeStep g)).
        change (Game.opponentScore g1)
          with (Game.opponentScore (Game.fixedUpdate Game.fixedTimeStep g)).
        destruct H as (H1 & H2 & H3).
        destruct O as [[A B]|[[A B]|[A B]]]; rewrite A, B; repeat split; lia. }
      specialize (IH (S steps) (S n) g1 H1).
      pose proof (fixedSteps_lower fuel (S steps) g1) as C.
      replace (n + (snd (Game.fixedSteps fuel (S steps) g1) - steps))%nat
        with (S n + (snd (Game.fixedSteps fuel (S steps) g1) - S steps))%nat
        by lia.
      exact IH.
    + cbn [fst snd]. replace (n + (steps - steps))%nat with n by lia. exact H.
Qed.

(** Scores only go up, and slowly: one fixed step gives at most one point,
    to one player; one call of [update] gives at most [maxSteps] points in
    all, and takes none away. *)
Theorem update_awards_points (currentTime dt : Q) (g : Game.t) :
  onePoint g (Game.fixedUpdate dt g)
  /\ pointsWithin Game.maxSteps g (Game.update currentTime g).
Proof.
  split; [apply fixedUpdate_onePoint|].
  unfold Game.update, Game.updateCounting.
  assert (R : pointsWithin 0 g g) by (unfold pointsWithin; repeat split; lia).
  assert (W : forall n h, (n <= Game.maxSteps)%nat -> pointsWithin n g h ->
                pointsWithin Game.maxSteps g h).
  { unfold pointsWithin. intros n h L (H1 & H2 & H3). repeat split; lia. }
  destruct (Qeqb (Game.lastUpdateTime g) 0).
  - cbn [fst]. apply (W O); [lia | exact R].
  - pose proof (@fixedSteps_points Game.maxSteps 0 0 g
                  (Game.accumulate currentTime g) R) as P.
    pose proof (@fixedSteps_count M Game.maxSteps 0
                  (Game.accumulate currentTime g) (Nat.le_0_l _)) as C.
    destruct (Game.fixedSteps Game.maxSteps 0 (Game.accumulate currentTime g))
      as [g1 steps].
    cbn [fst snd] in *.
    destruct (_ && _); cbn [fst];
      apply (W (0 + (steps - 0))%nat); try lia; exact P.
Qed.

(** The end of the match. *)
(** The end of the game is decided by the scores after the scoring test,
    the player first: if the player has reached the winning score the game
    is over and the player has won, even when the opponent has reached it
    too; otherwise if the opponent has reached it the game is over and the
    opponent has won; otherwise the status and the winner are the ones
    before. *)
Theorem checkScoring_ends_game (g : Game.t) :
  let g' := Game.checkScoring g in
  ((winningScore (Game.config g) <= Game.playerScore g')%Z ->
   Game.status g' = GAME_OVER /\ Game.winner g' = Some player)
  /\ ((Game.playerScore g' < winningScore (Game.config g))%Z ->
      (winningScore (Game.config g) <= Game.opponentScore g')%Z ->
      Game.status g' = GAME_OVER /\ Game.winner g' = Some opponent)
  /\ ((Game.playerScore g' < winningScore (Game.config g))%Z ->
      (Game.opponentScore g' < winningScore (Game.config g))%Z ->
      Game.status g' = Game.status g /\ Game.winner g' = Game.winner g).
Proof.
  cbv zeta. unfold Game.checkScoring.
  destruct (scoreMainBall_control g) as (Hs & Hw & _).
  assert (Hc : Game.config (fst (Game.scoreMainBall g)) = Game.config g).
  { unfold Game.scoreMainBall. cbv zeta.
    destruct (Ball.checkScoringBoundary 0 (Game.fieldWidth g) (Game.ball g))
      as [[|]|]; cbn [fst]; [| |reflexivity];
      match goal with
      | |- context [Game.resetBall ?s ?h] =>
          destruct (resetBall_frame s h)
            as [(_ & _ & _ & _ & _ & _ & Hc & _) _]; rewrite Hc
      end; destruct (Game.isHostRole g); reflexivity. }
  destruct (Game.scoreMainBall g) as [g1 scored]. cbn [fst] in *.
  rewrite <- Hs, <- Hw, <- Hc.
  unfold Game.settleScoring, Game.endGame. cbv zeta.
  cbn [Game.config Game.set_additionalBalls Game.playerScore
       Game.opponentScore].
  destruct (winningScore (Game.config g1) <=? Game.playerScore g1)%Z eqn:E1;
    [apply Z.leb_le in E1 | apply Z.leb_gt in E1];
    [| destruct (winningScore (Game.config g1) <=? Game.opponentScore g1)%Z
         eqn:E2; [apply Z.leb_le in E2 | apply Z.leb_gt in E2]];
    destruct scored; cbn;
    (split; [intro; try lia; split; reflexivity|]);
    (split; [intros; try lia; split; reflexivity|]);
    intros; try lia; split; reflexivity.
Qed.

End PointsInPlay.

Section FrozenGame.
Context {M : JsMath}.

Lemma withLoopOf_accumulator (g0 g : Game.t) (a : Q) :
  withLoopOf g0 (Game.set_accumulator a g) = withLoopOf g0 g.
Proof. destruct g. reflexivity. Qed.

Lemma withLoopOf_lastUpdateTime (g0 g : Game.t) (t : Q) :
  withLoopOf g0 (Game.set_lastUpdateTime t g) = withLoopOf g0 g.
Proof. destruct g. reflexivity. Qed.

Lemma withLoopOf_self (g : Game.t) : withLoopOf g g = g.
Proof. destruct g. reflexivity. Qed.

Lemma fixedSteps_frozen (fuel steps : nat) (g0 g : Game.t) :
  frozen (Game.status g) = true ->
  withLoopOf g0 (fst (Game.fixedSteps fuel steps g)) = withLoopOf g0 g.
Proof.
  revert steps g. induction fuel as [|fuel IH]; intros steps g F.
  - reflexivity.
  - rewrite fixedSteps_unfold. destruct (_ && _); [|reflexivity].
    assert (E : Game.fixedUpdate Game.fixedTimeStep g = g).
    { unfold Game.fixedUpdate. destruct (Game.status g);
        first [reflexivity | discriminate F]. }
    rewrite E. rewrite IH by exact F.
    apply withLoopOf_accumulator.
Qed.

(** While the game waits for the opponent, is paused or is over, [update]
    changes nothing but the bookkeeping of the loop (the time of the last
    update and the accumulator). *)
Theorem update_leaves_frozen_game (currentTime : Q) (g : Game.t) :
  frozen (Game.status g) = true ->
  withLoopOf g (Game.update currentTime g) = g.
Proof.
  intro F. rewrite <- (withLoopOf_self g) at 3.
  unfold Game.update, Game.updateCounting.
  destruct (Qeqb (Game.lastUpdateTime g) 0); cbn [fst].
  - apply withLoopOf_lastUpdateTime.
  - pose proof (@fixedSteps_frozen Game.maxSteps 0 g
                  (Game.accumulate currentTime g) F) as H.
    destruct (Game.fixedSteps Game.maxSteps 0 (Game.accumulate currentTime g))
      as [g1 steps].
    cbn [fst] in H.
    assert (A : withLoopOf g (Game.accumulate currentTime g) = withLoopOf g g).
    { unfold Game.accumulate. cbv zeta.
      rewrite withLoopOf_accumulator. apply withLoopOf_lastUpdateTime. }
    destruct (_ && _); cbn [fst];
      rewrite ?withLoopOf_accumulator; congruence.
Qed.

End FrozenGame.

Section PauseResume.
Context {M : JsMath}.

(** Pausing and resuming undo each other: a playing game that is paused and
    resumed, and a paused game that is resumed and paused, are exactly as
    before.  Pausing a game that is not playing and resuming a game that is
    not paused do nothing. *)
Theorem pause_resume_round_trip (g : Game.t) :
  (Game.status g = PLAYING ->
   Game.status (Game.pauseGame g) = PAUSED
   /\ Game.resumeGame (Game.pauseGame g) = g)
  /\ (Game.status g = PAUSED ->
      Game.status (Game.resumeGame g) = PLAYING
      /\ Game.pauseGame (Game.resumeGame g) = g)
  /\ (Game.status g <> PLAYING -> Game.pauseGame g = g)
  /\ (Game.status g <> PAUSED -> Game.resumeGame g = g).
Proof.
  unfold Game.pauseGame, Game.resumeGame.
  destruct g as [? ? ? ? ? ? ? ? s ? ? ? ? ? ? ? ? ? ? ? ? ?]. cbn.
  destruct s; cbn; repeat split; intros; try reflexivity;
    try discriminate; try congruence.
Qed.

End PauseResume.

Section CountdownTimers.
Context {M : JsMath}.

Lemma startGame_from_countdown (g : Game.t) :
  Game.status g = COUNTDOWN ->
  Game.status (Game.startGame g) = PLAYING
  /\ Game.countdownTimeout (Game.startGame g) = None
  /\ Game.countdown (Game.startGame g) = Game.countdown g
  /\ Game.ball (Game.startGame g)
     = Ball.reset (fieldCenter g)
         (mkVec
            ((if Qgeb (draws (Game.env g) (cursor (Game.env g))) 0.5
              then -1 else 1) * ballSpeed (Game.config g))
            ((draws (Game.env g) (S (cursor (Game.env g))) - 0.5)
             * (ballSpeed (Game.config g) * 0.5)))
         true (Game.ball g).
Proof.
  intro S. unfold Game.startGame, random. cbv zeta.
  cbn [Game.status Game.set_countdownTimeout]. rewrite S.
  cbn [GameStatus_eqb].
  match goal with
  | |- context [Game.resetBall ?s ?h] =>
      destruct (resetBall_frame s h) as [(Hs & _ & _ & _ & Hc & Ht & _) _];
      destruct (resetBall_spec s h) as (Hb & _);
      cbv zeta in Hb; rewrite Hs, Hc, Ht, Hb
  end.
  repeat split; reflexivity.
Qed.

Lemma fireCountdownTimeout_step (g : Game.t) :
  Game.status g = COUNTDOWN -> Game.countdownTimeout g <> None ->
  let g' := Game.fireCountdownTimeout g in
  (1 < Game.countdown g ->
   Game.status g' = COUNTDOWN /\ Game.countdownTimeout g' <> None
   /\ Game.countdown g' = Game.countdown g - 1)%Z
  /\ ((Game.countdown g <= 1)%Z ->
      Game.status g' = PLAYING /\ Game.countdownTimeout g' = None).
Proof.
  intros S T. cbv zeta. unfold Game.fireCountdownTimeout.
  destruct (Game.countdownTimeout g) as [[|]|]; [| |contradiction T; reflexivity].
  - unfold Game.decrementCountdown. cbv zeta.
    cbn [Game.countdown Game.set_countdown Game.set_countdownTimer
         Game.set_countdownTimeout].
    destruct (Game.countdown g - 1 <=? 0)%Z eqn:E;
      [apply Z.leb_le in E | apply Z.leb_gt in E].
    + split; [intro; lia|]. intros _.
      match goal with
      | |- context [Game.startGame ?h] =>
          destruct (@startGame_from_countdown h S) as (H1 & H2 & _)
      end.
      split; assumption.
    + split; [|intro; lia]. intros _. cbn.
      split; [exact S|]. split; [discriminate | reflexivity].
  - unfold Game.failsafeCallback, Game.setupCountdownFailsafe. cbv zeta.
    cbn [Game.countdown Game.set_countdown Game.set_countdownTimer
         Game.set_countdownTimeout].
    destruct (Game.countdown g - 1 <=? 0)%Z eqn:E;
      [apply Z.leb_le in E | apply Z.leb_gt in E].
    + split; [intro; lia|]. intros _.
      match goal with
      | |- context [Game.startGame ?h] =>
          destruct (@startGame_from_countdown h S) as (H1 & H2 & _)
      end.
      split; assumption.
    + split; [|intro; lia]. intros _. cbn.
      split; [exact S|]. split; [discriminate | reflexivity].
Qed.

(** A countdown that stands at [n] with its timer pending takes exactly [n]
    firings of the timer: before the last one the game is still counting
    down, one less each time, and the last one starts play and leaves no
    timer pending. *)
Theorem countdown_timers_start_the_game (g : Game.t) :
  Game.status g = COUNTDOWN -> Game.countdownTimeout g <> None ->
  (0 < Game.countdown g)%Z ->
  (forall k, (k < Z.to_nat (Game.countdown g))%nat ->
     Game.status (fireTimers k g) = COUNTDOWN
     /\ Game.countdown (fireTimers k g) = (Game.countdown g - Z.of_nat k)%Z)
  /\ Game.status (fireTimers (Z.to_nat (Game.countdown g)) g) = PLAYING
  /\ Game.countdownTimeout (fireTimers (Z.to_nat (Game.countdown g)) g) = None.
Proof.
  remember (Z.to_nat (Game.countdown g)) as n eqn:N.
  revert g N. induction n as [|n IH]; intros g N Hs T P; [lia|].
  destruct (fireCountdownTimeout_step g Hs T) as [Many Last].
  cbv zeta in Many, Last. cbn [fireTimers].
  destruct n as [|n].
  - assert (C : (Game.countdown g <= 1)%Z) by lia.
    destruct (Last C) as [L1 L2].
    split; [|split; assumption].
    intros k K. assert (k = O) by lia. subst k. cbn [fireTimers].
    split; [exact Hs | lia].
  - assert (C : (1 < Game.countdown g)%Z) by lia.
    destruct (Many C) as (M1 & M2 & M3).
    assert (N' : S n = Z.to_nat (Game.countdown (Game.fireCountdownTimeout g)))
      by lia.
    assert (P' : (0 < Game.countdown (Game.fireCountdownTimeout g))%Z) by lia.
    destruct (IH _ N' M1 M2 P') as (I1 & I2 & I3).
    split; [|split; assumption].
    intros [|k] K; cbn [fireTimers].
    + split; [exact Hs | lia].
    + destruct (I1 k ltac:(lia)) as [J1 J2]. split; [exact J1 | lia].
Qed.

End CountdownTimers.

Section Restart.
Context {M : JsMath}.

Lemma resetBall_rest (s : bool) (g : Game.t) :
  Game.powerUpManager (Game.resetBall s g) = Game.powerUpManager g
  /\ Game.turboModeActive (Game.resetBall s g) = Game.turboModeActive g
  /\ Game.gameSpeedMultiplier (Game.resetBall s g) = Game.gameSpeedMultiplier g
  /\ Game.additionalBalls (Game.resetBall s g) = []
  /\ Ball.position (Game.ball (Game.resetBall s g)) = fieldCenter g.
Proof.
  destruct (resetBall_spec s g) as (Hb & Ha & _). cbv zeta in Hb, Ha.
  rewrite Hb, Ha. split; [reflexivity|]. split; [reflexivity|].
  split; [reflexivity|]. split; [reflexivity|]. apply reset_spec.
Qed.

Lemma startCountdown_outcome (g : Game.t) :
  let g' := Game.startCountdown g in
  Game.playerScore g' = Game.playerScore g
  /\ Game.opponentScore g' = Game.opponentScore g
  /\ Game.winner g' = Game.winner g
  /\ Game.powerUpManager g' = Game.powerUpManager g
  /\ Game.turboModeActive g' = Game.turboModeActive g
  /\ Game.gameSpeedMultiplier g' = Game.gameSpeedMultiplier g
  /\ (Game.status g = PLAYING \/ Game.status g = COUNTDOWN -> g' = g)
  /\ (Game.status g <> PLAYING -> Game.status g <> COUNTDOWN ->
      Game.status g' = COUNTDOWN
      /\ Game.countdown g' = 3%Z
      /\ Game.countdownTimeout g' = Some Game.FailsafeTimer
      /\ Game.additionalBalls g' = []
      /\ Ball.position (Game.ball g') = fieldCenter g).
Proof.
  cbv zeta. unfold Game.startCountdown.
  destruct (GameStatus_eqb (Game.status g) PLAYING) eqn:E1.
  { apply GameStatus_eqb_spec in E1. cbn [orb].
    repeat split; try reflexivity; contradiction. }
  destruct (GameStatus_eqb (Game.status g) COUNTDOWN) eqn:E2.
  { apply GameStatus_eqb_spec in E2. cbn [orb].
    repeat split; try reflexivity; contradiction. }
  cbn [orb]. unfold random. cbv zeta.
  match goal with
  | |- context [Game.resetBall ?s ?h] =>
      destruct (resetBall_frame s h)
        as [(_ & Hw & Hp & Ho & _ & _ & _ & _ & _ & _) _];
      destruct (resetBall_rest s h) as (Hm1 & Hm2 & Hm3 & Ha & Hb);
      generalize dependent (Game.resetBall s h)
  end.
  intros g2 Hw Hp Ho Hm1 Hm2 Hm3 Ha Hb.
  unfold Game.setupCountdownFailsafe. cbv zeta.
  cbn [Game.countdown Game.set_countdown Game.set_status
       Game.set_countdownTimeout Z.leb Z.compare].
  cbn [Game.playerScore Game.opponentScore Game.winner Game.powerUpManager
       Game.turboModeActive Game.gameSpeedMultiplier Game.status
       Game.countdown Game.countdownTimeout Game.additionalBalls Game.ball
       Game.set_countdown Game.set_status Game.set_countdownTimeout].
  rewrite Hw, Hp, Ho, Hm1, Hm2, Hm3, Ha, Hb.
  split; [reflexivity|]. split; [reflexivity|]. split; [reflexivity|].
  split; [reflexivity|]. split; [reflexivity|]. split; [reflexivity|].
  split.
  - intros [K|K].
    + rewrite K in E1. discriminate E1.
    + rewrite K in E2. discriminate E2.
  - intros _ _. repeat split; reflexivity.
Qed.

(** [restartGame] clears the scores, the winner, the additional balls, the
    power-ups and the turbo mode, and puts the ball in the middle of the
    field.  From a game that is waiting, paused or over it starts a
    countdown from 3 with the failsafe timer pending.  From a game that is
    playing or counting down it starts no countdown: the status stays, the
    pending timer is dropped and the ball is left at rest. *)
Theorem restartGame_resets (g : Game.t) :
  let g' := Game.restartGame g in
  Game.playerScore g' = 0%Z
  /\ Game.opponentScore g' = 0%Z
  /\ Game.winner g' = None
  /\ Game.additionalBalls g' = []
  /\ PowerUpManager.powerUps (Game.powerUpManager g') = []
  /\ PowerUpManager.activePowerUps (Game.powerUpManager g') = []
  /\ Game.turboModeActive g' = false
  /\ Game.gameSpeedMultiplier g' = 1
  /\ Ball.position (Game.ball g') = fieldCenter g
  /\ (Game.status g = PLAYING \/ Game.status g = COUNTDOWN ->
      Game.status g' = Game.status g
      /\ Game.countdown g' = Game.countdown g
      /\ Game.countdownTimeout g' = None
      /\ Ball.velocity (Game.ball g') = mkVec 0 0)
  /\ (Game.status g <> PLAYING -> Game.status g <> COUNTDOWN ->
      Game.status g' = COUNTDOWN
      /\ Game.countdown g' = 3%Z
      /\ Game.countdownTimeout g' = Some Game.FailsafeTimer).
Proof.
  cbv zeta. unfold Game.restartGame. cbv zeta.
  set (g1 := Game.set_additionalBalls [] _).
  assert (F : Game.playerScore g1 = 0%Z
              /\ Game.opponentScore g1 = 0%Z
              /\ Game.winner g1 = None
              /\ Game.additionalBalls g1 = []
              /\ PowerUpManager.powerUps (Game.powerUpManager g1) = []
              /\ PowerUpManager.activePowerUps (Game.powerUpManager g1) = []
              /\ Game.turboModeActive g1 = false
              /\ Game.gameSpeedMultiplier g1 = 1
              /\ Game.ball g1
                 = Game.initialBall (Game.config g) (Game.fieldWidth g)
                     (Game.fieldHeight g)
              /\ Game.status g1 = Game.status g
              /\ Game.countdown g1 = Game.countdown g
              /\ Game.countdownTimeout g1 = None
              /\ fieldCenter g1 = fieldCenter g).
  { unfold g1, Game.initializeGameObjects, Game.cleanup. cbv zeta.
    destruct (Game.initialPaddles _ _ _ _) as [mine theirs].
    repeat split; reflexivity. }
  clearbody g1.
  destruct F as (F1 & F2 & F3 & F4 & F5 & F6 & F7 & F8 & F9 & F10 & F11
                 & F12 & F13).
  destruct (startCountdown_outcome g1)
    as (S1 & S2 & S3 & S4 & S5 & S6 & Same & Fresh).
  cbv zeta in S1, S2, S3, S4, S5, S6, Same, Fresh.
  rewrite S1, S2, S3, S4, S5, S6, F1, F2, F3, F5, F6, F7, F8.
  rewrite <- F10 in *.
  split; [reflexivity|]. split; [reflexivity|]. split; [reflexivity|].
  assert (D : Game.status g1 = PLAYING \/ Game.status g1 = COUNTDOWN
              \/ (Game.status g1 <> PLAYING /\ Game.status g1 <> COUNTDOWN)).
  { destruct (Game.status g1); auto; right; right; split; discriminate. }
  destruct D as [D|[D|[D1 D2]]].
  - rewrite (Same (or_introl D)), F4, F9, F11, F12.
    repeat split; try reflexivity; contradiction.
  - rewrite (Same (or_intror D)), F4, F9, F11, F12.
    repeat split; try reflexivity; contradiction.
  - destruct (Fresh D1 D2) as (R1 & R2 & R3 & R4 & R5).
    rewrite R1, R2, R3, R4, R5, F13.
    repeat split; try reflexivity;
      match goal with K : _ \/ _ |- _ => destruct K; contradiction end.
Qed.

End Restart.

Section SnapshotTransfer.
Context {M : JsMath}.

Lemma setState_getState_balls (bs : list Ball.t) (l : list Ball.t) :
  length l = length bs ->
  map Ball.getState
    (map (fun sb => Ball.setState (fst sb) (snd sb))
       (combine (map Ball.getState bs) l))
  = map Ball.getState bs.
Proof.
  revert l. induction bs as [|b bs IH]; intros [|b' l] H;
    try reflexivity; try discriminate H.
  cbn [map combine fst snd]. rewrite IH by (injection H as H; exact H).
  reflexivity.
Qed.

Lemma syncAdditionalBalls_getState (bs : list Ball.t) (g : Game.t) :
  map Ball.getState (Game.syncAdditionalBalls (map Ball.getState bs) g)
  = map Ball.getState bs.
Proof.
  unfold Game.syncAdditionalBalls. cbv zeta.
  apply setState_getState_balls.
  rewrite length_firstn, length_app, repeat_length, !length_map. lia.
Qed.

Lemma serveIfJumping_rest (old : GameStatus) (state : GameState) (g : Game.t) :
  let g' := Game.serveIfJumping old state g in
  Game.powerUpManager g' = Game.powerUpManager g
  /\ Paddle.minY (Game.playerPaddle g') = Paddle.minY (Game.playerPaddle g)
  /\ Paddle.maxY (Game.playerPaddle g') = Paddle.maxY (Game.playerPaddle g)
  /\ Paddle.minY (Game.opponentPaddle g') = Paddle.minY (Game.opponentPaddle g)
  /\ Paddle.maxY (Game.opponentPaddle g') = Paddle.maxY (Game.opponentPaddle g).
Proof.
  unfold Game.serveIfJumping, Game.resetBall, random. cbv zeta.
  destruct (_ && _); repeat split; reflexivity.
Qed.

(** What [Paddle.setState] makes of a paddle state whose optional fields
    are present, as [getState] reports it: the state itself, the ordinate
    clamped between the boundaries of the receiving paddle. *)
Lemma Paddle_state_transfer (p q : Paddle.t) :
  let s := Paddle.getState p in
  let s' := Paddle.getState (Paddle.setState s q) in
  x (ps_position s') = x (ps_position s)
  /\ y (ps_position s')
     = clamp (Paddle.minY q + ps_height s / 2) (y (ps_position s))
         (Paddle.maxY q - ps_height s / 2)
  /\ ps_width s' = ps_width s
  /\ ps_height s' = ps_height s
  /\ ps_isMovingUp s' = ps_isMovingUp s
  /\ ps_isMovingDown s' = ps_isMovingDown s
  /\ ps_isRebounding s' = ps_isRebounding s
  /\ ps_reboundTime s' = ps_reboundTime s.
Proof. destruct p, q. repeat split; reflexivity. Qed.

End SnapshotTransfer.

Section HardReconciliation.
Context {M : JsMath}.

Lemma applySnapshot_getState (host h : Game.t) :
  Game.status h = Game.status host ->
  let s := Game.getState host in
  let h' := Game.applySnapshot s h in
  Game.status h' = Game.status host
  /\ Game.ball h' = Ball.setState (Ball.getState (Game.ball host)) (Game.ball h)
  /\ Game.playerPaddle h'
     = Paddle.setState (Paddle.getState (Game.playerPaddle host))
         (Game.playerPaddle h)
  /\ Game.opponentPaddle h'
     = Paddle.setState (Paddle.getState (Game.opponentPaddle host))
         (Game.opponentPaddle h)
  /\ Game.playerScore h' = Game.playerScore host
  /\ Game.opponentScore h' = Game.opponentScore host
  /\ (Game.status host = COUNTDOWN -> Game.countdown h' = Game.countdown host)
  /\ Game.winner h' = Game.winner host
  /\ Game.config h' = Game.config host
  /\ Game.turboModeActive h' = Game.turboModeActive host
  /\ Game.turboModeTimeRemaining h' = Game.turboModeTimeRemaining host
  /\ Game.gameSpeedMultiplier h' = Game.gameSpeedMultiplier host
  /\ map Ball.getState (Game.additionalBalls h')
     = map Ball.getState (Game.additionalBalls host)
  /\ Game.powerUpManager h' = Game.powerUpManager h
  /\ clock (Game.env h') = clock (Game.env h).
Proof.
  intros Hs. cbv zeta.
  pose proof (syncAdditionalBalls_getState (Game.additionalBalls host)) as A.
  unfold Game.applySnapshot. cbv zeta.
  cbn [Game.getState gs_ball gs_playerPaddle gs_opponentPaddle gs_playerScore
       gs_opponentScore gs_countdown gs_winner gs_config gs_turboModeActive
       gs_turboModeTimeRemaining gs_gameSpeedMultiplier gs_additionalBalls
       gs_status
       Game.status Game.ball Game.playerPaddle Game.opponentPaddle
       Game.playerScore Game.opponentScore Game.countdown Game.winner
       Game.config Game.turboModeActive Game.turboModeTimeRemaining
       Game.gameSpeedMultiplier Game.additionalBalls Game.powerUpManager
       Game.env
       Game.set_ball Game.set_playerPaddle Game.set_opponentPaddle
       Game.set_playerScore Game.set_opponentScore].
  destruct (GameStatus_eqb (Game.status host) COUNTDOWN) eqn:E;
    [destruct (Game.countdown h =? Game.countdown host)%Z eqn:C|];
    destruct (Game.winner host) as [w|];
    (destruct (map Ball.getState (Game.additionalBalls host))
       as [|s0 states] eqn:L);
    cbn [andb negb
         Game.status Game.ball Game.playerPaddle Game.opponentPaddle
         Game.playerScore Game.opponentScore Game.countdown Game.winner
         Game.config Game.turboModeActive Game.turboModeTimeRemaining
         Game.gameSpeedMultiplier Game.additionalBalls Game.powerUpManager
         Game.env
         Game.set_ball Game.set_playerPaddle Game.set_opponentPaddle
         Game.set_playerScore Game.set_opponentScore Game.set_countdown
         Game.set_countdownTimer Game.set_winner Game.set_config
         Game.set_turboModeActive Game.set_turboModeTimeRemaining
         Game.set_gameSpeedMultiplier Game.set_additionalBalls map];
    rewrite ?A;
    repeat split; try reflexivity; try assumption;
    try (intro K; rewrite K in E; discriminate E);
    try (intros _; apply Z.eqb_eq in C; exact C).
Qed.

Lemma Paddle_setState_receiver (p0 p q : Paddle.t) :
  Paddle.minY p = Paddle.minY q -> Paddle.maxY p = Paddle.maxY q ->
  Paddle.getState (Paddle.setState (Paddle.getState p0) p)
  = Paddle.getState (Paddle.setState (Paddle.getState p0) q).
Proof.
  destruct p0, p, q. cbn [Paddle.minY Paddle.maxY]. intros -> ->.
  reflexivity.
Qed.

(** A full snapshot of the host, taken in by a client that does not enter
    the countdown with it, makes the client report the host's status, ball,
    scores, countdown, winner, configuration, additional balls and turbo
    mode.  The paddles are the host's as far as the client's own vertical
    boundaries allow.  The power-ups are not copied: the client keeps its
    own. *)
Theorem hard_reconciliation_copies (host client : Game.t) :
  entersCountdown (Game.getState host) client = false ->
  let s := Game.getState host in
  let s' := Game.getState (Game.setState s client) in
  gs_status s' = gs_status s
  /\ gs_ball s' = gs_ball s
  /\ gs_playerScore s' = gs_playerScore s
  /\ gs_opponentScore s' = gs_opponentScore s
  /\ gs_countdown s' = gs_countdown s
  /\ gs_winner s' = gs_winner s
  /\ gs_config s' = gs_config s
  /\ gs_additionalBalls s' = gs_additionalBalls s
  /\ gs_turboModeActive s' = gs_turboModeActive s
  /\ gs_turboModeTimeRemaining s' = gs_turboModeTimeRemaining s
  /\ gs_gameSpeedMultiplier s' = gs_gameSpeedMultiplier s
  /\ gs_playerPaddle s'
     = Paddle.getState
         (Paddle.setState (gs_playerPaddle s) (Game.playerPaddle client))
  /\ gs_opponentPaddle s'
     = Paddle.getState
         (Paddle.setState (gs_opponentPaddle s) (Game.opponentPaddle client))
  /\ gs_powerUps s' = gs_powerUps (Game.getState client)
  /\ gs_activePowerUps s' = gs_activePowerUps (Game.getState client).
Proof.
  intros E. cbv zeta. rewrite (setState_copies _ _ E).
  set (h := Game.serveIfJumping _ _ _).
  assert (Hs : Game.status h = Game.status host).
  { unfold h. destruct (serveIfJumping_frame (Game.status client)
                          (Game.getState host)
                          (Game.set_status (gs_status (Game.getState host))
                             client)) as (K & _).
    cbv zeta in K. rewrite K. reflexivity. }
  destruct (serveIfJumping_rest (Game.status client) (Game.getState host)
              (Game.set_status (gs_status (Game.getState host)) client))
    as (Rm & R1 & R2 & R3 & R4).
  cbv zeta in Rm, R1, R2, R3, R4. fold h in Rm, R1, R2, R3, R4.
  cbn [Game.set_status Game.powerUpManager Game.playerPaddle
       Game.opponentPaddle] in Rm, R1, R2, R3, R4.
  destruct (applySnapshot_getState host h Hs)
    as (A1 & A2 & A3 & A4 & A5 & A6 & A7 & A8 & A9 & A10 & A11 & A12 & A13
        & A14 & A15).
  cbv zeta in A1, A2, A3, A4, A5, A6, A7, A8, A9, A10, A11, A12, A13, A14, A15.
  clearbody h.
  generalize dependent (Game.applySnapshot (Game.getState host) h).
  intros h' A1 A2 A3 A4 A5 A6 A7 A8 A9 A10 A11 A12 A13 A14 A15.
  unfold Game.getState.
  cbn [gs_status gs_ball gs_playerScore gs_opponentScore gs_countdown
       gs_winner gs_config gs_additionalBalls gs_turboModeActive
       gs_turboModeTimeRemaining gs_gameSpeedMultiplier gs_playerPaddle
       gs_opponentPaddle gs_powerUps gs_activePowerUps].
  rewrite A1, A2, A3, A4, A5, A6, A8, A9, A10, A11, A12, A13, A14, Rm.
  rewrite (Paddle_setState_receiver _ _ _ R1 R2).
  rewrite (Paddle_setState_receiver _ _ _ R3 R4).
  split; [reflexivity|]. split; [destruct (Game.ball host); reflexivity|].
  split; [reflexivity|]. split; [reflexivity|].
  split.
  { destruct (GameStatus_eqb (Game.status host) COUNTDOWN) eqn:C;
      [|reflexivity].
    apply GameStatus_eqb_spec in C. rewrite (A7 C). reflexivity. }
  repeat split; reflexivity.
Qed.

End HardReconciliation.

(** ** SyncService: the buffer of snapshots and the throttle of the inputs *)

Section SyncFacts.

Lemma bufferGameState_window (state : GameState) (s : SyncService.t) :
  (length (SyncService.stateBuffer s) <= 10)%nat ->
  SyncService.stateBuffer (SyncService.bufferGameState state s)
  = skipn (length (SyncService.stateBuffer s ++ [state]) - 10)
      (SyncService.stateBuffer s ++ [state])
  /\ SyncService.inputBuffer (SyncService.bufferGameState state s)
     = SyncService.inputBuffer s.
Proof.
  intros L. unfold SyncService.bufferGameState. cbv zeta.
  rewrite length_app. cbn [length].
  destruct (10 <=? length (SyncService.stateBuffer s))%nat eqn:E.
  - apply Nat.leb_le in E.
    assert (K : length (SyncService.stateBuffer s) = 10%nat) by lia.
    rewrite K. cbn [Nat.add Nat.sub].
    split; [|reflexivity].
    cbn [SyncService.stateBuffer SyncService.set_stateBuffer].
    destruct (SyncService.stateBuffer s) as [|a l];
      [discriminate K | reflexivity].
  - apply Nat.leb_gt in E.
    replace (length (SyncService.stateBuffer s) + 1 - 10)%nat with 0%nat
      by lia.
    split; reflexivity.
Qed.

Lemma window_slides (A : Type) (l r : list A) :
  skipn (length (skipn (length l - 10) l ++ r) - 10)
    (skipn (length l - 10) l ++ r)
  = skipn (length (l ++ r) - 10) (l ++ r).
Proof.
  rewrite !length_app, length_skipn.
  assert (E : skipn (length l - 10) l ++ r = skipn (length l - 10) (l ++ r)).
  { rewrite skipn_app.
    replace (length l - 10 - length l)%nat with 0%nat by lia.
    reflexivity. }
  rewrite E, skipn_skipn. f_equal. lia.
Qed.

(** The buffer of the received snapshots is a sliding window: after any
    number of snapshots it holds the last ten of all those it has been
    given, oldest first, and the latest one is the one pushed last. *)
Theorem state_buffer_keeps_last_ten (states : list GameState)
    (s : SyncService.t) :
  (length (SyncService.stateBuffer s) <= 10)%nat ->
  let s' := bufferGameStates states s in
  let all := SyncService.stateBuffer s ++ states in
  SyncService.stateBuffer s' = skipn (length all - 10) all
  /\ (length (SyncService.stateBuffer s') <= 10)%nat
  /\ (forall before state, states = before ++ [state] ->
      SyncService.getLatestState s' = Some state)
  /\ SyncService.inputBuffer s' = SyncService.inputBuffer s.
Proof.
  intros L. cbv zeta.
  assert (W : SyncService.stateBuffer (bufferGameStates states s)
              = skipn (length (SyncService.stateBuffer s ++ states) - 10)
                  (SyncService.stateBuffer s ++ states)
              /\ SyncService.inputBuffer (bufferGameStates states s)
                 = SyncService.inputBuffer s).
  { revert s L. induction states as [|state rest IH]; intros s L.
    - cbn. rewrite app_nil_r.
      replace (length (SyncService.stateBuffer s) - 10)%nat with 0%nat by lia.
      split; reflexivity.
    - unfold bufferGameStates. cbn [fold_left].
      fold (bufferGameStates rest (SyncService.bufferGameState state s)).
      destruct (bufferGameState_window state s L) as (B & I).
      assert (L' : (length (SyncService.stateBuffer
                              (SyncService.bufferGameState state s))
                    <= 10)%nat).
      { rewrite B, length_skipn, length_app. cbn [length]. lia. }
      destruct (IH _ L') as (IH1 & IH2).
      rewrite IH1, IH2, I, B. split; [|reflexivity].
      rewrite window_slides, <- app_assoc. reflexivity. }
  destruct W as (W & I).
  split; [exact W|].
  split; [rewrite W, length_skipn; lia|].
  split; [|exact I].
  intros before state ->.
  unfold SyncService.getLatestState. rewrite W.
  rewrite app_assoc.
  set (all := SyncService.stateBuffer s ++ before).
  assert (E : skipn (length (all ++ [state]) - 10) (all ++ [state])
              = skipn (length (all ++ [state]) - 10) all ++ [state]).
  { rewrite skipn_app, length_app. cbn [length].
    replace (length all + 1 - 10 - length all)%nat with 0%nat by lia.
    reflexivity. }
  rewrite E.
  destruct (skipn _ all) as [|a l]; [reflexivity|].
  cbn [app]. f_equal. apply last_last.
Qed.

(** The client's inputs are throttled: two consecutive PADDLE_MOVE messages
    are sent at frame times at least [inputSyncInterval] apart, the first
    one that long after the last one sent before; and a call that comes
    that long after the last message sent does send one, with the input it
    was given. *)
Theorem input_sync_is_throttled (calls : list (bool * bool * Q)) (now : Z)
    (s : SyncService.t) :
  spaced (SyncService.inputSyncInterval (SyncService.config s))
    (SyncService.lastInputSyncTime s) (inputSyncTimes calls now s)
  /\ (forall isMovingUp isMovingDown timestamp,
        SyncService.inputSyncInterval (SyncService.config s)
        <= timestamp - SyncService.lastInputSyncTime s <->
        snd (SyncService.syncInputState isMovingUp isMovingDown timestamp now
               s)
        = Some (PaddleMoveMessage (Some isMovingUp) (Some isMovingDown)
                  (Some now))).
Proof.
  split.
  - revert s. induction calls as [|[[up down] timestamp] rest IH]; intro s.
    + exact I.
    + cbn [inputSyncTimes]. unfold SyncService.syncInputState.
      destruct (Qltb _ _) eqn:E.
      * apply IH.
      * apply Qltb_false in E. cbn [spaced]. split; [exact E|].
        apply (IH (SyncService.set_lastInputSyncTime timestamp s)).
  - intros up down timestamp. unfold SyncService.syncInputState.
    destruct (Qltb _ _) eqn:E; cbn [snd].
    + apply Qltb_spec in E. split; [intro H; exfalso; lra|].
      intro H; discriminate H.
    + apply Qltb_false in E. split; [reflexivity | intros _; exact E].
Qed.

End SyncFacts.

(** ** GameManager: what the messages and the buttons can do *)

Section ManagerControls.
Context {M : JsMath}.

Lemma sameSession_refl (m : GameManager.t) : sameSession m m.
Proof. repeat split. Qed.

Lemma syncStart_session (m : GameManager.t) :
  sameSession m (GameManager.syncStart m)
  /\ GameManager.game (GameManager.syncStart m) = GameManager.game m.
Proof.
  unfold GameManager.syncStart.
  destruct (SyncService.start (GameManager.now m) (GameManager.sync m)).
  repeat split.
Qed.

Lemma sendGameControl_session (action : GameControlAction)
    (m : GameManager.t) :
  sameSession m (GameManager.sendGameControl action m)
  /\ GameManager.game (GameManager.sendGameControl action m)
     = GameManager.game m
  /\ GameManager.outbox (GameManager.sendGameControl action m)
     = GameManager.outbox m
       ++ [GameControlMessage action (Some (GameManager.now m))].
Proof. repeat split. Qed.

Lemma startGame_session (m : GameManager.t) :
  sameSession m (GameManager.startGame m).
Proof.
  unfold GameManager.startGame.
  destruct (_ && _); [apply sameSession_refl|].
  destruct (_ && _); [apply sendGameControl_session|].
  cbv zeta.
  set (m1 := GameManager.set_loopRunning true _).
  assert (S1 : sameSession m m1) by (repeat split).
  clearbody m1.
  assert (S2 : sameSession m
                 (if GameManager.isNetworkGame m1
                  then GameManager.syncStart m1 else m1)).
  { destruct (GameManager.isNetworkGame m1); [|exact S1].
    destruct (syncStart_session m1) as ((A & B & C & D & E & F) & _).
    destruct S1 as (A1 & B1 & C1 & D1 & E1 & F1).
    repeat split; congruence. }
  set (m2 := if GameManager.isNetworkGame m1 then _ else _) in *.
  clearbody m2.
  destruct (_ && _); [|exact S2].
  destruct (sendGameControl_session START m2) as ((A & B & C & D & E & F) & _).
  destruct S2 as (A1 & B1 & C1 & D1 & E1 & F1).
  repeat split; congruence.
Qed.

Lemma press_session (action : GameControlAction) (m : GameManager.t) :
  sameSession m (press action m).
Proof.
  destruct action; cbn [press]; [apply startGame_session| | |];
    unfold GameManager.pauseGame, GameManager.resumeGame,
      GameManager.restartGame;
    (destruct (_ && _); [apply sendGameControl_session|]);
    cbv zeta;
    match goal with
    | |- context [GameManager.set_game ?g m] =>
        generalize g; intro g1
    end;
    destruct (GameManager.isNetworkGame _ && GameManager.isHost _);
    repeat split.
Qed.

Lemma onGameControl_lastControlTime (action : GameControlAction) (t : Z)
    (m : GameManager.t) :
  (0 < t)%Z ->
  lastControlTime 0 (GameManager.onGameControl action (Some t) m)
  = Z.max (lastControlTime 0 m) t.
Proof.
  intros Ht. unfold GameManager.onGameControl.
  destruct (GameManager.isStale (Some t) m) eqn:E.
  - unfold GameManager.isStale in E. unfold lastControlTime.
    destruct (GameManager.lastProcessedGameControl m) as [[a t0]|];
      [|discriminate E].
    apply andb_true_iff in E. destruct E as (_ & E).
    apply Z.ltb_lt in E. lia.
  - cbv zeta.
    assert (K : (orElse (Some t) (GameManager.now m)) = t).
    { unfold orElse. destruct (t =? 0)%Z eqn:Z0; [|reflexivity].
      apply Z.eqb_eq in Z0. lia. }
    rewrite K.
    set (m1 := GameManager.set_lastProcessedGameControl _ m).
    assert (L1 : lastControlTime 0 m1 = t) by reflexivity.
    assert (G : Z.max (lastControlTime 0 m) t = t).
    { unfold GameManager.isStale, truthy in E. unfold lastControlTime.
      destruct (GameManager.lastProcessedGameControl m) as [[a t0]|];
        [|lia].
      destruct (t0 =? 0)%Z eqn:Z0; [apply Z.eqb_eq in Z0; lia|].
      destruct (t =? 0)%Z eqn:Z1; [apply Z.eqb_eq in Z1; lia|].
      cbn [negb andb] in E. apply Z.ltb_ge in E. lia. }
    rewrite G. clearbody m1. clear E K G.
    assert (P : forall a, lastControlTime 0 (press a m1) = t).
    { intro a. destruct (press_session a m1) as (_ & _ & C & _).
      unfold lastControlTime in *. rewrite C. exact L1. }
    destruct action; [|apply (P PAUSE)|apply (P RESUME)|apply (P RESTART)].
    destruct (negb (GameManager.isStarting m1)); [|exact L1].
    cbv zeta.
    destruct (startGame_session (GameManager.set_isStarting true m1))
      as (_ & _ & C & _).
    unfold lastControlTime in *.
    cbn [GameManager.lastProcessedGameControl GameManager.set_startingTimer].
    rewrite C. exact L1.
Qed.

(** The manager remembers the newest control message: after any control
    messages with timestamps the clock can give, the time it has recorded
    is the greatest of the one it had and of all those delivered, and any
    control message older than that is dropped without any effect. *)
Theorem newest_control_is_remembered
    (controls : list (GameControlAction * Z)) (m : GameManager.t) :
  (forall c, In c controls -> (0 < snd c)%Z) ->
  let m' := receiveControls controls m in
  lastControlTime 0 m'
  = fold_left Z.max (map snd controls) (lastControlTime 0 m)
  /\ (forall action t,
        (0 < t)%Z -> (t < lastControlTime 0 m')%Z ->
        GameManager.onGameControl action (Some t) m' = m').
Proof.
  intros H. cbv zeta. split.
  - revert m. induction controls as [|[a t] rest IH]; intro m;
      [reflexivity|].
    unfold receiveControls. cbn [fold_left map fst snd].
    fold (receiveControls rest (GameManager.onGameControl a (Some t) m)).
    rewrite IH by (intros c Hc; apply H; right; exact Hc).
    rewrite onGameControl_lastControlTime
      by (apply (H (a, t)); left; reflexivity).
    reflexivity.
  - intros action t Ht Hlt.
    generalize dependent (receiveControls controls m). intros m' Hlt.
    unfold lastControlTime in Hlt.
    destruct (GameManager.lastProcessedGameControl m') as [[a t0]|] eqn:L;
      [|lia].
    apply onGameControl_stale.
    apply (isStale_older m' L); lia.
Qed.

End ManagerControls.

Section ManagerAuthority.
Context {M : JsMath}.

Lemma set_opponentPaddle_same (g : Game.t) :
  Game.set_opponentPaddle (Game.opponentPaddle g) g = g.
Proof. destruct g. reflexivity. Qed.

Lemma setOpponentInput_rest (isUpPressed isDownPressed : bool) (g0 g : Game.t) :
  Game.set_opponentPaddle (Game.opponentPaddle g0) g = g0 ->
  inputOnly (Game.opponentPaddle g0) (Game.opponentPaddle g) ->
  Game.set_opponentPaddle (Game.opponentPaddle g0)
    (Game.setOpponentInput isUpPressed isDownPressed g) = g0
  /\ inputOnly (Game.opponentPaddle g0)
       (Game.opponentPaddle
          (Game.setOpponentInput isUpPressed isDownPressed g)).
Proof.
  intros E (u & d & I). split.
  - rewrite <- E at 2. destruct g. reflexivity.
  - exists isUpPressed, isDownPressed.
    unfold Game.setOpponentInput.
    cbn [Game.opponentPaddle Game.set_opponentPaddle].
    rewrite I. destruct (Game.opponentPaddle g0). reflexivity.
Qed.

(** A host decides alone: whatever snapshots and paddle moves it receives,
    nothing of its game changes but the two direction flags of the
    opponent's paddle; its handlers send nothing, and the snapshots are not
    even buffered. *)
Theorem host_keeps_authority (msgs : list Message) (m : GameManager.t) :
  GameManager.isHost m = true ->
  forallb isSnapshotOrMove msgs = true ->
  let m' := receiveAll msgs m in
  Game.set_opponentPaddle (Game.opponentPaddle (GameManager.game m))
    (GameManager.game m') = GameManager.game m
  /\ inputOnly (Game.opponentPaddle (GameManager.game m))
       (Game.opponentPaddle (GameManager.game m'))
  /\ GameManager.outbox m' = GameManager.outbox m
  /\ SyncService.stateBuffer (GameManager.sync m')
     = SyncService.stateBuffer (GameManager.sync m)
  /\ GameManager.lastProcessedGameControl m'
     = GameManager.lastProcessedGameControl m.
Proof.
  intros Hh Hm. cbv zeta.
  set (g0 := GameManager.game m).
  assert (G : Game.set_opponentPaddle (Game.opponentPaddle g0)
                (GameManager.game m) = g0
              /\ inputOnly (Game.opponentPaddle g0)
                   (Game.opponentPaddle (GameManager.game m))).
  { split; [apply set_opponentPaddle_same|].
    exists (Paddle.isMovingUp (Game.opponentPaddle g0)),
           (Paddle.isMovingDown (Game.opponentPaddle g0)).
    unfold g0. destruct (Game.opponentPaddle (GameManager.game m)).
    reflexivity. }
  generalize (eq_refl (GameManager.outbox m)).
  generalize (eq_refl (SyncService.stateBuffer (GameManager.sync m))).
  generalize (eq_refl (GameManager.lastProcessedGameControl m)).
  generalize (GameManager.outbox m) at 1 3.
  generalize (SyncService.stateBuffer (GameManager.sync m)) at 1 3.
  generalize (GameManager.lastProcessedGameControl m) at 1 3.
  clearbody g0. revert m Hh G.
  induction msgs as [|msg rest IH]; intros m Hh (G1 & G2) l b o El Eb Eo.
  - cbn. repeat split; auto.
  - cbn [forallb] in Hm. apply andb_true_iff in Hm. destruct Hm as (Hc & Hr).
    unfold receiveAll. cbn [fold_left].
    fold (receiveAll rest (GameManager.receive msg m)).
    assert (K : GameManager.isHost (GameManager.receive msg m) = true
                /\ (Game.set_opponentPaddle (Game.opponentPaddle g0)
                      (GameManager.game (GameManager.receive msg m)) = g0
                    /\ inputOnly (Game.opponentPaddle g0)
                         (Game.opponentPaddle
                            (GameManager.game (GameManager.receive msg m))))
                /\ l = GameManager.lastProcessedGameControl
                         (GameManager.receive msg m)
                /\ b = SyncService.stateBuffer
                         (GameManager.sync (GameManager.receive msg m))
                /\ o = GameManager.outbox (GameManager.receive msg m)).
    { destruct msg as [state ts|up down ts|action ts|ts|ts];
        cbn [GameManager.receive isSnapshotOrMove] in *;
        try discriminate Hc.
      - unfold GameManager.onGameState. rewrite Hh. auto.
      - unfold GameManager.onPaddleMove. rewrite Hh. cbv zeta.
        cbn [GameManager.isHost GameManager.set_game GameManager.set_sync
             GameManager.game GameManager.lastProcessedGameControl
             GameManager.sync GameManager.outbox].
        split; [exact Hh|].
        split; [apply setOpponentInput_rest; assumption|].
        split; [exact El|]. split; [|exact Eo].
        rewrite Eb. unfold SyncService.bufferInput. cbv zeta.
        destruct (10 <=? _)%nat; reflexivity. }
    destruct K as (K1 & K2 & K3 & K4 & K5).
    apply (IH Hr _ K1 K2 l b o K3 K4 K5).
Qed.

(** On a client of a network game the buttons only ask: pressing one
    leaves the client's own game as it is and sends the host one control
    message with the action and the time of the clock; START sends nothing
    while the connection is not established. *)
Theorem client_buttons_only_ask (action : GameControlAction)
    (m : GameManager.t) :
  GameManager.isNetworkGame m = true ->
  GameManager.isHost m = false ->
  let m' := press action m in
  GameManager.game m' = GameManager.game m
  /\ GameManager.loopRunning m' = GameManager.loopRunning m
  /\ (action = START -> GameManager.connection m <> CONNECTED ->
      GameManager.outbox m' = GameManager.outbox m)
  /\ (action <> START \/ GameManager.connection m = CONNECTED ->
      GameManager.outbox m'
      = GameManager.outbox m
        ++ [GameControlMessage action (Some (GameManager.now m))]).
Proof.
  intros Hn Hh. cbv zeta.
  destruct action; cbn [press];
    unfold GameManager.startGame, GameManager.pauseGame,
      GameManager.resumeGame, GameManager.restartGame;
    rewrite Hn, Hh; cbn [andb negb];
    try (split; [reflexivity|]; split; [reflexivity|];
         split; [intro H; discriminate H | reflexivity]).
  destruct (GameManager.connection m) eqn:C; cbn;
    (split; [reflexivity|]); (split; [reflexivity|]);
    split; intros; try reflexivity;
    try match goal with
      | H : START <> START \/ _ |- _ =>
          destruct H as [H|H]; [contradiction H; reflexivity | discriminate H]
      | H : ?a <> ?a |- _ => contradiction H; reflexivity
      end.
Qed.

End ManagerAuthority.

Section ManagerFrames.
Context {M : JsMath}.

(** A START that is processed raises [isStarting] and arms the timer that
    lowers it.  Until that timer fires, a further START, whatever its
    timestamp, starts nothing: the game, the loop, the service and the
    outbox stay as the first one left them. *)
Theorem repeated_start_is_ignored (t1 : option Z) (m : GameManager.t) :
  GameManager.isStale t1 m = false ->
  GameManager.isStarting m = false ->
  let m1 := GameManager.onGameControl START t1 m in
  GameManager.isStarting m1 = true
  /\ GameManager.startingTimer m1 = true
  /\ (forall t2,
        let m2 := GameManager.onGameControl START t2 m1 in
        GameManager.game m2 = GameManager.game m1
        /\ GameManager.outbox m2 = GameManager.outbox m1
        /\ GameManager.sync m2 = GameManager.sync m1
        /\ GameManager.loopRunning m2 = GameManager.loopRunning m1
        /\ GameManager.isStarting m2 = true)
  /\ GameManager.isStarting (GameManager.fireStartingTimeout m1) = false.
Proof.
  intros Hs Hi. cbv zeta.
  set (m1 := GameManager.onGameControl START t1 m).
  assert (D : GameManager.isStarting m1 = true
              /\ GameManager.startingTimer m1 = true).
  { unfold m1, GameManager.onGameControl. rewrite Hs. cbv zeta.
    cbn [GameManager.isStarting GameManager.set_lastProcessedGameControl].
    rewrite Hi. cbn [negb].
    set (m0 := GameManager.set_isStarting true _).
    destruct (startGame_session m0) as (_ & _ & _ & D & _).
    cbn [GameManager.isStarting GameManager.set_startingTimer
         GameManager.startingTimer].
    rewrite D. split; reflexivity. }
  clearbody m1. destruct D as (D & T).
  split; [exact D|]. split; [exact T|].
  split.
  - intros t2. unfold GameManager.onGameControl.
    destruct (GameManager.isStale t2 m1); cbv zeta;
      cbn [GameManager.isStarting GameManager.set_lastProcessedGameControl];
      rewrite ?D; cbn [negb]; repeat split; exact D.
  - unfold GameManager.fireStartingTimeout. rewrite T. reflexivity.
Qed.

Lemma getState_important (g : Game.t) :
  SyncService.isImportantState (Game.getState g)
  = negb (GameStatus_eqb (Game.status g) WAITING_FOR_OPPONENT
          || GameStatus_eqb (Game.status g) PAUSED).
Proof.
  unfold SyncService.isImportantState, Game.getState.
  cbn [gs_status gs_countdown].
  destruct (Game.status g); reflexivity.
Qed.

(** On the host of a network game every frame updates the game first and
    then offers the state it has reached to the synchronisation service.
    While the game is counting down, playing or over, that state is sent on
    every frame, whatever the time since the last one; while it waits or is
    paused, it is sent only once [syncInterval] has passed.  Nothing else is
    sent. *)
Theorem host_frame_sends_snapshot (inputState : bool * bool) (timestamp : Q)
    (m : GameManager.t) :
  GameManager.isNetworkGame m = true ->
  GameManager.isHost m = true ->
  let g' := Game.update timestamp (GameManager.game m) in
  let m' := GameManager.update inputState timestamp m in
  let snapshot :=
    GameStateMessage (Game.getState g') (Some (clock (Game.env g'))) in
  let throttled :=
    (GameStatus_eqb (Game.status g') WAITING_FOR_OPPONENT
     || GameStatus_eqb (Game.status g') PAUSED)
    && Qltb (timestamp - SyncService.lastSyncTime (GameManager.sync m))
         (SyncService.syncInterval
            (SyncService.config (GameManager.sync m))) in
  GameManager.game m' = g'
  /\ GameManager.outbox m'
     = (if throttled then GameManager.outbox m
        else GameManager.outbox m ++ [snapshot])
  /\ SyncService.lastSyncTime (GameManager.sync m')
     = (if throttled then SyncService.lastSyncTime (GameManager.sync m)
        else timestamp).
Proof.
  intros Hn Hh. cbv zeta.
  unfold GameManager.update, GameManager.syncNetworkState. cbv zeta.
  cbn [GameManager.isNetworkGame GameManager.isHost GameManager.set_game
       GameManager.game GameManager.sync].
  rewrite Hn, Hh. cbn [negb].
  unfold SyncService.syncGameState. rewrite getState_important.
  rewrite negb_involutive.
  generalize (Game.update timestamp (GameManager.game m)). intro g'.
  unfold GameManager.now. cbn [GameManager.game GameManager.set_game].
  destruct ((GameStatus_eqb (Game.status g') WAITING_FOR_OPPONENT
             || GameStatus_eqb (Game.status g') PAUSED)
            && Qltb _ _); repeat split.
Qed.

End ManagerFrames.

(** ** GameLoop: one frame at a time *)

Section LoopFacts.
Variable World : Type.
Variable updateFn : Q -> World -> World.
Variable renderFn : World -> World.

Lemma start_oneFramePending (l : GameLoop.t) :
  oneFramePending l ->
  oneFramePending (GameLoop.start l)
  /\ GameLoop.isRunning (GameLoop.start l) = true.
Proof.
  unfold oneFramePending, GameLoop.start.
  destruct (GameLoop.isRunning l) eqn:R; cbn [negb].
  - intros H. rewrite R. split; [exact H | reflexivity].
  - intros H. cbn. rewrite H. split; [|reflexivity].
    exists (GameLoop.nextId l). split; reflexivity.
Qed.

Lemma stop_oneFramePending (l : GameLoop.t) :
  oneFramePending l ->
  oneFramePending (GameLoop.stop l)
  /\ GameLoop.isRunning (GameLoop.stop l) = false.
Proof.
  unfold oneFramePending, GameLoop.stop.
  destruct (GameLoop.isRunning l) eqn:R.
  - intros (id & I & P). rewrite I. cbn. rewrite P. cbn.
    rewrite Nat.eqb_refl. split; reflexivity.
  - intros H. destruct (GameLoop.rafId l); rewrite R; split; auto.
Qed.

Lemma runFrame_oneFramePending (timestamp : Q) (l : GameLoop.t) (w : World) :
  oneFramePending l ->
  let r := GameLoop.runFrame updateFn renderFn timestamp (l, w) in
  oneFramePending (fst r)
  /\ GameLoop.isRunning (fst r) = GameLoop.isRunning l
  /\ snd r = if GameLoop.isRunning l then renderFn (updateFn timestamp w)
             else w.
Proof.
  unfold oneFramePending, GameLoop.runFrame. cbv zeta. cbn [fst snd].
  destruct (GameLoop.isRunning l) eqn:R.
  - intros (id & I & P). rewrite P. cbn. rewrite R. cbn.
    split; [|split; reflexivity].
    exists (GameLoop.nextId l). split; reflexivity.
  - intros P. rewrite P. cbn [fst snd]. rewrite R, P.
    repeat split; reflexivity.
Qed.

Lemma runLoop_oneFramePending (events : list LoopEvent) (l : GameLoop.t)
    (w : World) :
  oneFramePending l ->
  let r := runLoop updateFn renderFn events (l, w) in
  oneFramePending (fst r)
  /\ snd r
     = framesWhileStarted updateFn renderFn (GameLoop.isRunning l) events w.
Proof.
  revert l w. induction events as [|ev rest IH]; intros l w H.
  - split; [exact H | reflexivity].
  - unfold runLoop. cbn [fold_left].
    fold (runLoop updateFn renderFn rest
            (applyLoopEvent updateFn renderFn ev (l, w))).
    destruct ev as [| |timestamp]; cbn [applyLoopEvent fst snd].
    + destruct (@start_oneFramePending l H) as (A & B).
      destruct (IH _ w A) as (C & D). rewrite B in D.
      split; [exact C | exact D].
    + destruct (@stop_oneFramePending l H) as (A & B).
      destruct (IH _ w A) as (C & D). rewrite B in D.
      split; [exact C | exact D].
    + destruct (@runFrame_oneFramePending timestamp l w H) as (A & B & C).
      destruct (GameLoop.runFrame updateFn renderFn timestamp (l, w))
        as [l1 w1].
      cbn [fst snd] in A, B, C. subst w1.
      destruct (IH _ (if GameLoop.isRunning l
                      then renderFn (updateFn timestamp w) else w) A)
        as (D & E).
      rewrite B in E. split; [exact D | exact E].
Qed.

(** Whatever the order of the calls of [start] and [stop] and of the
    browser's frames, a started loop has exactly one frame pending, the one
    [rafId] names, and a stopped loop has none: starting twice does not
    double the loop.  The callbacks have run once for every frame that came
    while the loop was started, and never for a stopped loop. *)
Theorem game_loop_single_frame (events : list LoopEvent) (w : World) :
  let r := runLoop updateFn renderFn events (GameLoop.new, w) in
  oneFramePending (fst r)
  /\ (length (GameLoop.pending (fst r)) <= 1)%nat
  /\ snd r = framesWhileStarted updateFn renderFn false events w.
Proof.
  cbv zeta.
  assert (N : oneFramePending GameLoop.new) by reflexivity.
  destruct (@runLoop_oneFramePending events _ w N) as (A & B).
  split; [exact A|]. split; [|exact B].
  unfold oneFramePending in A.
  destruct (GameLoop.isRunning _).
  - destruct A as (id & _ & P). rewrite P. cbn. lia.
  - rewrite A. cbn. lia.
Qed.

End LoopFacts.

(** ** ParticleService and AudioService *)

Section ParticleFacts.
Context {M : JsMath}.

Lemma explode_sparks (n : nat) (x y : Q) (color : String.string)
    (minSpeed maxSpeed minLife maxLife : Q) (ps : list Particle.t) (e : Env) :
  fair e -> minLife <= maxLife ->
  let r :=
    ParticleService.explode n x y color minSpeed maxSpeed minLife maxLife ps e
  in
  exists sparks,
    fst r = ps ++ sparks
    /\ length sparks = n
    /\ Forall (sparkOf x y color minLife maxLife) sparks
    /\ draws (snd r) = draws e
    /\ cursor (snd r) = (cursor e + 4 * n)%nat
    /\ clock (snd r) = clock e.
Proof.
  intros F L. cbv zeta. revert ps e F.
  induction n as [|k IH]; intros ps e F.
  - exists []. cbn. rewrite app_nil_r, Nat.add_0_r.
    repeat split; trivial.
  - cbn [ParticleService.explode]. unfold random. cbn [draws cursor clock].
    match goal with
    | |- context [ParticleService.explode k _ _ _ _ _ _ _ (ps ++ [?p]) ?e1] =>
        destruct (IH (ps ++ [p]) e1) as (sparks & A & B & C & D & E & G);
          [intro i; apply F|];
          exists (p :: sparks)
    end.
    rewrite A, <- app_assoc. cbn [app length draws cursor clock] in *.
    split; [reflexivity|]. split; [rewrite B; reflexivity|].
    split; [|split; [exact D|split; [rewrite E; lia | exact G]]].
    constructor; [|exact C].
    unfold sparkOf, Particle.new. cbn [Particle.x Particle.y Particle.color
      Particle.radius Particle.life Particle.maxLife].
    destruct (F (S (S (cursor e)))) as (R1 & R2).
    destruct (F (S (S (S (cursor e))))) as (R3 & R4).
    repeat split; try reflexivity; try lra; nra.
Qed.

(** [createExplosion] does nothing, and draws nothing, when the effects are
    disabled.  Otherwise it adds one particle for every natural number
    below [count], after the ones there are, each at the given point with
    the given colour, a radius between 1 and 4 and a lifetime between
    [minLife] and [maxLife], and takes four draws for each. *)
Theorem createExplosion_sparks (x y count : Q) (color : String.string)
    (minSpeed maxSpeed minLife maxLife : Q) (s : ParticleService.t)
    (e : Env) :
  fair e -> minLife <= maxLife ->
  let r :=
    ParticleService.createExplosion x y count color minSpeed maxSpeed minLife
      maxLife s e in
  if ParticleService.isEnabled s then
    exists sparks,
      ParticleService.particles (fst r)
      = ParticleService.particles s ++ sparks
      /\ length sparks = Z.to_nat (Qceiling count)
      /\ Forall (sparkOf x y color minLife maxLife) sparks
      /\ ParticleService.isEnabled (fst r) = true
      /\ cursor (snd r) = (cursor e + 4 * length sparks)%nat
  else r = (s, e).
Proof.
  intros F L. cbv zeta. unfold ParticleService.createExplosion.
  destruct (ParticleService.isEnabled s) eqn:En; cbn [negb]; [|reflexivity].
  destruct (explode_sparks (Z.to_nat (Qceiling count)) x y color minSpeed
              maxSpeed (ParticleService.particles s) F L)
    as (sparks & A & B & C & _ & E & _).
  cbv zeta in A, E.
  destruct (ParticleService.explode _ _ _ _ _ _ _ _ _ _) as [ps e1].
  cbn [fst snd] in *.
  exists sparks. rewrite B.
  split; [exact A|]. split; [reflexivity|]. split; [exact C|].
  split; [exact En | exact E].
Qed.

End ParticleFacts.

Section AudioFacts.

Lemma applyAudioOp_gainFollows (op : AudioOp) (s : AudioService.t) :
  gainFollows s -> gainFollows (applyAudioOp op s).
Proof.
  intros (V0 & V1 & G). unfold gainFollows.
  destruct op as [volume|muted| |id| |id volumeMultiplier pitch];
    cbn [applyAudioOp].
  - unfold AudioService.setVolume. cbv zeta.
    cbn [AudioService.gain AudioService.set_volume AudioService.muted].
    assert (B : 0 <= Qmax 0 (Qmin 1 volume) /\ Qmax 0 (Qmin 1 volume) <= 1).
    { split; [apply Q.le_max_l|].
      apply Q.max_lub; [apply Qlt_le_weak; reflexivity | apply Q.le_min_l]. }
    destruct (AudioService.gain s) as [g|] eqn:Eg.
    + destruct (AudioService.muted s) eqn:Em; cbn [negb];
        cbn [AudioService.volume AudioService.set_volume AudioService.gain
             AudioService.set_gain AudioService.muted AudioService.getVolume];
        rewrite ?Eg, ?Em;
        (split; [apply B|]); (split; [apply B|]); [exact G | reflexivity].
    + cbn [AudioService.volume AudioService.set_volume AudioService.gain].
      rewrite Eg. split; [apply B|]. split; [apply B | exact I].
  - unfold AudioService.setMuted. cbv zeta.
    cbn [AudioService.gain AudioService.set_muted].
    destruct (AudioService.gain s) as [g|] eqn:Eg;
      cbn [AudioService.volume AudioService.set_muted AudioService.gain
           AudioService.set_gain AudioService.muted];
      rewrite ?Eg; repeat split; trivial.
  - unfold AudioService.beginInitialize.
    destruct (AudioService.initialized s);
      cbn [AudioService.volume AudioService.gain AudioService.set_gain
           AudioService.muted];
      repeat split; trivial.
  - cbn. repeat split; trivial.
  - cbn. repeat split; trivial.
  - unfold AudioService.playSound.
    destruct (_ || _); [repeat split; trivial|].
    destruct (AudioService.hasSound id s); cbn; repeat split; trivial.
Qed.

(** Whatever the calls made on the audio service, and in whatever order,
    the volume stays between 0 and 1 and the master gain, once there is
    one, is 0 when the service is muted and the volume otherwise; and a
    muted service plays nothing. *)
Theorem audio_gain_follows_volume (ops : list AudioOp) :
  let s := runAudio ops AudioService.new in
  gainFollows s
  /\ (AudioService.muted s = true ->
      forall id volumeMultiplier pitch,
        AudioService.playSound id volumeMultiplier pitch s = s).
Proof.
  cbv zeta. split.
  - assert (G : gainFollows AudioService.new).
    { unfold gainFollows. cbn. repeat split; try exact I;
        apply Qlt_le_weak; reflexivity. }
    revert G. generalize AudioService.new.
    induction ops as [|op rest IH]; intros s G; [exact G|].
    apply (IH (applyAudioOp op s)). apply applyAudioOp_gainFollows, G.
  - intros Hm id volumeMultiplier pitch. unfold AudioService.playSound.
    rewrite Hm. rewrite !orb_true_r. reflexivity.
Qed.

End AudioFacts.

(** ** The engine on concrete games *)

(** Closes a goal made of comparisons and equalities between values the
    engine computes. *)
Ltac evaluate :=
  vm_compute;
  repeat match goal with
    | |- _ /\ _ => split
    | |- _ = _ => reflexivity
    | |- _ -> False => let H := fresh in intro H; discriminate H
    | |- True => exact I
    end.

(** C1, the claim as stated fails.  A client in play has its ball at
    (400, 300); the snapshot of the host has the ball at (403, 300) and
    the paddles where the client has them.  The three differences are
    below the threshold, the soft merge applies, and the local ball is
    moved to (403, 300). *)
Lemma soft_merge_overwrites_ball :
  let m := clientManager in
  let state := snapshot PLAYING 403 300 in
  let localState := Game.getState (GameManager.game m) in
  (SyncService.ballDiff (M := rationalMath) localState state < 10
   /\ SyncService.playerPaddleDiff localState state < 10
   /\ SyncService.opponentPaddleDiff localState state < 10)
  /\ SyncService.needsReconciliation (M := rationalMath) (GameManager.sync m)
       localState state = false
  /\ x (Ball.position (Game.ball (GameManager.game m))) == 400
  /\ Ball.position
       (Game.ball
          (GameManager.game
             (GameManager.onGameState (M := rationalMath) state m)))
     = mkVec 403 300
  /\ ~ x (Ball.position
            (Game.ball
               (GameManager.game
                  (GameManager.onGameState (M := rationalMath) state m))))
        == x (Ball.position (Game.ball (GameManager.game m))).
Proof. cbv zeta. evaluate. Qed.

Lemma onGameState_ball_position_witness :
  Ball.position
    (Game.ball
       (GameManager.game
          (GameManager.onGameState (M := rationalMath)
             (snapshot PLAYING 420 300) clientManager)))
  = mkVec 420 300.
Proof.
  apply (@onGameState_ball_position rationalMath (snapshot PLAYING 420 300)
           clientManager).
  - reflexivity.
  - intro H. discriminate H.
Defined.

Lemma update_bounded_catch_up_witness :
  (snd (Game.updateCounting (M := rationalMath) 1000000016 stalledGame) <= 5)%nat
  /\ Game.accumulator (Game.update (M := rationalMath) 1000000016 stalledGame)
     = 0.
Proof.
  destruct (@update_bounded_catch_up rationalMath 1000000016 stalledGame)
    as (H1 & _ & _ & H4).
  split; [exact H1|].
  apply H4; evaluate.
Defined.


Lemma additional_balls_never_score_witness :
  Game.playerScore (Game.checkScoring (M := rationalMath) multiBall) = 0%Z
  /\ Game.opponentScore (Game.checkScoring (M := rationalMath) multiBall) = 0%Z
  /\ Game.additionalBalls (Game.checkScoring (M := rationalMath) multiBall)
     = [fieldBall].
Proof.
  assert (N : Ball.checkScoringBoundary 0 (Game.fieldWidth multiBall)
                (Game.ball multiBall) = None)
    by (vm_compute; reflexivity).
  destruct (@additional_balls_never_score rationalMath multiBall)
    as (_ & _ & _ & H).
  destruct (H N) as (H1 & H2 & H3).
  split; [exact H1 | split; [exact H2|]].
  rewrite H3. vm_compute. reflexivity.
Defined.

(** C7, the claim as stated fails.  The host wins the only point of a
    match (status GAME_OVER, winner "player"); [startCountdown] then
    starts a countdown and keeps the winner: the snapshot has a non-null
    winner in COUNTDOWN. *)
Lemma winner_outlives_game_over :
  let g :=
    runGame (M := rationalMath) (matchPointOps ++ [GStartCountdown])
      newHostGame in
  gs_status (Game.getState wonGame) = GAME_OVER
  /\ gs_status (Game.getState g) = COUNTDOWN
  /\ gs_winner (Game.getState g) = Some (Some player)
  /\ ~ winnerOnlyInGameOver (Game.getState g).
Proof.
  cbv zeta.
  assert (S : gs_status
                (Game.getState
                   (runGame (M := rationalMath)
                      (matchPointOps ++ [GStartCountdown]) newHostGame))
              = COUNTDOWN) by (vm_compute; reflexivity).
  assert (W : gs_winner
                (Game.getState
                   (runGame (M := rationalMath)
                      (matchPointOps ++ [GStartCountdown]) newHostGame))
              = Some (Some player)) by (vm_compute; reflexivity).
  repeat split; try assumption; try (vm_compute; reflexivity).
  intro K. specialize (K player W). rewrite S in K. discriminate K.
Qed.

Lemma lifecycle_constraints_witness :
  countdownOnlyInCountdown
    (Game.getState (runGame (M := rationalMath) sessionOps newHostGame))
  /\ winnerOnlyInGameOver
       (Game.getState (runGame (M := rationalMath) sessionOps newHostGame)).
Proof.
  apply (@lifecycle_constraints rationalMath HOST Game.DEFAULT_CONFIG demoEnv
           sessionOps).
  evaluate.
Defined.

(** C8, the claim as stated fails.  The game is over, won by the player,
    and a snapshot in COUNTDOWN arrives without its optional fields:
    [setState] adopts the status and returns, the winner is still set. *)
Lemma early_return_skips_defaults :
  let g :=
    Game.setState (M := rationalMath) (bareState (snapshot COUNTDOWN 400 300))
      wonGame in
  Game.winner wonGame = Some player
  /\ Game.status g = COUNTDOWN
  /\ Game.winner g = Some player
  /\ Game.winner g <> None.
Proof.
  cbv zeta. repeat split; try (vm_compute; reflexivity).
  vm_compute. intro H. discriminate H.
Qed.

Lemma setState_absent_optional_fields_witness :
  Game.winner
    (Game.setState (M := rationalMath) (bareState (snapshot PLAYING 403 300))
       wonGame) = None
  /\ Game.additionalBalls
       (Game.setState (M := rationalMath)
          (bareState (snapshot PLAYING 403 300)) multiBall) = [].
Proof.
  split.
  - destruct (@setState_absent_optional_fields rationalMath
                (snapshot PLAYING 403 300) wonGame strayBall cornerPaddle)
      as (H & _).
    apply H. reflexivity.
  - destruct (@setState_absent_optional_fields rationalMath
                (snapshot PLAYING 403 300) multiBall strayBall cornerPaddle)
      as (H & _).
    apply H. reflexivity.
Defined.

Lemma paddle_containment_witness :
  paddleContained
    (applyPaddleOp (M := rationalMath) (OpUpdate (1 / 120))
       (Paddle.setMovingUp true cornerPaddle)).
Proof.
  destruct (@paddle_containment rationalMath (OpUpdate (1 / 120)) (mkVec 30 40)
              (Paddle.setMovingUp true cornerPaddle)) as (_ & H).
  apply H.
  - reflexivity.
  - intros _. evaluate.
  - evaluate.
Defined.

(** C10, the claim as stated fails: not every public operation keeps the
    paddle inside its boundaries.  [applyResizeEffect] called with
    [instant] set assigns the height and leaves the ordinate as it is.
    The corner paddle, 80 high at ordinate 40 between the boundaries 0 and
    600, lies inside them; its instant enlargement by 1.5 is 120 high, so
    the boundaries still leave room for it, but it is still at ordinate
    40, its top edge 20 above the upper boundary.  [resetSize] called with
    [instant] set does the same: a paddle 40 high at ordinate 20 lies
    inside the boundaries, and is 80 high at ordinate 20 afterwards. *)
Lemma instant_resize_skips_clamp :
  let p := cornerPaddle in
  let p' :=
    applyPaddleOp (M := rationalMath) (OpApplyResizeEffect 1.5 true) p in
  let q := shrunkenPaddle in
  let q' := applyPaddleOp (M := rationalMath) (OpResetSize true) q in
  (paddleContainment p
   /\ paddleContained p
   /\ paddleFits p'
   /\ Paddle.height p' == 120
   /\ y (Paddle.position p') = 40
   /\ ~ paddleContained p'
   /\ ~ paddleContainment p')
  /\ (paddleContainment q
      /\ paddleContained q
      /\ paddleFits q'
      /\ Paddle.height q' == 80
      /\ y (Paddle.position q') == 20
      /\ ~ paddleContained q'
      /\ ~ paddleContainment q').
Proof.
  cbv zeta.
  assert (N : ~ paddleContained
                (applyPaddleOp (M := rationalMath)
                   (OpApplyResizeEffect 1.5 true) cornerPaddle)).
  { intros [H _]. revert H. vm_compute. intro H. apply H. reflexivity. }
  assert (N' : ~ paddleContained
                 (applyPaddleOp (M := rationalMath) (OpResetSize true)
                    shrunkenPaddle)).
  { intros [H _]. revert H. vm_compute. intro H. apply H. reflexivity. }
  split.
  - split; [intros _; evaluate|].
    split; [evaluate|]. split; [evaluate|]. split; [evaluate|].
    split; [evaluate|]. split; [exact N|].
    intro C. apply N, C. evaluate.
  - split; [intros _; evaluate|].
    split; [evaluate|]. split; [evaluate|]. split; [evaluate|].
    split; [evaluate|]. split; [exact N'|].
    intro C. apply N', C. evaluate.
Qed.

(** The threshold test on concrete snapshots: a ball 3 px away needs no
    reconciliation, a ball 20 px away does. *)
Lemma needsReconciliation_examples :
  SyncService.needsReconciliation (M := rationalMath) SyncService.syncService
    (snapshot PLAYING 400 300) (snapshot PLAYING 403 300) = false
  /\ SyncService.needsReconciliation (M := rationalMath)
       SyncService.syncService
       (snapshot PLAYING 400 300) (snapshot PLAYING 420 300) = true.
Proof. evaluate. Qed.


(** ** The invariants and the services on concrete inputs *)

Lemma onGrid_nonneg (q : Q) : 0 <= q -> 0 <= onGrid q.
Proof.
  intro H. unfold onGrid.
  assert (K : (0 <= Qfloor (q * 1000000000))%Z).
  { change 0%Z with (Qfloor 0). apply Qfloor_resp_le.
    apply Qmult_le_0_compat; [exact H | apply Qlt_le_weak; reflexivity]. }
  unfold Qle. cbn [Qnum Qden]. lia.
Qed.

Lemma babylonian_nonneg (n : nat) (s guess : Q) :
  0 <= s -> 0 <= guess -> 0 <= babylonian n s guess.
Proof.
  revert guess. induction n as [|k IH]; intros guess Hs Hg; [exact Hg|].
  cbn [babylonian]. apply IH; [exact Hs|].
  apply onGrid_nonneg.
  apply Qmult_le_0_compat; [|apply Qlt_le_weak; reflexivity].
  assert (D : 0 <= s / guess).
  { apply Qmult_le_0_compat; [exact Hs | apply Qinv_le_0_compat, Hg]. }
  lra.
Qed.

(** The square root of the computable [Math] is never negative. *)
Lemma sqrtApprox_nonneg : sqrtNonneg (M := rationalMath).
Proof.
  intro s. cbn [Msqrt rationalMath]. unfold sqrtApprox.
  destruct (Qleb s 0) eqn:E; [apply Qle_refl|].
  apply Qleb_false in E.
  apply babylonian_nonneg; [lra|].
  assert (G : 0 <= onGrid ((s + 1) / 2)).
  { apply onGrid_nonneg.
    apply Qmult_le_0_compat; [lra | apply Qlt_le_weak; reflexivity]. }
  lra.
Qed.

Lemma demoEnv_fair : fair demoEnv.
Proof. intro n. split; evaluate. Qed.

Lemma setMaxSpeed_bounds_witness :
  Qabs (x (Ball.velocity (Ball.setMaxSpeed 300 fieldBall))) <= 300.
Proof.
  destruct (@setMaxSpeed_bounds 300 fieldBall) as (_ & H & _).
  - evaluate.
  - exact H.
Defined.

Lemma checkPaddleCollision_sends_back_witness :
  0 <= x (Ball.velocity
            (fst (fst (Ball.checkPaddleCollision (M := rationalMath) 30 300 12
                         80 true incomingBall demoEnv)))).
Proof.
  apply (@checkPaddleCollision_sends_back rationalMath 30 300 12 80 true
           incomingBall demoEnv).
  - exact sqrtApprox_nonneg.
  - evaluate.
  - evaluate.
  - evaluate.
  - intros _. evaluate.
  - evaluate.
Defined.

Lemma updatePaddleSize_approach_witness :
  Paddle.height shrinkingPaddle == 80
  /\ Paddle.targetHeight shrinkingPaddle == 40
  /\ Paddle.height (Paddle.updatePaddleSize (1 / 120) shrinkingPaddle)
     <= Paddle.height shrinkingPaddle
  /\ Qabs (Paddle.targetHeight shrinkingPaddle
           - Paddle.height (Paddle.updatePaddleSize (1 / 120) shrinkingPaddle))
     == Qabs (Paddle.targetHeight shrinkingPaddle
              - Paddle.height shrinkingPaddle)
        - Paddle.resizeRate * (1 / 120).
Proof.
  destruct (@updatePaddleSize_approach (1 / 120) shrinkingPaddle)
    as (_ & _ & H3 & _ & _ & H6).
  - evaluate.
  - split; [evaluate|]. split; [evaluate|].
    split; [exact H3|]. apply H6. evaluate.
Defined.

Lemma dash_then_cooldown_witness :
  Paddle.isDashing (Paddle.update (M := rationalMath) (1 / 120) dashingPaddle)
  = true.
Proof.
  destruct (@dash_then_cooldown rationalMath (1 / 120) dashingPaddle)
    as (_ & H).
  - evaluate.
  - evaluate.
  - apply H. evaluate.
Defined.

Lemma PowerUpManager_update_spec_witness :
  PowerUpManager.activePowerUps
    (fst (PowerUpManager.update (1 / 120) (Game.powerUpManager newHostGame)
            demoEnv))
  = filter (fun p => negb (PowerUpManager.expired (clock demoEnv) p))
      (PowerUpManager.activePowerUps (Game.powerUpManager newHostGame)).
Proof.
  destruct (@PowerUpManager_update_spec (1 / 120)
              (Game.powerUpManager newHostGame) demoEnv) as (H & _).
  - exact demoEnv_fair.
  - evaluate.
  - evaluate.
  - exact H.
Defined.

Lemma update_keeps_paddles_tall_witness :
  snd (Game.updateCounting (M := rationalMath) 33
         (collectingGame SHRINK_OPPONENT [])) = 2%nat
  /\ Paddle.height
       (Game.opponentPaddle
          (Game.update (M := rationalMath) 33
             (collectingGame SHRINK_OPPONENT []))) < 80
  /\ bothPaddles paddleTall
       (Game.update (M := rationalMath) 33 (collectingGame SHRINK_OPPONENT [])).
Proof.
  split; [evaluate|]. split; [evaluate|].
  destruct (@update_keeps_paddles_tall rationalMath 33
              (collectingGame SHRINK_OPPONENT [])) as (_ & H).
  - evaluate.
  - evaluate.
  - exact H.
Defined.

Lemma update_caps_additional_balls_witness :
  snd (Game.updateCounting (M := rationalMath) 33 crowdedGame) = 2%nat
  /\ PowerUpManager.powerUps
       (Game.powerUpManager (Game.update (M := rationalMath) 33 crowdedGame))
     = []
  /\ (length
        (Game.additionalBalls (Game.update (M := rationalMath) 33 crowdedGame))
      <= Game.maxAdditionalBalls)%nat.
Proof.
  split; [evaluate|]. split; [evaluate|].
  apply (@update_caps_additional_balls rationalMath 33 crowdedGame).
  vm_compute. lia.
Defined.

Lemma update_leaves_frozen_game_witness :
  snd (Game.updateCounting (M := rationalMath) 1000 pausedGame) = 5%nat
  /\ withLoopOf pausedGame (Game.update (M := rationalMath) 1000 pausedGame)
     = pausedGame.
Proof.
  split; [evaluate|].
  apply (@update_leaves_frozen_game rationalMath 1000 pausedGame).
  reflexivity.
Defined.

Lemma countdown_timers_start_the_game_witness :
  Game.status (fireTimers (M := rationalMath) 3 countingGame) = PLAYING.
Proof.
  destruct (@countdown_timers_start_the_game rationalMath countingGame)
    as (_ & H & _).
  - evaluate.
  - evaluate.
  - evaluate.
  - exact H.
Defined.

Lemma hard_reconciliation_copies_witness :
  gs_ball
    (Game.getState
       (Game.setState (M := rationalMath) (Game.getState multiBall)
          (Game.new CLIENT Game.DEFAULT_CONFIG demoEnv)))
  = gs_ball (Game.getState multiBall).
Proof.
  destruct (@hard_reconciliation_copies rationalMath multiBall
              (Game.new CLIENT Game.DEFAULT_CONFIG demoEnv))
    as (_ & H & _).
  - evaluate.
  - exact H.
Defined.

Lemma state_buffer_keeps_last_ten_witness :
  SyncService.getLatestState
    (bufferGameStates [snapshot PLAYING 100 300; snapshot PLAYING 110 300]
       SyncService.syncService)
  = Some (snapshot PLAYING 110 300).
Proof.
  destruct (@state_buffer_keeps_last_ten
              [snapshot PLAYING 100 300; snapshot PLAYING 110 300]
              SyncService.syncService) as (_ & _ & H & _).
  - vm_compute. lia.
  - apply (H [snapshot PLAYING 100 300]). reflexivity.
Defined.

Lemma newest_control_is_remembered_witness :
  lastControlTime 0
    (receiveControls (M := rationalMath) [(PAUSE, 100%Z); (RESUME, 50%Z)]
       hostManager)
  = 100%Z.
Proof.
  destruct (@newest_control_is_remembered rationalMath
              [(PAUSE, 100%Z); (RESUME, 50%Z)] hostManager) as (H & _).
  - intros c [<- | [<- | []]]; reflexivity.
  - exact H.
Defined.

Lemma host_keeps_authority_witness :
  GameManager.outbox
    (receiveAll (M := rationalMath)
       [GameStateMessage (snapshot PLAYING 100 300) (Some 5%Z);
        PaddleMoveMessage (Some true) None (Some 6%Z)] hostManager)
  = GameManager.outbox hostManager.
Proof.
  destruct (@host_keeps_authority rationalMath
              [GameStateMessage (snapshot PLAYING 100 300) (Some 5%Z);
               PaddleMoveMessage (Some true) None (Some 6%Z)] hostManager)
    as (_ & _ & H & _).
  - reflexivity.
  - reflexivity.
  - exact H.
Defined.

Lemma repeated_start_is_ignored_witness :
  GameManager.isStarting
    (GameManager.onGameControl (M := rationalMath) START (Some 100%Z)
       hostManager)
  = true.
Proof.
  destruct (@repeated_start_is_ignored rationalMath (Some 100%Z) hostManager)
    as (H & _).
  - reflexivity.
  - reflexivity.
  - exact H.
Defined.

Lemma host_frame_sends_snapshot_witness :
  GameManager.game
    (GameManager.update (M := rationalMath) (false, false) 16 hostManager)
  = Game.update (M := rationalMath) 16 (GameManager.game hostManager).
Proof.
  destruct (@host_frame_sends_snapshot rationalMath (false, false) 16
              hostManager) as (H & _).
  - reflexivity.
  - reflexivity.
  - exact H.
Defined.

Lemma client_buttons_only_ask_witness :
  GameManager.game (press (M := rationalMath) PAUSE clientManager)
  = GameManager.game clientManager.
Proof.
  destruct (@client_buttons_only_ask rationalMath PAUSE clientManager)
    as (H & _).
  - reflexivity.
  - reflexivity.
  - exact H.
Defined.

Lemma createExplosion_sparks_witness :
  exists sparks,
    ParticleService.particles
      (fst (ParticleService.createScoreEffect (M := rationalMath) 800 300
              ParticleService.new demoEnv))
    = sparks
    /\ length sparks = 30%nat
    /\ Forall (sparkOf 800 300 "#FFCC00"%string 0.5 1.0) sparks.
Proof.
  destruct (@createExplosion_sparks rationalMath 800 300 30 "#FFCC00"%string 100 300
              0.5 1.0 ParticleService.new demoEnv demoEnv_fair)
    as (sparks & A & B & C & _).
  - evaluate.
  - exists sparks. split; [exact A|]. split; [exact B | exact C].
Defined.
